(** * MIMOSIS-1 slow control: a shallow embedding of [mimosis/mimosis.py]

    The Python module drives a MIMOSIS-1 sensor over I2C.  This file embeds
    - the transaction codec ([getCmdByte], the [CMDID] and [ADDRS] tables),
    - the simulated device ([writeSim], [readSim]),
    - the register block accessors ([rwReg16w], [rwRoTstConf], [rwMFE] and
      their read/write wrappers),
    - the bit-flip detection loop ([__checkBitFlipLoop]) and
    - the beam position subscriber ([MicrobeamSubscriberSocket.read_msg]),
    and states the properties of the specification over them.

    Conventions.  Python integers are [Z] (the bit operations of [Z] agree
    with Python's on negative numbers too).  A method of a Python object is
    a computation in a state-and-exception monad over the fields it can
    reach; a raised exception keeps the mutations made before it.  The class
    attribute [DEBUG] is [False] in the source, so the debug printing is
    left out. *)

From Stdlib Require Import ZArith Lia Ascii String.
From stdpp Require Import base list gmap strings.

Local Open Scope Z_scope.

(** ** Python values, exceptions and the method monad *)

Module Py.

(** The built-in exceptions that the embedded code can raise. *)
Inductive exn : Set :=
| AttributeError | IndexError | KeyError | TypeError | ValueError.

Inductive res (A : Type) : Type :=
| Ok (a : A)
| Raise (e : exn).
Global Arguments Ok {A} a.
Global Arguments Raise {A} e.

(** A method acting on a state [S]: the state is returned in both
    outcomes, since Python does not roll back on an exception. *)
Definition M (S A : Type) : Type := S -> res A * S.

Definition ret {S A} (a : A) : M S A := fun s => (Ok a, s).
Definition raise {S A} (e : exn) : M S A := fun s => (Raise e, s).
Definition bind {S A B} (m : M S A) (k : A -> M S B) : M S B :=
  fun s => match m s with
           | (Ok a, s') => k a s'
           | (Raise e, s') => (Raise e, s')
           end.
Definition get {S} : M S S := fun s => (Ok s, s).
Definition gets {S A} (f : S -> A) : M S A := fun s => (Ok (f s), s).
Definition modify {S} (f : S -> S) : M S unit := fun s => (Ok tt, f s).
Definition lift_res {S A} (r : res A) : M S A := fun s => (r, s).

(** [seq[i]] on a Python sequence of length [n]: a negative index counts
    from the end, anything outside [-n .. n-1] is an [IndexError]. *)
Definition index (n : nat) (i : Z) : option nat :=
  if (0 <=? i) && (i <? Z.of_nat n) then Some (Z.to_nat i)
  else if (- Z.of_nat n <=? i) && (i <? 0) then Some (Z.to_nat (i + Z.of_nat n))
  else None.

Definition getitem {A} (l : list A) (i : Z) : res A :=
  match index (length l) i with
  | Some k => match l !! k with Some a => Ok a | None => Raise IndexError end
  | None => Raise IndexError
  end.

Definition setitem {A} (l : list A) (i : Z) (a : A) : res (list A) :=
  match index (length l) i with
  | Some k => Ok (<[k := a]> l)
  | None => Raise IndexError
  end.

(** [range(n)] *)
Definition range (n : nat) : list Z := Z.of_nat <$> seq 0 n.

(** [for x in xs: acc = body(x, acc)], stopping at the first exception. *)
Fixpoint for_each {S A X} (xs : list X) (body : X -> A -> M S A) (acc : A) : M S A :=
  match xs with
  | [] => ret acc
  | x :: rest => bind (body x acc) (for_each rest body)
  end.

End Py.
Import Py.

Declare Scope py_scope.
Delimit Scope py_scope with py.
Notation "'let*' x ':=' m 'in' k" := (bind m (fun x => k))
  (at level 10, x pattern, m at level 100, k at level 200) : py_scope.
Notation "m '>>' k" := (bind m (fun _ => k))
  (at level 90, right associativity) : py_scope.
Local Open Scope py_scope.

(** ** Transaction codec *)

(** [enumerate(names, start)] *)
Fixpoint enumerate {A} (start : Z) (l : list A) : list (Z * A) :=
  match l with
  | [] => []
  | a :: rest => (start, a) :: enumerate (start + 1) rest
  end.

Definition cmdIds : list (Z * string) :=
  enumerate 1 ["INSTR"; "ADD_MSB"; "ADD_LSB"; "WR"; "RD";
               "WR_IND"; "RD_IND"; "WR_OFF"; "RD_OFF"]%string.

(** The names of the command set, in the order of their codes. *)
Definition command_names : list string := snd <$> cmdIds.

(** [self.CMDID = dict((j,i) for i,j in cmdIds)] *)
Definition CMDID : gmap string Z :=
  list_to_map ((fun p => (p.2, p.1)) <$> cmdIds).

(** [self.ADDRS]: block name to its [MSB, LSB] pair. *)
Definition ADDRS : gmap string (Z * Z) :=
  list_to_map [("GenConf",   (0x00, 0x20));   (* 0b0000_0000, 0b0010_0000 *)
               ("DAC",       (0x00, 0x40));   (* 0b0000_0000, 0b0100_0000 *)
               ("SeqConf",   (0x00, 0x60));   (* 0b0000_0000, 0b0110_0000 *)
               ("PixCtrl",   (0x00, 0x80));   (* 0b0000_0000, 0b1000_0000 *)
               ("Mon",       (0x00, 0xE0));   (* 0b0000_0000, 0b1110_0000 *)
               ("MFE",       (0x80, 0x00));   (* 0b1000_0000, 0b0000_0000 *)
               ("AnaPixSel", (0x80, 0x20));   (* 0b1000_0000, 0b0010_0000 *)
               ("RoTstConf", (0x80, 0x40))    (* 0b1000_0000, 0b0100_0000 *)
              ]%string.

(** The arithmetic of [getCmdByte]:
    [(0b111 & self.chipid) << 4 | (0b1111 & cmd)]. *)
Definition cmdByte (chipid cmd : Z) : Z :=
  Z.lor (Z.shiftl (Z.land 0x7 chipid) 4) (Z.land 0xF cmd).

(** [Msis1.getCmdByte]: the dictionary lookup raises [KeyError] on an
    unknown command name. *)
Definition getCmdByte (chipid : Z) (cmdId : string) : res Z :=
  match CMDID !! cmdId with
  | Some cmd => Ok (cmdByte chipid cmd)
  | None => Raise KeyError
  end.

(** ** Transports

    [Msis1.__init__] takes the two I2C functions [fread] and [fwrite] and
    stores them as [self.chipread] and [self.chipwrite]; in simulation mode
    the bound methods [self.readSim] and [self.writeSim] take their place.
    A transport is a state with these two functions.  Both receive
    [self.chipid] as their first argument, which the simulated device reads
    through [self.getCmdByte]. *)

(** A positional argument of a read: an integer or a sized sequence. *)
Inductive pyarg : Type :=
| PInt (z : Z)
| PSeq (l : list Z).

(** What a read returns: one integer, or a sequence of them. *)
Inductive rdval : Type :=
| VInt (z : Z)
| VSeq (l : list Z).

Class Transport (T : Type) : Type := {
  chipwrite : Z -> Z -> list Z -> M T Z;
  chipread : Z -> Z -> list pyarg -> M T rdval
}.

(** *** The simulated device *)

Module Sim.

(** [simRegs] is the 256 x 256 grid of cells built by [__init__];
    [simAddrMSB] and [simAddrLSB] are attributes that only [writeSim]
    creates: [None] stands for an attribute that does not exist yet. *)
Record device : Type := Device {
  simRegs : list (list (list Z));
  simAddrMSB : option Z;
  simAddrLSB : option Z
}.

(** The state after [Msis1(sim=True)]: every cell is [[0x00, 0x00]]. *)
Definition fresh : device :=
  {| simRegs := replicate 256 (replicate 256 [0x00; 0x00]);
     simAddrMSB := None;
     simAddrLSB := None |}.

(** Reading an attribute that was never assigned. *)
Definition attr {A} (o : option A) : res A :=
  match o with
  | Some a => Ok a
  | None => Raise AttributeError
  end.

(** [self.simRegs[self.simAddrMSB][self.simAddrLSB]], evaluated left to
    right. *)
Definition load_cell (d : device) : res (list Z) :=
  match attr (simAddrMSB d) with
  | Raise e => Raise e
  | Ok msb =>
      match getitem (simRegs d) msb with
      | Raise e => Raise e
      | Ok row =>
          match attr (simAddrLSB d) with
          | Raise e => Raise e
          | Ok lsb => getitem row lsb
          end
      end
  end.

(** [self.simRegs[self.simAddrMSB][self.simAddrLSB] = args]: the row is
    looked up first, then the cell of that row is replaced. *)
Definition store_cell (d : device) (args : list Z) : res device :=
  match attr (simAddrMSB d) with
  | Raise e => Raise e
  | Ok msb =>
      match index (length (simRegs d)) msb with
      | None => Raise IndexError
      | Some r =>
          match simRegs d !! r with
          | None => Raise IndexError
          | Some row =>
              match attr (simAddrLSB d) with
              | Raise e => Raise e
              | Ok lsb =>
                  match setitem row lsb args with
                  | Raise e => Raise e
                  | Ok row' =>
                      Ok {| simRegs := <[r := row']> (simRegs d);
                            simAddrMSB := simAddrMSB d;
                            simAddrLSB := simAddrLSB d |}
                  end
              end
          end
      end
  end.

(** [Msis1.writeSim(addr, *args)] *)
Definition writeSim (chipid addr : Z) (args : list Z) : M device Z :=
  fun d =>
    match getCmdByte chipid "ADD_LSB" with
    | Raise e => (Raise e, d)
    | Ok c_lsb =>
        match (addr =? c_lsb) && (length args =? 1)%nat, args with
        | true, a0 :: _ =>
            (Ok (Z.of_nat (length args)),
             {| simRegs := simRegs d; simAddrMSB := simAddrMSB d; simAddrLSB := Some a0 |})
        | _, _ =>
            match getCmdByte chipid "ADD_MSB" with
            | Raise e => (Raise e, d)
            | Ok c_msb =>
                match (addr =? c_msb) && (length args =? 1)%nat, args with
                | true, a0 :: _ =>
                    (Ok (Z.of_nat (length args)),
                     {| simRegs := simRegs d; simAddrMSB := Some a0; simAddrLSB := simAddrLSB d |})
                | _, _ =>
                    match getCmdByte chipid "WR" with
                    | Raise e => (Raise e, d)
                    | Ok c_wr =>
                        if addr =? c_wr then
                          match store_cell d args with
                          | Raise e => (Raise e, d)
                          | Ok d' => (Ok (Z.of_nat (length args)), d')
                          end
                        else (Ok (Z.of_nat (length args)), d)
                    end
                end
            end
        end
    end.

(** [length = len] of the unpacked [args], and [1] when that call raises: it succeeds
    only for exactly one sized argument. *)
Definition read_length (args : list pyarg) : nat :=
  match args with
  | [PSeq l] => length l
  | _ => 1%nat
  end.

(** [Msis1.readSim(addr, *args)] *)
Definition readSim (chipid addr : Z) (args : list pyarg) : M device rdval :=
  fun d =>
    let len := read_length args in
    match getCmdByte chipid "RD" with
    | Raise e => (Raise e, d)
    | Ok c_rd =>
        if addr =? c_rd then
          match load_cell d with
          | Raise e => (Raise e, d)
          | Ok reg =>
              if (len =? 1)%nat then
                match getitem reg 0 with
                | Raise e => (Raise e, d)
                | Ok b => (Ok (VInt b), d)
                end
              else (Ok (VSeq (take len reg)), d)
          end
        else (Ok (VInt (Z.of_nat (length args))), d)
    end.

#[global] Instance transport : Transport device :=
  {| chipwrite := writeSim; chipread := readSim |}.

(** The shape that [__init__] gives the grid and that no method changes:
    256 rows of 256 cells. *)
Definition grid_ok (g : list (list (list Z))) : Prop :=
  length g = 256%nat /\ Forall (fun row => length row = 256%nat) g.

(** The cell at row [m], column [l], for selectors inside the grid. *)
Definition cell (g : list (list (list Z))) (m l : Z) : option (list Z) :=
  g !! Z.to_nat m ≫= fun row => row !! Z.to_nat l.

(** The grid with the cell at row [m], column [l] replaced. *)
Definition put (m l : Z) (v : list Z) (g : list (list (list Z))) : list (list (list Z)) :=
  <[Z.to_nat m := <[Z.to_nat l := v]> (g !!! Z.to_nat m)]> g.

End Sim.

(** *** A transport that records its transactions

    Every call is appended to a log; a read returns the byte [0x00]. *)

Module Rec.

Inductive txn : Type :=
| TxWrite (addr : Z) (args : list Z)
| TxRead (addr : Z) (args : list pyarg).

Definition log := list txn.

Definition logWrite (chipid addr : Z) (args : list Z) : M log Z :=
  fun l => (Ok (Z.of_nat (length args)), l ++ [TxWrite addr args]).

Definition logRead (chipid addr : Z) (args : list pyarg) : M log rdval :=
  fun l => (Ok (VInt 0x00), l ++ [TxRead addr args]).

#[global] Instance transport : Transport log :=
  {| chipwrite := logWrite; chipread := logRead |}.

End Rec.

(** ** The beam position subscriber: [MicrobeamSubscriberSocket]

    A line is taken as decoded text (the source decodes it as UTF-8); the
    model covers ASCII text.  [reader] is the stream of a connected socket:
    it holds the lines still to come, each with its newline, and the empty
    list is end of input, where [readline] returns the empty line. *)

Module Subscriber.

Record socket : Type := Socket {
  reader : list string;
  scanId : option Z;
  scan_x : option Z;
  scan_y : option Z
}.

(** [msg.split(' ')]: every single space separates, so neighbouring
    spaces give empty words and a newline stays in its word. *)
Fixpoint split_space (s : string) : list string :=
  match s with
  | EmptyString => [EmptyString]
  | String c rest =>
      if Ascii.eqb c " " then EmptyString :: split_space rest
      else match split_space rest with
           | w :: ws => String c w :: ws
           | [] => [String c EmptyString]
           end
  end.

(** The white space that [int] skips around a number: space, tab, line
    feed, vertical tab, form feed, carriage return. *)
Definition is_space (c : ascii) : bool :=
  let n := N_of_ascii c in
  (n =? 32)%N || ((9 <=? n)%N && (n <=? 13)%N).

Definition digit_of (c : ascii) : option Z :=
  let n := Z.of_N (N_of_ascii c) in
  if (48 <=? n) && (n <=? 57) then Some (n - 48) else None.

Fixpoint lstrip (s : string) : string :=
  match s with
  | EmptyString => EmptyString
  | String c rest => if is_space c then lstrip rest else s
  end.

Fixpoint rstrip (s : string) : string :=
  match s with
  | EmptyString => EmptyString
  | String c rest =>
      match rstrip rest with
      | EmptyString => if is_space c then EmptyString else String c EmptyString
      | rest' => String c rest'
      end
  end.

(** Decimal digits, where single underscores may stand between two
    digits; [after_digit] tells whether the previous character was one. *)
Fixpoint digits (acc : Z) (after_digit : bool) (s : string) : option Z :=
  match s with
  | EmptyString => if after_digit then Some acc else None
  | String c rest =>
      match digit_of c with
      | Some d => digits (10 * acc + d) true rest
      | None =>
          if Ascii.eqb c "_" && after_digit then digits acc false rest else None
      end
  end.

(** The number of digit characters of a word: what CPython holds against
    its limit on the conversion of a string to an integer.  Leading zeros
    count; the sign, the underscores and the white space do not. *)
Fixpoint count_digits (s : string) : Z :=
  match s with
  | EmptyString => 0
  | String c rest =>
      (match digit_of c with Some _ => 1 | None => 0 end) + count_digits rest
  end.

(** [sys.get_int_max_str_digits()], as the interpreter starts. *)
Definition max_str_digits : Z := 4300.

(** [int(word)] on text: [None] is the [ValueError] of a malformed
    literal, and of a literal of more than [max_str_digits] digits. *)
Definition py_int (word : string) : option Z :=
  let body := rstrip (lstrip word) in
  if max_str_digits <? count_digits body then None
  else
    match body with
    | String "+" rest => digits 0 false rest
    | String "-" rest => Z.opp <$> digits 0 false rest
    | _ => digits 0 false body
    end.

Definition int (word : string) : M socket Z :=
  match py_int word with
  | Some z => ret z
  | None => raise ValueError
  end.

(** [words[i]] *)
Definition word (words : list string) (i : Z) : M socket string :=
  lift_res (getitem words i).

(** [await self.reader.readline()] *)
Definition readline : M socket string :=
  fun s =>
    match reader s with
    | [] => (Ok EmptyString, s)
    | line :: rest =>
        (Ok line, {| reader := rest; scanId := scanId s;
                     scan_x := scan_x s; scan_y := scan_y s |})
    end.

Definition set_scanId (z : Z) : M socket unit :=
  modify (fun s => {| reader := reader s; scanId := Some z;
                      scan_x := scan_x s; scan_y := scan_y s |}).
Definition set_scan_x (z : Z) : M socket unit :=
  modify (fun s => {| reader := reader s; scanId := scanId s;
                      scan_x := Some z; scan_y := scan_y s |}).
Definition set_scan_y (z : Z) : M socket unit :=
  modify (fun s => {| reader := reader s; scanId := scanId s;
                      scan_x := scan_x s; scan_y := Some z |}).

(** [MicrobeamSubscriberSocket.read_msg]: [None] is the bare [return] at
    end of input. *)
Definition read_msg : M socket (option string) :=
  let* line := readline in
  if String.eqb line "" then ret None
  else
    let msg := line in
    let words := split_space msg in
    let* w0 := word words 0 in
    if String.eqb w0 "start_run" then
      let* w1 := word words 1 in
      let* id := int w1 in
      set_scanId id >> ret (Some msg)
    else if String.eqb w0 "stop_run" then
      ret (Some msg)
    else if String.eqb w0 "pos" then
      let* w1 := word words 1 in
      let* x := int w1 in
      set_scan_x x >>
      let* w2 := word words 2 in
      let* y := int w2 in
      set_scan_y y >> ret (Some msg)
    else ret (Some msg).

(** How a [while True] loop stands after a number of rounds. *)
Inductive loop_end : Type :=
| Running
| Returned
| Raised (e : exn).

(** [Msis1.__readScanPos]: [while True: msg = await read_msg()], run for
    at most [fuel] rounds.  Nothing catches an exception of [read_msg]. *)
Fixpoint readScanPos (fuel : nat) (s : socket) : loop_end * socket :=
  match fuel with
  | O => (Running, s)
  | S fuel' =>
      match read_msg s with
      | (Ok _, s') => readScanPos fuel' s'
      | (Raise e, s') => (Raised e, s')
      end
  end.

End Subscriber.
Export Subscriber(loop_end, Running, Returned, Raised).

(** ** The chip object: [Msis1] *)

(** The default register tables of [__init__], in their wire order. *)
Definition GenConf : list (string * Z) :=
  [("RUNMODE", 0x40); ("TRIMDAC", 0x6E); ("INJCURR", 0x00); ("INJVOLT1", 0x00);
   ("INJVOLT2", 0x00); ("MONCURR", 0x00); ("MONVOLT", 0x00); ("CLKGEN1", 0x01);
   ("CLKGEN2", 0x01); ("PLL", 0x16); ("PLLLOCK", 0x00); ("MONTEMP", 0x00);
   ("SLVSTX", 0x15); ("SLVSRX", 0x00); ("OUTPUT", 0x17); ("MONPWR", 0x00)]%string.

Definition DAC : list (string * Z) :=
  [("IBIAS", 64); ("ITHR", 52); ("IDB", 28); ("VRESET", 171); ("VPL", 70);
   ("VPH", 85); ("VPH_FINE", 0); ("VCASP", 67); ("VCASNA", 1); ("VCASNB", 1);
   ("VCASNC", 1); ("VCASND", 1); ("VCASN2", 83); ("VCLIP", 50);
   ("IBUFBIAS", 125)]%string.

(** Number of 1-bits of a byte, [bin(x).count("1")]. *)
Definition popcount (x : Z) : Z :=
  foldr (fun k acc => (if Z.testbit x k then 1 else 0) + acc) 0 (range 8).

(** [self.bitcounts]: the look-up table over [range(256)]. *)
Definition bitcounts : list Z := popcount <$> range 256.

(** A record printed by the detection loop: the iteration count, the number
    of 1-bits, the tag (old or new), the scan position and the bytes.  The
    time stamp and the name of the read function are left out. *)
Record report : Type := Report {
  rep_counter : Z;
  rep_ones : Z;
  rep_tag : string;
  rep_scanId : option Z;
  rep_scan_x : option Z;
  rep_scan_y : option Z;
  rep_bytes : list Z
}.

(** What [rwReg16w] and its siblings return: [False], or a length. *)
Inductive rw_ret : Type :=
| RFalse
| RLen (n : nat).

Definition is_byte (z : Z) : bool := (0 <=? z) && (z <? 256).

(** [bytearray(n)] *)
Definition bytearray (n : nat) : list Z := replicate n 0.

(** The fields of an [Msis1] object over a transport state [T].  [conf] is
    the empty dictionary throughout and is not kept.  [entropy] with
    [draws] is the random generator: the draws still to come and how many
    were taken.  [stdout] collects the printed records. *)
Record state (T : Type) : Type := State {
  chipid : Z;
  dev : T;
  confLoaded : bool;
  bitFlipFound : bool;
  bitFlipResult : list (list Z);
  simReadFlip : bool;
  lastRead : list Z;
  tcpSocket : Subscriber.socket;
  entropy : nat -> Z;
  draws : nat;
  stdout : list report
}.
Arguments State {T}.
Arguments chipid {T}.
Arguments dev {T}.
Arguments confLoaded {T}.
Arguments bitFlipFound {T}.
Arguments bitFlipResult {T}.
Arguments simReadFlip {T}.
Arguments lastRead {T}.
Arguments tcpSocket {T}.
Arguments entropy {T}.
Arguments draws {T}.
Arguments stdout {T}.

Section Msis1.

Context {T : Type}.

Definition with_dev (d : T) (st : state T) : state T :=
  State (chipid st) d (confLoaded st) (bitFlipFound st) (bitFlipResult st)
        (simReadFlip st) (lastRead st) (tcpSocket st) (entropy st) (draws st) (stdout st).
Definition with_lastRead (b : list Z) (st : state T) : state T :=
  State (chipid st) (dev st) (confLoaded st) (bitFlipFound st) (bitFlipResult st)
        (simReadFlip st) b (tcpSocket st) (entropy st) (draws st) (stdout st).
Definition with_bitFlip (found : bool) (result : list (list Z)) (st : state T) : state T :=
  State (chipid st) (dev st) (confLoaded st) found result
        (simReadFlip st) (lastRead st) (tcpSocket st) (entropy st) (draws st) (stdout st).
Definition with_simReadFlip (b : bool) (st : state T) : state T :=
  State (chipid st) (dev st) (confLoaded st) (bitFlipFound st) (bitFlipResult st)
        b (lastRead st) (tcpSocket st) (entropy st) (draws st) (stdout st).
Definition with_draws (n : nat) (st : state T) : state T :=
  State (chipid st) (dev st) (confLoaded st) (bitFlipFound st) (bitFlipResult st)
        (simReadFlip st) (lastRead st) (tcpSocket st) (entropy st) n (stdout st).
Definition with_stdout (out : list report) (st : state T) : state T :=
  State (chipid st) (dev st) (confLoaded st) (bitFlipFound st) (bitFlipResult st)
        (simReadFlip st) (lastRead st) (tcpSocket st) (entropy st) (draws st) out.

(** A call of a transport function on [self]. *)
Definition on_dev {A} (m : Z -> M T A) : M (state T) A :=
  fun st => match m (chipid st) (dev st) with
            | (r, d') => (r, with_dev d' st)
            end.

(** [random.randint(a, b)]: the next draw, brought into [a .. b]. *)
Definition randint (a b : Z) : M (state T) Z :=
  fun st => (Ok (a + entropy st (draws st) mod (b - a + 1)),
             with_draws (S (draws st)) st).

(** [self.getCmdByte(cmdId)] *)
Definition cmd (cmdId : string) : M (state T) Z :=
  fun st => (getCmdByte (chipid st) cmdId, st).

(** [buf[i]] on a bytearray. *)
Definition buf_get (buf : list Z) (i : Z) : M (state T) Z :=
  lift_res (getitem buf i).

(** [buf[i] = v] on a bytearray: the index must be in range and the
    value one integer in [range(256)].  The index is looked at first, as
    in the Python 3.8 that the module asks for. *)
Definition buf_set (buf : list Z) (i : Z) (v : rdval) : M (state T) (list Z) :=
  match index (length buf) i with
  | None => raise IndexError
  | Some k =>
      match v with
      | VInt z => if is_byte z then ret (<[k := z]> buf) else raise ValueError
      | VSeq _ => raise TypeError
      end
  end.

(** [Msis1.getBytesFromDict] *)
Definition getBytesFromDict (d : list (string * Z)) : M (state T) (list Z) :=
  for_each (enumerate 0 (snd <$> d))
           (fun iv ba => buf_set ba iv.1 (VInt iv.2))
           (bytearray (length d)).

(** [Msis1.onesInBytes] *)
Definition onesInBytes (buf : list Z) : M (state T) Z :=
  for_each buf
           (fun byte counter =>
              let* n := lift_res (getitem bitcounts byte) in ret (counter + n))
           0.

Context `{Transport T}.

(** [Msis1.write(addr, *args)] *)
Definition write (addr : Z) (args : list Z) : M (state T) Z :=
  on_dev (fun cid => chipwrite cid addr args).

(** [Msis1.read(addr, *args)] *)
Definition read (addr : Z) (args : list pyarg) : M (state T) rdval :=
  let* result := on_dev (fun cid => chipread cid addr args) in
  let* flip := gets simReadFlip in
  if flip then
    let* r := randint 0 999 in
    if r =? 0 then
      (* flip a random bit with 0.1% chance *)
      let* k := randint 0 7 in
      match result with
      | VInt z =>
          let rbit := Z.land (Z.shiftl z k) 0x80 in   (* select bit *)
          ret (VInt (Z.lxor z rbit))                   (* flip it! *)
      | VSeq _ => raise TypeError
      end
    else ret result
  else ret result.

(** The statements that the three block accessors share, for a column
    selector [lsb] and a buffer index [k]: select the column, then read
    into [buf[k]] ([mode == 'r']) or write [buf[k]]. *)
Definition rw_byte (mode : string) (lsb k : Z) (buf : list Z) : M (state T) (list Z) :=
  let* c := cmd "ADD_LSB" in
  write c [lsb] >>
  if String.eqb mode "r" then
    let* c := cmd "RD" in
    let* v := read c [] in
    buf_set buf k v
  else
    let* writeByte := buf_get buf k in
    let* c := cmd "WR" in
    write c [writeByte] >> ret buf.

(** [self.ADDRS[type]] *)
Definition addrs (type : string) : M (state T) (Z * Z) :=
  match ADDRS !! type with
  | Some a => ret a
  | None => raise KeyError
  end.

(** [Msis1.rwReg16w(type, buf, mode)]: the outcome and the buffer as the
    call leaves it. *)
Definition rwReg16w (type : string) (buf : option (list Z)) (mode : string)
  : M (state T) (rw_ret * option (list Z)) :=
  if negb (existsb (String.eqb type) ["GenConf"; "DAC"; "Mon"]%string) then
    ret (RFalse, buf)
  else
    match buf with
    | None =>
        let* loaded := gets confLoaded in
        if negb loaded then ret (RFalse, buf)
        else raise KeyError                       (* self.conf[type] on {} *)
    | Some b =>
        if String.eqb type "GenConf" && (length b <? 16)%nat then ret (RFalse, buf)
        else if (String.eqb type "DAC" || String.eqb type "Mon") && (length b <? 15)%nat
        then ret (RFalse, buf)
        else
          let* a := addrs type in
          let* c := cmd "ADD_MSB" in
          write c [a.1] >>
          let* b' := for_each (range (length b))
                              (fun i acc =>
                                 let* a := addrs type in
                                 rw_byte mode (Z.lor (Z.land a.2 0xF0) i) i acc)
                              b in
          ret (RLen (length b'), Some b')
    end.

(** [Msis1.readGenConf]; the result of [rwReg16w] is not looked at. *)
Definition readGenConf : M (state T) (list Z) :=
  let* r := rwReg16w "GenConf" (Some (bytearray 16)) "r" in
  let readBytes := default [] r.2 in
  modify (with_lastRead readBytes) >> ret readBytes.

(** [Msis1.readDAC] *)
Definition readDAC : M (state T) (list Z) :=
  let* r := rwReg16w "DAC" (Some (bytearray 15)) "r" in
  let readBytes := default [] r.2 in
  modify (with_lastRead readBytes) >> ret readBytes.

(** [Msis1.readMon] *)
Definition readMon : M (state T) (list Z) :=
  let* r := rwReg16w "DAC" (Some (bytearray 15)) "r" in
  let readBytes := default [] r.2 in
  modify (with_lastRead readBytes) >> ret readBytes.

(** [Msis1.writeGenConf(writeBytes=None)] *)
Definition writeGenConf (writeBytes : option (list Z)) : M (state T) rw_ret :=
  let* wb := match writeBytes with
             | None => getBytesFromDict GenConf
             | Some b => ret b
             end in
  let* r := rwReg16w "GenConf" (Some wb) "w" in ret r.1.

(** [Msis1.writeDAC(writeBytes=None)] *)
Definition writeDAC (writeBytes : option (list Z)) : M (state T) rw_ret :=
  let* wb := match writeBytes with
             | None => getBytesFromDict DAC
             | Some b => ret b
             end in
  let* r := rwReg16w "DAC" (Some wb) "w" in ret r.1.

(** [Msis1.writeMon(writeBytes=None)] *)
Definition writeMon (writeBytes : option (list Z)) : M (state T) rw_ret :=
  let* r := rwReg16w "DAC" writeBytes "w" in ret r.1.

(** [Msis1.rwRoTstConf(buf, mode)]: the loop carries [offset] along. *)
Definition rwRoTstConf (buf : list Z) (mode : string) : M (state T) (rw_ret * list Z) :=
  let* a := addrs "RoTstConf" in
  let* c := cmd "ADD_MSB" in
  write c [a.1] >>
  let* r := for_each (range 20)
                     (fun i (acc : Z * list Z) =>
                        let* b' := rw_byte mode acc.1 i acc.2 in
                        ret (acc.1 + 1, b'))
                     (0x40, buf) in
  ret (RLen (length r.2), r.2).

(** [Msis1.readRoTstConf] *)
Definition readRoTstConf : M (state T) (list Z) :=
  let* r := rwRoTstConf (bytearray 20) "r" in ret r.2.

(** [Msis1.writeRoTstConf(writeBytes=None)] *)
Definition writeRoTstConf (writeBytes : option (list Z)) : M (state T) (list Z) :=
  let wb := default (replicate 20 0x55) writeBytes in
  let* r := rwRoTstConf wb "w" in ret r.2.

(** [Msis1.rwMFE(buf, mode)] *)
Definition rwMFE (buf : list Z) (mode : string) : M (state T) (rw_ret * list Z) :=
  let* b' :=
    for_each (range 64)
             (fun region acc =>
                let* a := addrs "MFE" in
                let* c := cmd "ADD_MSB" in
                write c [Z.lor (Z.land a.1 0x80) (Z.land region 0x3F)] >>
                for_each (range 8)
                         (fun frame acc' =>
                            let* a := addrs "MFE" in
                            rw_byte mode (Z.lor (Z.land a.2 0xF8) (Z.land frame 0x7))
                                    (region * 8 + frame) acc')
                         acc)
             buf in
  ret (RLen (length b'), b').

(** [Msis1.readMFE] *)
Definition readMFE : M (state T) (list Z) :=
  let* r := rwMFE (bytearray (64 * 8)) "r" in ret r.2.

(** [Msis1.writeMFE(writeBytes=None)] *)
Definition writeMFE (writeBytes : option (list Z)) : M (state T) (list Z) :=
  let wb := default (replicate (64 * 8) 0x55) writeBytes in
  let* r := rwMFE wb "w" in ret r.2.

(** [Msis1.updateRegs] *)
Definition updateRegs : M (state T) unit :=
  writeGenConf None >> writeDAC None >> ret tt.

End Msis1.

(** ** The detection loop: [Msis1.__checkBitFlipLoop]

    [function] is the read function handed to [runBitFlipSearch] and
    [update] the optional list of corrective functions; both act on the
    chip object.  Every read function of the module returns a new
    bytearray, so the reads are values.  [asyncio.sleep] only hands control
    to the other task and is a no-op here. *)

Section DetectionLoop.

Context {T : Type}.

(** The local variables of the coroutine. *)
Record locals : Type := Locals {
  reference : list Z;
  counter : Z
}.

(** How one round of the [while True] body ends. *)
Inductive control : Type :=
| Continue
| Return.

(** One of the two [print] calls of a mismatch. *)
Definition print_report (count ones : Z) (tag : string) (bytes : list Z) : M (state T) unit :=
  fun st =>
    let sock := tcpSocket st in
    (Ok tt,
     with_stdout (stdout st ++
                  [Report count ones tag (Subscriber.scanId sock)
                          (Subscriber.scan_x sock) (Subscriber.scan_y sock) bytes]) st).

(** [for u in update: u()] *)
Definition run_updates (us : list (M (state T) unit)) : M (state T) unit :=
  for_each us (fun u _ => u) tt.

(** The body of [if reference[i] != self.lastRead[i]:], up to the
    [return] or the [break]. *)
Definition on_mismatch (update : option (list (M (state T) unit)))
           (loc : locals) (onesInReference : Z) : M (state T) control :=
  let* last := gets lastRead in
  modify (with_bitFlip true [reference loc; last]) >>
  print_report (counter loc) onesInReference "old" (reference loc) >>
  let* last := gets lastRead in
  let* onesInLast := onesInBytes last in
  let* last := gets lastRead in
  print_report (counter loc) onesInLast "new" last >>
  match update with
  | Some us => run_updates us >> ret Continue
  | None => ret Return
  end.

(** [for i in range(len(self.lastRead)): ...] over the indices still to
    visit. *)
Fixpoint compare (update : option (list (M (state T) unit)))
         (loc : locals) (onesInReference : Z) (idx : list Z) : M (state T) control :=
  match idx with
  | [] => ret Continue
  | i :: rest =>
      let* a := lift_res (getitem (reference loc) i) in
      let* last := gets lastRead in
      let* b := lift_res (getitem last i) in
      if negb (a =? b) then on_mismatch update loc onesInReference
      else compare update loc onesInReference rest
  end.

(** One round of [while True:]. *)
Definition loop_body (function : M (state T) (list Z))
           (update : option (list (M (state T) unit)))
           (loc : locals) : M (state T) (control * locals) :=
  let* r := function in
  modify (with_lastRead r) >>
  let* onesInReference := onesInBytes (reference loc) in
  let loc' := Locals (reference loc) (counter loc + 1) in
  let* last := gets lastRead in
  let* c := compare update loc' onesInReference (range (length last)) in
  ret (c, loc').

(** [fuel] rounds of the loop. *)
Fixpoint loop (fuel : nat) (function : M (state T) (list Z))
         (update : option (list (M (state T) unit)))
         (loc : locals) (st : state T) : loop_end * locals * state T :=
  match fuel with
  | O => (Running, loc, st)
  | S fuel' =>
      match loop_body function update loc st with
      | (Ok (Continue, loc'), st') => loop fuel' function update loc' st'
      | (Ok (Return, loc'), st') => (Returned, loc', st')
      | (Raise e, st') => (Raised e, loc, st')
      end
  end.

(** [Msis1.__checkBitFlipLoop(function, interval, update)], for at most
    [fuel] rounds of its loop. *)
Definition checkBitFlipLoop (fuel : nat) (function : M (state T) (list Z))
           (update : option (list (M (state T) unit)))
           (st : state T) : loop_end * locals * state T :=
  match function st with
  | (Raise e, st') => (Raised e, Locals [] 0, st')
  | (Ok r, st') =>
      let st'' := with_lastRead r st' in
      loop fuel function update (Locals (lastRead st'') 0) st''
  end.

(** The first index at which the comparison of a round finds different
    bytes, as the loop visits them. *)
Fixpoint first_diff (ref obs : list Z) (i : nat) : option nat :=
  match ref, obs with
  | a :: ref', b :: obs' => if a =? b then first_diff ref' obs' (S i) else Some i
  | _, _ => None
  end.

End DetectionLoop.

(** A read function for tests: the transport state is a prepared sequence
    of blocks and every call returns the next one. *)
Definition next_block : M (state (list (list Z))) (list Z) :=
  fun st =>
    match dev st with
    | [] => (Raise IndexError, st)
    | r :: rest => (Ok r, with_dev rest st)
    end.

(** An [Msis1] object as [__init__] leaves it without beam control: the
    scan position holds the bogus defaults. *)
Definition init {T : Type} (chipid : Z) (d : T) (rnd : nat -> Z) : state T :=
  {| chipid := chipid; dev := d; confLoaded := false;
     bitFlipFound := false; bitFlipResult := [];
     simReadFlip := false; lastRead := bytearray 16;
     tcpSocket := Subscriber.Socket [] (Some 0) (Some 0) (Some 0);
     entropy := rnd; draws := 0%nat; stdout := [] |}.

(** ** Further methods of [Msis1] *)

Section Msis1More.

Context {T : Type} `{Transport T}.

(** [Msis1.rwPixCtrl(mask, value, broadcast, mode)].  A [broadcast] other
    than [True] only prints a message.  In read mode the method calls
    [self.pread], an attribute that the class never defines. *)
Definition rwPixCtrl (mask value : Z) (broadcast : bool) (mode : string) : M (state T) Z :=
  let* c := cmd "ADD_MSB" in
  write c [0x40] >>                                   (* BCAS = 1, region addr = 0 *)
  let* a := addrs "PixCtrl" in
  let* c := cmd "ADD_LSB" in
  write c [Z.lor (Z.land a.2 0xE0) (Z.land mask 0x1F)] >>
  if String.eqb mode "r" then raise AttributeError
  else
    let* c := cmd "WR" in
    write c [value] >> ret 1.

End Msis1More.

(** How [runBitFlipSearch] stands after the rounds it was given: it has
    returned [self.bitFlipResult], it is still in its loop, or an exception
    has left it. *)
Inductive search_end : Type :=
| Found (result : list (list Z))
| Searching
| Failed (e : exn).

(** [Msis1.runBitFlipSearch(interval, function, update, simReadFlip)] on a
    chip object without beam control, where [__asyncBitFlips] runs the
    detection loop alone. *)
Definition runBitFlipSearch {T : Type} (fuel : nat) (function : M (state T) (list Z))
           (update : option (list (M (state T) unit))) (simReadFlip : bool)
           (st : state T) : search_end * state T :=
  match checkBitFlipLoop fuel function update (with_simReadFlip simReadFlip st) with
  | (Returned, _, st') => (Found (bitFlipResult st'), st')
  | (Running, _, st') => (Searching, st')
  | (Raised e, _, st') => (Failed e, st')
  end.

(** ** Vocabulary of the statements *)

(** A sequence of transactions applied to the simulated device, whatever
    each one returns or raises. *)
Definition sim_exec (chipid : Z) (d : Sim.device) (t : Rec.txn) : Sim.device :=
  match t with
  | Rec.TxWrite addr args => (Sim.writeSim chipid addr args d).2
  | Rec.TxRead addr args => (Sim.readSim chipid addr args d).2
  end.

Definition sim_run (chipid : Z) (ts : list Rec.txn) (d : Sim.device) : Sim.device :=
  foldl (sim_exec chipid) d ts.

(** A write of exactly one payload byte under the command code [code]:
    the form in which ADD_MSB (2) and ADD_LSB (3) set a selector. *)
Definition selects (chipid code : Z) (t : Rec.txn) : bool :=
  match t with
  | Rec.TxWrite addr [_] => addr =? cmdByte chipid code
  | _ => false
  end.

(** The transactions of a block read of [n] bytes at row [msb] and base
    column [lsb]: one ADD_MSB, then ADD_LSB and RD per offset. *)
Definition read_transactions (chipid msb lsb : Z) (n : nat) : list Rec.txn :=
  Rec.TxWrite (cmdByte chipid 2) [msb]
  :: (range n ≫= fun i => [Rec.TxWrite (cmdByte chipid 3) [Z.lor (Z.land lsb 0xF0) i];
                           Rec.TxRead (cmdByte chipid 5) []]).

(** The number of 1-bits of a byte sequence. *)
Definition count_ones (l : list Z) : Z := foldl (fun acc b => acc + popcount b) 0 l.

(** The word at position [i] of a line is present and is not a number. *)
Definition bad_field (words : list string) (i : nat) : Prop :=
  exists w, words !! i = Some w /\ Subscriber.py_int w = None.

(** A later state of a chip object over the recording transport whose log
    extends the earlier one. *)
Definition extends (st st' : state Rec.log) : Prop :=
  chipid st' = chipid st /\ dev st `prefix_of` dev st'.

(** A method that only appends to the log. *)
Definition grows {A} (m : M (state Rec.log) A) : Prop :=
  forall st, extends st (m st).2.

(** The line feed that ends a line of the feed. *)
Definition LF : string := String (ascii_of_nat 10) EmptyString.

(** The chip object after the two records of a mismatch were printed,
    old and new, and the pair of reads was stored. *)
Definition reported {T} (loc : locals) (ones_old ones_new : Z) (st : state T) : state T :=
  let sock := tcpSocket st in
  with_stdout
    (stdout st ++
     [Report (counter loc) ones_old "old" (Subscriber.scanId sock)
             (Subscriber.scan_x sock) (Subscriber.scan_y sock) (reference loc);
      Report (counter loc) ones_new "new" (Subscriber.scanId sock)
             (Subscriber.scan_x sock) (Subscriber.scan_y sock) (lastRead st)])
    (with_bitFlip true [reference loc; lastRead st] st).

(** A point of a register block: the row and the column of its cell, and
    its index in the buffer. *)
Definition point : Type := Z * Z * nat.

(** The grid after the bytes of [bs] were stored at the points [ps], one
    after the other. *)
Definition writes (ps : list point) (bs : list Z) (g : list (list (list Z))) :=
  foldl (fun g (p : point) => Sim.put p.1.1 p.1.2 [bs !!! p.2] g) g ps.

(** The buffer after the bytes of [bs] were put at the indices [ks]. *)
Definition reads (ks : list nat) (bs buf : list Z) : list Z :=
  foldl (fun b k => <[k := bs !!! k]> b) buf ks.

(** The points of a register block are inside the grid and the buffer. *)
Definition points_ok (n : nat) (ps : list point) : Prop :=
  Forall (fun p : point => (0 <= p.1.1 < 256 /\ 0 <= p.1.2 < 256) /\ (p.2 < n)%nat) ps.

(** The points of [rwReg16w] on a block at row [msb] and base column
    [lsb], for a buffer of [n] bytes. *)
Definition reg16_points (msb lsb : Z) (n : nat) : list point :=
  (fun i => (msb, Z.lor (Z.land lsb 0xF0) i, Z.to_nat i)) <$> range n.

(** The points of [rwRoTstConf]. *)
Definition rotst_points : list point :=
  (fun p : Z * Z => (0x80, p.1, Z.to_nat p.2)) <$> enumerate 0x40 (range 20).

(** The points of [rwMFE] in one region, and in a list of regions. *)
Definition mfe_region_points (region : Z) : list point :=
  (fun frame => (Z.lor (Z.land 0x80 0x80) (Z.land region 0x3F),
                 Z.lor (Z.land 0x00 0xF8) (Z.land frame 0x7),
                 Z.to_nat (region * 8 + frame))) <$> range 8.

Definition mfe_points (regions : list Z) : list point :=
  regions ≫= mfe_region_points.

(** The data transactions of a block over its points: per point one
    ADD_LSB with its column, and then one RD (mode ['r']) or one WR with
    the byte of the buffer (any other mode). *)
Definition data_transactions (mode : string) (chipid : Z) (bs : list Z) (ps : list point)
  : list Rec.txn :=
  ps ≫= fun p : point =>
          [Rec.TxWrite (cmdByte chipid 3) [p.1.2];
           if String.eqb mode "r" then Rec.TxRead (cmdByte chipid 5) []
           else Rec.TxWrite (cmdByte chipid 4) [bs !!! p.2]].

(** The transactions of [rwMFE] over a list of regions: per region one
    ADD_MSB with its row, and the data transactions of its eight frames. *)
Definition mfe_transactions (mode : string) (chipid : Z) (bs : list Z) (regions : list Z)
  : list Rec.txn :=
  regions ≫= fun region =>
               Rec.TxWrite (cmdByte chipid 2) [Z.lor (Z.land 0x80 0x80) (Z.land region 0x3F)]
               :: data_transactions mode chipid bs (mfe_region_points region).

(** The first byte of the cell at row [m], column [l]. *)
Definition peek (g : list (list (list Z))) (m l : Z) : Z :=
  match Sim.cell g m l with
  | Some (b :: _) => b
  | _ => 0
  end.

(** The first bytes of the cells at the points [ps], in their order. *)
Definition block_bytes (g : list (list (list Z))) (ps : list point) : list Z :=
  (fun p : point => peek g p.1.1 p.1.2) <$> ps.

(** Every cell of the grid starts with a byte. *)
Definition cell_okb (c : list Z) : bool :=
  match c with
  | b :: _ => is_byte b
  | [] => false
  end.

Definition cells_okb (g : list (list (list Z))) : bool :=
  forallb (forallb cell_okb) g.

(** The bytes that each block read finds on a grid. *)
Definition GenConf_bytes (g : list (list (list Z))) : list Z :=
  block_bytes g (reg16_points 0x00 0x20 16).
Definition DAC_bytes (g : list (list (list Z))) : list Z :=
  block_bytes g (reg16_points 0x00 0x40 15).
Definition RoTstConf_bytes (g : list (list (list Z))) : list Z :=
  block_bytes g rotst_points.
Definition MFE_bytes (g : list (list (list Z))) : list Z :=
  block_bytes g (mfe_points (range 64)).

(** The read functions of the chip object with the block each one reads. *)
Definition readers : list (M (state Sim.device) (list Z) * (list (list (list Z)) -> list Z)) :=
  [(readGenConf, GenConf_bytes); (readDAC, DAC_bytes); (readMon, DAC_bytes);
   (readRoTstConf, RoTstConf_bytes); (readMFE, MFE_bytes)].

(** The four register blocks as the read functions see them. *)
Definition blocks (g : list (list (list Z))) : list (list Z) :=
  [GenConf_bytes g; DAC_bytes g; RoTstConf_bytes g; MFE_bytes g].

(** The points of two blocks lie apart. *)
Definition apart (ps qs : list point) : Prop :=
  Forall (fun p : point => p.1 ∉ fst <$> qs) ps.

(** The two selector transactions of [rwPixCtrl]. *)
Definition pixctrl_selectors (chipid mask : Z) : list Rec.txn :=
  [Rec.TxWrite (cmdByte chipid 2) [0x40];
   Rec.TxWrite (cmdByte chipid 3) [Z.lor 0x80 (Z.land mask 0x1F)]].

(** The transactions of [rwMFE] on a buffer of fewer than 512 bytes: the
    regions that the buffer covers, then the region it ends in, with its
    row selector, the data transactions of the frames that the buffer
    still covers, and the column selector of the first frame beyond the
    buffer, which a read follows with its RD. *)
Definition mfe_short_transactions (mode : string) (chipid : Z) (buf : list Z) : list Rec.txn :=
  let region := Z.of_nat (length buf / 8) in
  let frame := Z.of_nat (length buf mod 8) in
  mfe_transactions mode chipid buf (range (length buf / 8))
  ++ Rec.TxWrite (cmdByte chipid 2) [Z.lor (Z.land 0x80 0x80) (Z.land region 0x3F)]
  :: data_transactions mode chipid buf (take (length buf mod 8) (mfe_region_points region))
  ++ Rec.TxWrite (cmdByte chipid 3) [Z.lor (Z.land 0x00 0xF8) (Z.land frame 0x7)]
  :: (if String.eqb mode "r" then [Rec.TxRead (cmdByte chipid 5) []] else []).

(** The chip object after the round of the detection loop that has read
    [r], under the corrective functions [us]: [r] is the last read, and
    when it differs from the reference the pair of reads is stored, the
    two records are printed and the corrective functions have run, in list
    order, each on the state the one before it left. *)
Definition corrected {T : Type} (us : list (M (state T) unit)) (loc : locals) (r : list Z)
           (st : state T) : state T :=
  match first_diff (reference loc) r 0 with
  | Some _ =>
      foldl (fun s u => (u s).2)
            (reported loc (count_ones (reference loc)) (count_ones r) (with_lastRead r st)) us
  | None => with_lastRead r st
  end.

(** The chip object after [k] rounds over a prepared sequence of reads,
    all compared with [ref]; [c] is the number of rounds before them. *)
Fixpoint polled (us : list (M (state (list (list Z))) unit)) (ref : list Z) (c : Z) (k : nat)
         (st : state (list (list Z))) : state (list (list Z)) :=
  match k, dev st with
  | S k', r :: rest =>
      polled us ref (c + 1) k' (corrected us (Locals ref (c + 1)) r (with_dev rest st))
  | _, _ => st
  end.

(** * Properties *)

(** ** The transaction codec *)

Section Codec.

Lemma CMDID_spec (name : string) (c : Z) :
  CMDID !! name = Some c <-> (name, c) ∈ (fun p : Z * string => (p.2, p.1)) <$> cmdIds.
Proof.
  unfold CMDID. symmetry. apply elem_of_list_to_map.
  apply (bool_decide_unpack _). by vm_compute.
Qed.

Lemma CMDID_cases (name : string) (c : Z) :
  CMDID !! name = Some c ->
  (name, c) ∈ [("INSTR", 1); ("ADD_MSB", 2); ("ADD_LSB", 3); ("WR", 4); ("RD", 5);
               ("WR_IND", 6); ("RD_IND", 7); ("WR_OFF", 8); ("RD_OFF", 9)]%string.
Proof. intros Hc. by apply CMDID_spec in Hc. Qed.

Lemma CMDID_range (name : string) (c : Z) : CMDID !! name = Some c -> 1 <= c <= 9.
Proof.
  intros Hc%CMDID_cases.
  repeat (apply elem_of_cons in Hc as [Hc|Hc]; [injection Hc as -> ->; lia|]).
  by apply elem_of_nil in Hc.
Qed.

Lemma CMDID_known (name : string) :
  name ∈ command_names -> exists c, CMDID !! name = Some c.
Proof.
  intros Hn. unfold command_names in Hn. cbn in Hn.
  repeat (apply elem_of_cons in Hn as [->|Hn]; [eexists; reflexivity|]).
  by apply elem_of_nil in Hn.
Qed.

Lemma CMDID_unknown (name : string) :
  name ∉ command_names -> CMDID !! name = None.
Proof.
  intros Hn. destruct (CMDID !! name) as [c|] eqn:Hc; [|done].
  exfalso. apply Hn. apply CMDID_cases in Hc.
  repeat (apply elem_of_cons in Hc as [Hc|Hc];
          [injection Hc as -> ->; vm_compute; set_solver|]).
  by apply elem_of_nil in Hc.
Qed.

(** The low four bits of a header byte are those of the command code. *)
Lemma cmdByte_low (chipid c : Z) : Z.land (cmdByte chipid c) 0xF = Z.land c 0xF.
Proof.
  unfold cmdByte. change 0xF with (Z.ones 4).
  apply Z.bits_inj'. intros n Hn.
  rewrite !Z.land_spec, Z.lor_spec, Z.land_spec.
  destruct (Z.ltb_spec n 4) as [Hlt|Hge].
  - rewrite Z.shiftl_spec_low by lia. rewrite Z.ones_spec_low by lia.
    cbn. by rewrite andb_true_r.
  - rewrite Z.ones_spec_high by lia. by rewrite !andb_false_r.
Qed.

(** Bits 6..4 of a header byte are the low three bits of the chip id. *)
Lemma cmdByte_high (chipid c : Z) :
  Z.land (Z.shiftr (cmdByte chipid c) 4) 0x7 = Z.land chipid 0x7.
Proof.
  unfold cmdByte. change 0xF with (Z.ones 4). change 0x7 with (Z.ones 3).
  apply Z.bits_inj'. intros n Hn.
  rewrite !Z.land_spec, Z.shiftr_spec, Z.lor_spec, Z.land_spec by lia.
  rewrite Z.shiftl_spec by lia. replace (n + 4 - 4) with n by lia.
  rewrite Z.land_spec. rewrite (Z.ones_spec_high 4 (n + 4)) by lia.
  cbn. rewrite orb_false_r.
  destruct (Z.testbit (Z.ones 3) n); cbn; [by rewrite andb_true_r | by rewrite !andb_false_r].
Qed.

Lemma cmdByte_mod8 (chipid c : Z) : cmdByte (chipid `mod` 8) c = cmdByte chipid c.
Proof.
  unfold cmdByte. f_equal. f_equal.
  change 8 with (2 ^ 3). rewrite <- Z.land_ones by lia.
  rewrite (Z.land_comm chipid), Z.land_assoc. reflexivity.
Qed.

Lemma cmdByte_range (chipid c : Z) : 0 <= cmdByte chipid c < 128.
Proof.
  assert (Hb : forall n, 7 <= n -> Z.testbit (cmdByte chipid c) n = false).
  { intros n Hn. unfold cmdByte.
    change 0xF with (Z.ones 4). change 0x7 with (Z.ones 3).
    rewrite Z.lor_spec, Z.land_spec, Z.shiftl_spec, Z.land_spec by lia.
    rewrite Z.ones_spec_high by lia. rewrite Z.ones_spec_high by lia. done. }
  assert (Hnn : 0 <= cmdByte chipid c).
  { apply Z.bits_iff_nonneg_ex. exists 6. intros m Hm. apply Hb. lia. }
  split; [done|].
  destruct (Z.eq_dec (cmdByte chipid c) 0) as [->|Hne]; [lia|].
  assert (Hlog : Z.log2 (cmdByte chipid c) < 7).
  { destruct (Z.lt_ge_cases (Z.log2 (cmdByte chipid c)) 7) as [|Hge]; [done|].
    assert (Hpos : 0 < cmdByte chipid c) by lia.
    pose proof (Z.bit_log2 _ Hpos) as Hbit.
    rewrite Hb in Hbit by lia. done. }
  apply Z.log2_lt_pow2 in Hlog; lia.
Qed.

(** Two commands with different codes below 16 have different header
    bytes, whatever the chip id. *)
Lemma cmdByte_cmd_inj (chipid a b : Z) :
  0 <= a < 16 -> 0 <= b < 16 -> cmdByte chipid a = cmdByte chipid b -> a = b.
Proof.
  intros Ha Hb Heq.
  apply (f_equal (fun x => Z.land x 0xF)) in Heq. rewrite !cmdByte_low in Heq.
  change 0xF with (Z.ones 4) in Heq. rewrite !Z.land_ones in Heq by lia.
  rewrite !Z.mod_small in Heq by lia. done.
Qed.

End Codec.

(** C8.  For every chip id in 1..7 and every command code in 1..9 (the
    codes of the command set), the header byte is
    [(chipId & 0b111) << 4 | (commandCode & 0b1111)]; bits 6..4 and 3..0 of
    the byte give back the chip id and the code; and two header bytes over
    this domain are equal only for the same chip id and the same command. *)
Theorem getCmdByte_injective_decodable (chipid c : Z) :
  1 <= chipid <= 7 -> 1 <= c <= 9 ->
  (exists name, CMDID !! name = Some c) /\
  (forall name, CMDID !! name = Some c ->
     getCmdByte chipid name
     = Ok (Z.lor (Z.shiftl (Z.land chipid 0x7) 4) (Z.land c 0xF))) /\
  Z.land (Z.shiftr (cmdByte chipid c) 4) 0x7 = chipid /\
  Z.land (cmdByte chipid c) 0xF = c /\
  (forall chipid' name name',
     1 <= chipid' <= 7 -> CMDID !! name = Some c ->
     is_Some (CMDID !! name') ->
     getCmdByte chipid name = getCmdByte chipid' name' ->
     chipid = chipid' /\ name = name').
Proof.
  intros Hid Hc.
  assert (Hhi : forall i k, 1 <= i <= 7 -> Z.land (Z.shiftr (cmdByte i k) 4) 0x7 = i).
  { intros i k Hi. rewrite cmdByte_high. change 0x7 with (Z.ones 3).
    rewrite Z.land_ones by lia. apply Z.mod_small. lia. }
  assert (Hlo : forall i k, 1 <= k <= 9 -> Z.land (cmdByte i k) 0xF = k).
  { intros i k Hk. rewrite cmdByte_low. change 0xF with (Z.ones 4).
    rewrite Z.land_ones by lia. apply Z.mod_small. lia. }
  split; [|split; [|split; [|split]]].
  - assert (Hcs : c = 1 \/ c = 2 \/ c = 3 \/ c = 4 \/ c = 5 \/ c = 6 \/ c = 7 \/ c = 8 \/ c = 9)
      by lia.
    destruct Hcs as [->|[->|[->|[->|[->|[->|[->|[->| ->]]]]]]]].
    + by exists "INSTR"%string.
    + by exists "ADD_MSB"%string.
    + by exists "ADD_LSB"%string.
    + by exists "WR"%string.
    + by exists "RD"%string.
    + by exists "WR_IND"%string.
    + by exists "RD_IND"%string.
    + by exists "WR_OFF"%string.
    + by exists "RD_OFF"%string.
  - intros name Hname. unfold getCmdByte. rewrite Hname. unfold cmdByte.
    by rewrite (Z.land_comm chipid), (Z.land_comm c).
  - by apply Hhi.
  - by apply Hlo.
  - intros chipid' name name' Hid' Hname [c' Hname'] Heq.
    unfold getCmdByte in Heq. rewrite Hname, Hname' in Heq.
    injection Heq as Heq.
    pose proof (CMDID_range _ _ Hname') as Hc'.
    assert (chipid = chipid') as <-.
    { rewrite <- (Hhi chipid c Hid), <- (Hhi chipid' c' Hid'). by rewrite Heq. }
    assert (c = c') as <-.
    { rewrite <- (Hlo chipid c Hc), <- (Hlo chipid c' Hc'). by rewrite Heq. }
    split; [done|].
    apply CMDID_cases in Hname, Hname'.
    repeat (apply elem_of_cons in Hname as [Hname|Hname];
            [injection Hname as -> ->;
             repeat (apply elem_of_cons in Hname' as [Hname'|Hname'];
                     [by injection Hname' as ->|]);
             by apply elem_of_nil in Hname'|]).
    by apply elem_of_nil in Hname.
Qed.

Lemma getCmdByte_injective_decodable_witness :
  Z.land (Z.shiftr (cmdByte 5 4) 4) 0x7 = 5 /\ Z.land (cmdByte 5 4) 0xF = 4.
Proof.
  pose proof (getCmdByte_injective_decodable 5 4 ltac:(lia) ltac:(lia)) as H.
  exact (conj (proj1 (proj2 (proj2 H))) (proj1 (proj2 (proj2 (proj2 H))))).
Defined.

(** C9, as the code has it.  [getCmdByte] raises [KeyError] for every
    command name outside the command set.  For a name of the set it returns
    a byte for every chip id: the id is masked to its low three bits, not
    checked against 1..7. *)
Theorem getCmdByte_rejects_only_unknown_commands (chipid : Z) (name : string) :
  (name ∉ command_names -> getCmdByte chipid name = Raise KeyError) /\
  (name ∈ command_names ->
     exists b, getCmdByte chipid name = Ok b /\
               getCmdByte (chipid `mod` 8) name = Ok b /\ 0 <= b < 128).
Proof.
  split.
  - intros Hn. unfold getCmdByte. by rewrite (CMDID_unknown name Hn).
  - intros [c Hc]%CMDID_known. exists (cmdByte chipid c).
    unfold getCmdByte. rewrite Hc, cmdByte_mod8.
    split; [done|]. split; [done|]. apply cmdByte_range.
Qed.

Lemma getCmdByte_rejects_only_unknown_commands_witness :
  getCmdByte 3 "NOP" = Raise KeyError /\
  exists b, getCmdByte 12 "RD" = Ok b /\ getCmdByte (12 `mod` 8) "RD" = Ok b /\ 0 <= b < 128.
Proof.
  split.
  - apply (proj1 (getCmdByte_rejects_only_unknown_commands 3 "NOP")).
    apply (bool_decide_unpack _). by vm_compute.
  - apply (proj2 (getCmdByte_rejects_only_unknown_commands 12 "RD")).
    apply (bool_decide_unpack _). by vm_compute.
Defined.

(** C9, as stated, fails: chip id 9 is outside 1..7, and [getCmdByte]
    returns the header byte of chip id 1 for it. *)
Lemma getCmdByte_accepts_chipid_9 :
  getCmdByte 9 "RD" = Ok 0x15 /\ getCmdByte 9 "RD" = getCmdByte 1 "RD" /\
  ~ (exists e, getCmdByte 9 "RD" = Raise e).
Proof.
  split; [reflexivity|]. split; [reflexivity|].
  intros [e He]. vm_compute in He. discriminate He.
Qed.

(** ** The recording transport *)

(** C1, evaluated on the code.  [readMon] selects row [0x00] and then the
    columns [0x40 | i] of the DAC block, one RD after each: it is the
    transaction sequence of [readDAC], and not the one of the Mon block,
    whose base column is [0xE0]. *)
Theorem readMon_addresses_DAC_block (chipid : Z) (rnd : nat -> Z) :
  let st := init chipid ([] : Rec.log) rnd in
  dev (readMon st).2 = read_transactions chipid 0x00 0x40 15 /\
  readMon st = readDAC st /\
  dev (readMon st).2 <> read_transactions chipid 0x00 0xE0 15.
Proof.
  cbv zeta. split; [|split].
  - vm_compute. reflexivity.
  - reflexivity.
  - intros Heq.
    assert (Hnth : dev (readMon (init chipid ([] : Rec.log) rnd)).2 !! 1%nat
                   = read_transactions chipid 0x00 0xE0 15 !! 1%nat) by (by rewrite Heq).
    vm_compute in Hnth. discriminate Hnth.
Qed.

(** ** The simulated device *)

Section SimDevice.

Import Sim.

Lemma getCmdByte_ADD_MSB (chipid : Z) : getCmdByte chipid "ADD_MSB" = Ok (cmdByte chipid 2).
Proof. reflexivity. Qed.
Lemma getCmdByte_ADD_LSB (chipid : Z) : getCmdByte chipid "ADD_LSB" = Ok (cmdByte chipid 3).
Proof. reflexivity. Qed.
Lemma getCmdByte_WR (chipid : Z) : getCmdByte chipid "WR" = Ok (cmdByte chipid 4).
Proof. reflexivity. Qed.
Lemma getCmdByte_RD (chipid : Z) : getCmdByte chipid "RD" = Ok (cmdByte chipid 5).
Proof. reflexivity. Qed.

Lemma cmdByte_eqb_ne (chipid a b : Z) :
  0 <= a < 16 -> 0 <= b < 16 -> a <> b -> (cmdByte chipid a =? cmdByte chipid b) = false.
Proof.
  intros Ha Hb Hab. apply Z.eqb_neq. intros Heq. apply Hab.
  by apply (cmdByte_cmd_inj chipid).
Qed.

Lemma writeSim_ADD_MSB (chipid v : Z) (d : device) :
  writeSim chipid (cmdByte chipid 2) [v] d
  = (Ok 1, Device (simRegs d) (Some v) (simAddrLSB d)).
Proof.
  unfold writeSim. rewrite getCmdByte_ADD_LSB, getCmdByte_ADD_MSB.
  rewrite (cmdByte_eqb_ne chipid 2 3) by lia. rewrite Z.eqb_refl. reflexivity.
Qed.

Lemma writeSim_ADD_LSB (chipid v : Z) (d : device) :
  writeSim chipid (cmdByte chipid 3) [v] d
  = (Ok 1, Device (simRegs d) (simAddrMSB d) (Some v)).
Proof.
  unfold writeSim. rewrite getCmdByte_ADD_LSB. rewrite Z.eqb_refl. reflexivity.
Qed.

Lemma writeSim_WR (chipid : Z) (args : list Z) (d : device) :
  writeSim chipid (cmdByte chipid 4) args d
  = match store_cell d args with
    | Raise e => (Raise e, d)
    | Ok d' => (Ok (Z.of_nat (length args)), d')
    end.
Proof.
  unfold writeSim. rewrite getCmdByte_ADD_LSB, getCmdByte_ADD_MSB, getCmdByte_WR.
  rewrite (cmdByte_eqb_ne chipid 4 3), (cmdByte_eqb_ne chipid 4 2) by lia.
  rewrite Z.eqb_refl. cbn. by destruct args.
Qed.

Lemma readSim_RD (chipid : Z) (d : device) :
  readSim chipid (cmdByte chipid 5) [] d
  = match load_cell d with
    | Raise e => (Raise e, d)
    | Ok reg => match getitem reg 0 with
                | Raise e => (Raise e, d)
                | Ok b => (Ok (VInt b), d)
                end
    end.
Proof. unfold readSim. rewrite getCmdByte_RD, Z.eqb_refl. reflexivity. Qed.

(** No read changes the device. *)
Lemma readSim_state (chipid addr : Z) (args : list pyarg) (d : device) :
  (readSim chipid addr args d).2 = d.
Proof.
  unfold readSim. destruct (getCmdByte chipid "RD") as [c|e]; [|done].
  destruct (addr =? c); [|done].
  destruct (load_cell d) as [reg|e]; [|done].
  destruct (read_length args =? 1)%nat; [|done].
  by destruct (getitem reg 0).
Qed.

(** A selector that is not set stays so under every transaction but the
    one that sets it. *)
Lemma sim_exec_msb_unset (chipid : Z) (t : Rec.txn) (d : device) :
  selects chipid 2 t = false -> simAddrMSB d = None ->
  simAddrMSB (sim_exec chipid d t) = None.
Proof.
  intros Hsel Hd. destruct t as [addr args|addr args]; cbn [sim_exec].
  - assert (Hwr : forall d0 : device, simAddrMSB d0 = None ->
              simAddrMSB (if addr =? cmdByte chipid 4
                          then match store_cell d0 args with
                               | Raise e => (Raise e, d0)
                               | Ok d' => (Ok (Z.of_nat (length args)), d')
                               end
                          else (Ok (Z.of_nat (length args)), d0)).2 = None).
    { intros d0 Hd0. destruct (addr =? cmdByte chipid 4); [|done].
      unfold store_cell. by rewrite Hd0. }
    unfold writeSim. rewrite getCmdByte_ADD_LSB, getCmdByte_ADD_MSB, getCmdByte_WR.
    destruct args as [|a0 [|a1 args]]; cbn [length Nat.eqb selects] in *.
    + rewrite !andb_false_r. by apply Hwr.
    + rewrite !andb_true_r, Hsel. destruct (addr =? cmdByte chipid 3); [done|].
      by apply Hwr.
    + rewrite !andb_false_r. by apply Hwr.
  - by rewrite readSim_state.
Qed.

Lemma sim_exec_lsb_unset (chipid : Z) (t : Rec.txn) (d : device) :
  selects chipid 3 t = false -> simAddrLSB d = None ->
  simAddrLSB (sim_exec chipid d t) = None.
Proof.
  intros Hsel Hd. destruct t as [addr args|addr args]; cbn [sim_exec].
  - assert (Hwr : forall d0 : device, simAddrLSB d0 = None ->
              simAddrLSB (if addr =? cmdByte chipid 4
                          then match store_cell d0 args with
                               | Raise e => (Raise e, d0)
                               | Ok d' => (Ok (Z.of_nat (length args)), d')
                               end
                          else (Ok (Z.of_nat (length args)), d0)).2 = None).
    { intros d0 Hd0. destruct (addr =? cmdByte chipid 4); [|done].
      unfold store_cell. destruct (attr (simAddrMSB d0)) as [msb|e]; [|done].
      destruct (index _ msb) as [r|]; [|done].
      destruct (simRegs d0 !! r) as [row|]; [|done].
      by rewrite Hd0. }
    unfold writeSim. rewrite getCmdByte_ADD_LSB, getCmdByte_ADD_MSB, getCmdByte_WR.
    destruct args as [|a0 [|a1 args]]; cbn [length Nat.eqb selects] in *.
    + rewrite !andb_false_r. by apply Hwr.
    + rewrite !andb_true_r, Hsel. destruct (addr =? cmdByte chipid 2); [done|].
      by apply Hwr.
    + rewrite !andb_false_r. by apply Hwr.
  - by rewrite readSim_state.
Qed.

Lemma sim_run_unset (chipid : Z) (ts : list Rec.txn) (d : device) :
  (forallb (fun t => negb (selects chipid 2 t)) ts = true /\ simAddrMSB d = None) \/
  (forallb (fun t => negb (selects chipid 3 t)) ts = true /\ simAddrLSB d = None) ->
  simAddrMSB (sim_run chipid ts d) = None \/ simAddrLSB (sim_run chipid ts d) = None.
Proof.
  revert d. induction ts as [|t ts IH]; intros d Hd; cbn.
  - destruct Hd as [[_ Hd]|[_ Hd]]; [by left|by right].
  - apply IH. destruct Hd as [[Hts Hd]|[Hts Hd]]; cbn in Hts;
      apply andb_prop in Hts as [Ht Hts]; apply negb_true_iff in Ht.
    + left. split; [done|]. by apply sim_exec_msb_unset.
    + right. split; [done|]. by apply sim_exec_lsb_unset.
Qed.

Lemma store_cell_unset (d : device) (args : list Z) :
  simAddrMSB d = None \/ simAddrLSB d = None -> exists e, store_cell d args = Raise e.
Proof.
  intros Hd. unfold store_cell.
  destruct (simAddrMSB d) as [msb|]; cbn; [|by eexists].
  destruct (index _ msb) as [r|]; [|by eexists].
  destruct (simRegs d !! r) as [row|]; [|by eexists].
  destruct Hd as [Hd|Hd]; [done|]. rewrite Hd. by eexists.
Qed.

Lemma load_cell_unset (d : device) :
  simAddrMSB d = None \/ simAddrLSB d = None -> exists e, load_cell d = Raise e.
Proof.
  intros Hd. unfold load_cell.
  destruct (simAddrMSB d) as [msb|]; cbn; [|by eexists].
  destruct (getitem (simRegs d) msb) as [row|e]; [|by eexists].
  destruct Hd as [Hd|Hd]; [done|]. rewrite Hd. by eexists.
Qed.

End SimDevice.

(** C10.  On a freshly constructed simulated device, and after any
    transactions among which no ADD_MSB with one payload byte, or no
    ADD_LSB with one payload byte, has been issued, a WR and a RD
    transaction raise an exception and leave the device as it was; on the
    fresh device itself the exception is [AttributeError], the selector
    attributes not existing yet. *)
Theorem sim_data_transaction_needs_selectors
        (chipid : Z) (ts : list Rec.txn) (args : list Z) (rargs : list pyarg) :
  forallb (fun t => negb (selects chipid 2 t)) ts = true \/
  forallb (fun t => negb (selects chipid 3 t)) ts = true ->
  let d := sim_run chipid ts Sim.fresh in
  (exists e, Sim.writeSim chipid (cmdByte chipid 4) args d = (Raise e, d)) /\
  (exists e, Sim.readSim chipid (cmdByte chipid 5) rargs d = (Raise e, d)) /\
  Sim.writeSim chipid (cmdByte chipid 4) args Sim.fresh = (Raise AttributeError, Sim.fresh) /\
  Sim.readSim chipid (cmdByte chipid 5) rargs Sim.fresh = (Raise AttributeError, Sim.fresh).
Proof.
  intros Hts d.
  assert (Hd : Sim.simAddrMSB d = None \/ Sim.simAddrLSB d = None).
  { apply sim_run_unset. destruct Hts as [Hts|Hts]; [left|right]; by split. }
  split; [|split; [|split]].
  - rewrite writeSim_WR. destruct (store_cell_unset d args Hd) as [e ->]. by exists e.
  - unfold Sim.readSim. rewrite getCmdByte_RD, Z.eqb_refl.
    destruct (load_cell_unset d Hd) as [e ->]. by exists e.
  - by rewrite writeSim_WR.
  - unfold Sim.readSim. by rewrite getCmdByte_RD, Z.eqb_refl.
Qed.

Lemma sim_data_transaction_needs_selectors_witness :
  let d := sim_run 1 [Rec.TxWrite 0x12 [0x80]; Rec.TxRead 0x15 []] Sim.fresh in
  (exists e, Sim.writeSim 1 (cmdByte 1 4) [0x55] d = (Raise e, d)) /\
  (exists e, Sim.readSim 1 (cmdByte 1 5) [] d = (Raise e, d)).
Proof.
  pose proof (sim_data_transaction_needs_selectors
                1 [Rec.TxWrite 0x12 [0x80]; Rec.TxRead 0x15 []] [0x55] []
                (or_intror eq_refl)) as H.
  exact (conj (proj1 H) (proj1 (proj2 H))).
Defined.

Section Recording.

Lemma extends_refl st : extends st st.
Proof. by split. Qed.

Lemma extends_trans st1 st2 st3 : extends st1 st2 -> extends st2 st3 -> extends st1 st3.
Proof. intros [H1 H2] [H3 H4]. split; [congruence|by etrans]. Qed.

Lemma grows_ret {A} (a : A) : grows (ret a).
Proof. intros st. apply extends_refl. Qed.

Lemma grows_raise {A} (e : exn) : grows (@raise _ A e).
Proof. intros st. apply extends_refl. Qed.

Lemma grows_lift_res {A} (r : res A) : grows (lift_res r).
Proof. intros st. apply extends_refl. Qed.

Lemma bind_extends {A B} (m : M (state Rec.log) A) (k : A -> M (state Rec.log) B) st :
  (forall a, grows (k a)) -> extends (m st).2 (bind m k st).2.
Proof.
  intros Hk. unfold bind. destruct (m st) as [[a|e] st']; cbn.
  - apply Hk.
  - apply extends_refl.
Qed.

Lemma grows_bind {A B} (m : M (state Rec.log) A) (k : A -> M (state Rec.log) B) :
  grows m -> (forall a, grows (k a)) -> grows (bind m k).
Proof.
  intros Hm Hk st. eapply extends_trans; [apply Hm|]. by apply bind_extends.
Qed.

Lemma grows_for_each {A X} (xs : list X) (body : X -> A -> M (state Rec.log) A) acc :
  (forall x a, grows (body x a)) -> grows (for_each xs body acc).
Proof.
  intros Hb. revert acc. induction xs as [|x xs IH]; intros acc; cbn.
  - apply grows_ret.
  - apply grows_bind; [apply Hb|apply IH].
Qed.

Lemma grows_cmd name : grows (cmd name).
Proof. intros st. apply extends_refl. Qed.

Lemma grows_addrs type : grows (addrs type).
Proof. unfold addrs. destruct (ADDRS !! type); [apply grows_ret|apply grows_raise]. Qed.

Lemma grows_write addr args : grows (write addr args).
Proof. intros st. split; [done|]. cbn. by apply prefix_app_r. Qed.

Lemma grows_randint a b : grows (@randint Rec.log a b).
Proof. intros st. by split. Qed.

Lemma grows_read addr args : grows (read addr args).
Proof.
  unfold read. apply grows_bind.
  - intros st. split; [done|]. cbn. by apply prefix_app_r.
  - intros result. apply grows_bind; [intros st; apply extends_refl|].
    intros [|].
    + apply grows_bind; [apply grows_randint|]. intros r.
      destruct (r =? 0); [|apply grows_ret].
      apply grows_bind; [apply grows_randint|]. intros k.
      destruct result; [apply grows_ret|apply grows_raise].
    + apply grows_ret.
Qed.

Lemma grows_buf_set buf i v : grows (buf_set buf i v).
Proof.
  unfold buf_set. destruct (index _ i); [|apply grows_raise].
  destruct v as [z|l]; [|apply grows_raise].
  destruct (is_byte z); [apply grows_ret|apply grows_raise].
Qed.

Lemma grows_rw_byte mode lsb k buf : grows (rw_byte mode lsb k buf).
Proof.
  unfold rw_byte. apply grows_bind; [apply grows_cmd|]. intros c.
  apply grows_bind; [apply grows_write|]. intros _.
  destruct (String.eqb mode "r").
  - apply grows_bind; [apply grows_cmd|]. intros c'.
    apply grows_bind; [apply grows_read|]. intros v. apply grows_buf_set.
  - apply grows_bind; [apply grows_lift_res|]. intros b.
    apply grows_bind; [apply grows_cmd|]. intros c'.
    apply grows_bind; [apply grows_write|]. intros _. apply grows_ret.
Qed.

(** Whatever the buffer, [rwMFE] starts by selecting row [0x80] and
    column [0x00]. *)
Lemma rwMFE_first_transactions (st : state Rec.log) (buf : list Z) (mode : string) :
  extends (with_dev (dev st ++ [Rec.TxWrite (cmdByte (chipid st) 2) [0x80];
                                Rec.TxWrite (cmdByte (chipid st) 3) [0x00]]) st)
          (rwMFE buf mode st).2.
Proof.
  set (inner := fun region frame acc' =>
                  let* a0 := @addrs Rec.log "MFE" in
                  rw_byte mode (Z.lor (Z.land a0.2 248) (Z.land frame 7))
                          (region * 8 + frame) acc').
  set (body := fun region acc =>
                 let* a := @addrs Rec.log "MFE" in
                 let* c := cmd "ADD_MSB" in
                 write c [Z.lor (Z.land a.1 128) (Z.land region 63)] >>
                 for_each (range 8) (inner region) acc).
  assert (Hinner : forall region frame acc', grows (inner region frame acc')).
  { intros. apply grows_bind; [apply grows_addrs|]. intros a. apply grows_rw_byte. }
  assert (Hbody : forall region acc, grows (body region acc)).
  { intros. apply grows_bind; [apply grows_addrs|]. intros a.
    apply grows_bind; [apply grows_cmd|]. intros c.
    apply grows_bind; [apply grows_write|]. intros _.
    by apply grows_for_each. }
  set (st1 := with_dev (dev st ++ [Rec.TxWrite (cmdByte (chipid st) 2) [0x80]]) st).
  set (st2 := with_dev (dev st1 ++ [Rec.TxWrite (cmdByte (chipid st) 3) [0x00]]) st1).
  set (rest := fun (_ : Z) =>
                 if String.eqb mode "r"
                 then let* c := @cmd Rec.log "RD" in
                      let* v := read c [] in buf_set buf (0 * 8 + 0) v
                 else let* writeByte := buf_get buf (0 * 8 + 0) in
                      let* c := cmd "WR" in
                      write c [writeByte] >> ret buf).
  assert (Hrest : grows (rest 1)).
  { unfold rest. destruct (String.eqb mode "r").
    - apply grows_bind; [apply grows_cmd|]. intros c'.
      apply grows_bind; [apply grows_read|]. intros v. apply grows_buf_set.
    - apply grows_bind; [apply grows_lift_res|]. intros b.
      apply grows_bind; [apply grows_cmd|]. intros c'.
      apply grows_bind; [apply grows_write|]. intros _. apply grows_ret. }
  assert (Hstep : inner 0 0 buf st1 = rest 1 st2) by reflexivity.
  assert (Hloop : body 0 buf st
                  = bind (inner 0 0 buf) (for_each (Z.of_nat <$> seq 1 7) (inner 0)) st1)
    by reflexivity.
  assert (Hall : rwMFE buf mode st
                 = bind (bind (body 0 buf) (for_each (Z.of_nat <$> seq 1 63) body))
                        (fun b' => ret (RLen (length b'), b')) st)
    by reflexivity.
  rewrite Hall.
  eapply extends_trans; [|apply bind_extends; intros; apply grows_ret].
  eapply extends_trans; [|apply bind_extends; intros; by apply grows_for_each].
  rewrite Hloop.
  eapply extends_trans; [|apply bind_extends; intros; by apply grows_for_each].
  rewrite Hstep. replace st2 with
    (with_dev (dev st ++ [Rec.TxWrite (cmdByte (chipid st) 2) [0x80];
                          Rec.TxWrite (cmdByte (chipid st) 3) [0x00]]) st).
  - apply Hrest.
  - unfold st2, st1, with_dev. cbn. by rewrite <- app_assoc.
Qed.

End Recording.

(** C5, as stated, fails for MFE: a buffer one byte short of the block is
    not tolerated.  In write mode 64 ADD_MSB, 512 ADD_LSB and 511 WR
    transactions are issued, and then the missing byte raises
    [IndexError]. *)
Example rwMFE_one_byte_short :
  let r := rwMFE (bytearray 511) "w" (init 1 ([] : Rec.log) (fun _ => 0)) in
  r.1 = Raise IndexError /\ length (dev r.2) = 1087%nat.
Proof. vm_compute. done. Qed.

(** ** Simulated read corruption *)

(** The mask [(result << k) & 0x80] is bit 7 when bit [7 - k] of the
    result is set, and zero otherwise. *)
Lemma flip_mask (z k : Z) :
  0 <= k -> Z.land (Z.shiftl z k) 0x80 = if Z.testbit z (7 - k) then 0x80 else 0.
Proof.
  intros Hk. apply Z.bits_inj'. intros n Hn.
  rewrite Z.land_spec, Z.shiftl_spec by lia.
  change 0x80 with (2 ^ 7). rewrite Z.pow2_bits_eqb by lia.
  destruct (Z.eqb_spec 7 n) as [<-|Hne].
  - rewrite andb_true_r. destruct (Z.testbit z (7 - k)).
    + by rewrite Z.pow2_bits_eqb by lia.
    + by rewrite Z.bits_0.
  - rewrite andb_false_r. destruct (Z.testbit z (7 - k)).
    + rewrite Z.pow2_bits_eqb by lia. symmetry. by apply Z.eqb_neq.
    + by rewrite Z.bits_0.
Qed.

(** C3, evaluated on the code.  With read corruption enabled and a
    transport that returns the byte [b]: when the first draw does not
    trigger, [read] returns [b]; when it triggers and the second draw is
    [k], [read] returns [b] with bit 7 inverted if bit [7 - k] of [b] is
    set, and [b] itself otherwise.  Bits 0..6 are never changed, so the
    byte does not differ from [b] in exactly bit [k]. *)
Theorem read_flip_changes_only_bit7
        {T : Type} {tr : Transport T} (st : state T)
        (addr : Z) (args : list pyarg) (b : Z) (d' : T) :
  chipread (chipid st) addr args (dev st) = (Ok (VInt b), d') ->
  simReadFlip st = true ->
  let trigger := entropy st (draws st) `mod` 1000 in
  let k := entropy st (S (draws st)) `mod` 8 in
  let b' := if Z.testbit b (7 - k) then Z.lxor b 0x80 else b in
  (trigger <> 0 -> (read addr args st).1 = Ok (VInt b)) /\
  (trigger = 0 ->
     (read addr args st).1 = Ok (VInt b') /\
     forall j, 0 <= j -> j <> 7 -> Z.testbit b' j = Z.testbit b j).
Proof.
  intros Hrd Hflip trigger k b'.
  assert (Hk : 0 <= k) by (unfold k; pose proof (Z.mod_pos_bound (entropy st (S (draws st))) 8); lia).
  assert (Hread : read addr args st
                  = (if trigger =? 0
                     then Ok (VInt (Z.lxor b (Z.land (Z.shiftl b k) 0x80)))
                     else Ok (VInt b),
                     if trigger =? 0
                     then with_draws (S (S (draws st))) (with_dev d' st)
                     else with_draws (S (draws st)) (with_dev d' st))).
  { unfold read, bind, on_dev, gets, randint. rewrite Hrd. cbn. rewrite Hflip.
    change (0 + entropy (with_dev d' st) (draws (with_dev d' st)) `mod` (999 - 0 + 1))
      with trigger.
    by destruct (trigger =? 0). }
  rewrite Hread. split.
  - intros Htr. apply Z.eqb_neq in Htr. by rewrite Htr.
  - intros Htr. rewrite Htr. cbn [fst Z.eqb]. split.
    + rewrite flip_mask by done.
      unfold b'. destruct (Z.testbit b (7 - k)); [done|]. by rewrite Z.lxor_0_r.
    + intros j Hj Hne. unfold b'. destruct (Z.testbit b (7 - k)); [|done].
      rewrite Z.lxor_spec. change 0x80 with (2 ^ 7). rewrite Z.pow2_bits_eqb by lia.
      assert ((7 =? j) = false) as -> by (apply Z.eqb_neq; lia).
      by rewrite xorb_false_r.
Qed.

Lemma read_flip_changes_only_bit7_witness :
  let st := with_simReadFlip true (init 1 ([] : Rec.log) (fun n => match n with O => 0 | _ => 3 end)) in
  (read 0x15 [] st).1 = Ok (VInt 0x00).
Proof.
  pose proof (read_flip_changes_only_bit7
                (with_simReadFlip true
                   (init 1 ([] : Rec.log) (fun n => match n with O => 0 | _ => 3 end)))
                0x15 [] 0x00 [Rec.TxRead 0x15 []] eq_refl eq_refl) as H.
  exact (proj1 (proj2 H eq_refl)).
Defined.

(** ** The beam position subscriber *)

Lemma index_in_range (n : nat) (i : Z) :
  0 <= i < Z.of_nat n -> index n i = Some (Z.to_nat i).
Proof.
  intros Hi. unfold index.
  assert ((0 <=? i) && (i <? Z.of_nat n) = true) as ->; [|done].
  apply andb_true_intro. split; [apply Z.leb_le|apply Z.ltb_lt]; lia.
Qed.

Lemma getitem_lookup {A : Type} (l : list A) (i : Z) (a : A) :
  0 <= i -> l !! Z.to_nat i = Some a -> getitem l i = Ok a.
Proof.
  intros Hi Hk. pose proof (lookup_lt_Some _ _ _ Hk) as Hlt.
  unfold getitem. rewrite index_in_range by lia. by rewrite Hk.
Qed.

Section SubscriberFacts.

Import Subscriber.

(** The lines of the specification's example give the snapshot
    (42, 10, 20). *)
Example read_two_lines :
  readScanPos 2 (Socket [("start_run 42" ++ LF)%string; ("pos 10 20" ++ LF)%string]
                        None None None)
  = (Running, Socket [] (Some 42) (Some 10) (Some 20)).
Proof. reflexivity. Qed.

Lemma read_msg_start_run (s : socket) (line : string) (rest : list string) :
  reader s = line :: rest -> line <> EmptyString ->
  split_space line !! 0%nat = Some "start_run"%string ->
  bad_field (split_space line) 1 ->
  read_msg s = (Raise ValueError, Socket rest (scanId s) (scan_x s) (scan_y s)).
Proof.
  intros Hr Hne Hw0 (w1 & Hw1 & Hbad).
  unfold read_msg, bind, readline, word, lift_res, int. rewrite Hr.
  apply String.eqb_neq in Hne. rewrite Hne.
  rewrite (getitem_lookup _ 0 _ ltac:(lia) Hw0). cbn [String.eqb Ascii.eqb Bool.eqb].
  rewrite (getitem_lookup _ 1 _ ltac:(lia) Hw1). by rewrite Hbad.
Qed.

Lemma read_msg_pos_first (s : socket) (line : string) (rest : list string) :
  reader s = line :: rest -> line <> EmptyString ->
  split_space line !! 0%nat = Some "pos"%string ->
  bad_field (split_space line) 1 ->
  read_msg s = (Raise ValueError, Socket rest (scanId s) (scan_x s) (scan_y s)).
Proof.
  intros Hr Hne Hw0 (w1 & Hw1 & Hbad).
  unfold read_msg, bind, readline, word, lift_res, int. rewrite Hr.
  apply String.eqb_neq in Hne. rewrite Hne.
  rewrite (getitem_lookup _ 0 _ ltac:(lia) Hw0). cbn [String.eqb Ascii.eqb Bool.eqb].
  rewrite (getitem_lookup _ 1 _ ltac:(lia) Hw1). by rewrite Hbad.
Qed.

Lemma read_msg_pos_second (s : socket) (line : string) (rest : list string)
      (w1 : string) (x : Z) :
  reader s = line :: rest -> line <> EmptyString ->
  split_space line !! 0%nat = Some "pos"%string ->
  split_space line !! 1%nat = Some w1 -> py_int w1 = Some x ->
  bad_field (split_space line) 2 ->
  read_msg s = (Raise ValueError, Socket rest (scanId s) (Some x) (scan_y s)).
Proof.
  intros Hr Hne Hw0 Hw1 Hx (w2 & Hw2 & Hbad).
  unfold read_msg, bind, readline, word, lift_res, int. rewrite Hr.
  apply String.eqb_neq in Hne. rewrite Hne.
  rewrite (getitem_lookup _ 0 _ ltac:(lia) Hw0). cbn [String.eqb Ascii.eqb Bool.eqb].
  rewrite (getitem_lookup _ 1 _ ltac:(lia) Hw1). rewrite Hx. cbn.
  rewrite (getitem_lookup _ 2 _ ltac:(lia) Hw2). by rewrite Hbad.
Qed.

End SubscriberFacts.

(** [int] refuses a literal of more than 4300 digits, and takes one of
    4300. *)
Example py_int_digit_limit :
  Subscriber.py_int (string_of_list_ascii (replicate 4301 "9"%char)) = None /\
  match Subscriber.py_int (string_of_list_ascii (replicate 4300 "9"%char)) with
  | Some n => 0 < n
  | None => False
  end.
Proof. split; [by vm_compute|]. vm_compute. reflexivity. Qed.

(** C2, as the code has it.  A line whose first word is [start_run] or
    [pos] and which has a numeric field that is not a number makes
    [read_msg] raise [ValueError].  The line is consumed, the scan id and
    y are as before, and x is as before when the first field is the bad
    one.  Nothing catches the error: the subscriber loop ends with it and
    reads no further line. *)
Theorem read_msg_malformed_number_raises
        (s : Subscriber.socket) (line : string) (rest : list string) :
  Subscriber.reader s = line :: rest -> line <> EmptyString ->
  let words := Subscriber.split_space line in
  (words !! 0%nat = Some "start_run"%string /\ bad_field words 1) \/
  (words !! 0%nat = Some "pos"%string /\ (bad_field words 1 \/ bad_field words 2)) ->
  exists s',
    Subscriber.read_msg s = (Raise ValueError, s') /\
    (forall fuel, Subscriber.readScanPos (S fuel) s = (Raised ValueError, s')) /\
    Subscriber.reader s' = rest /\
    Subscriber.scanId s' = Subscriber.scanId s /\
    Subscriber.scan_y s' = Subscriber.scan_y s /\
    (bad_field words 1 -> Subscriber.scan_x s' = Subscriber.scan_x s).
Proof.
  intros Hr Hne words Hbad.
  assert (Hloop : forall s', Subscriber.read_msg s = (Raise ValueError, s') ->
                             forall fuel, Subscriber.readScanPos (S fuel) s
                                          = (Raised ValueError, s')).
  { intros s' Hs' fuel. cbn [Subscriber.readScanPos]. by rewrite Hs'. }
  destruct (Subscriber.py_int (default EmptyString (words !! 1%nat))) as [x|] eqn:Hx.
  - (* the first field is a number: a [pos] line with a bad second field *)
    assert (Hnot1 : ~ bad_field words 1).
    { intros (w & Hw & Hnone). rewrite Hw in Hx. cbn in Hx. congruence. }
    destruct Hbad as [[_ Hb]|[Hw0 [Hb|Hb]]]; [done|done|].
    assert (exists w1, words !! 1%nat = Some w1) as [w1 Hw1].
    { destruct Hb as (w2 & Hw2 & _).
      apply lookup_lt_Some in Hw2.
      destruct (words !! 1%nat) as [w1|] eqn:Hw1; [by eexists|].
      apply lookup_ge_None in Hw1. lia. }
    rewrite Hw1 in Hx. cbn in Hx.
    eexists. split; [by eapply read_msg_pos_second|].
    split; [apply Hloop; by eapply read_msg_pos_second|].
    by repeat split.
  - (* the first field is not a number, or is missing *)
    assert (Hb1 : bad_field words 1).
    { destruct Hbad as [[_ Hb]|[_ [Hb|Hb]]]; [done|done|].
      destruct Hb as (w2 & Hw2 & _). apply lookup_lt_Some in Hw2.
      destruct (words !! 1%nat) as [w1|] eqn:Hw1.
      - exists w1. by split.
      - apply lookup_ge_None in Hw1. lia. }
    destruct Hbad as [[Hw0 _]|[Hw0 _]].
    + eexists. split; [by eapply read_msg_start_run|].
      split; [apply Hloop; by eapply read_msg_start_run|].
      by repeat split.
    + eexists. split; [by eapply read_msg_pos_first|].
      split; [apply Hloop; by eapply read_msg_pos_first|].
      by repeat split.
Qed.

Lemma read_msg_malformed_number_raises_witness :
  let s := Subscriber.Socket [("pos x y" ++ LF)%string; ("pos 30 40" ++ LF)%string]
                             (Some 42) (Some 10) (Some 20) in
  exists s',
    Subscriber.read_msg s = (Raise ValueError, s') /\
    Subscriber.reader s' = [("pos 30 40" ++ LF)%string] /\
    Subscriber.scanId s' = Some 42 /\ Subscriber.scan_y s' = Some 20.
Proof.
  destruct (read_msg_malformed_number_raises
              (Subscriber.Socket [("pos x y" ++ LF)%string; ("pos 30 40" ++ LF)%string]
                                 (Some 42) (Some 10) (Some 20))
              ("pos x y" ++ LF)%string [("pos 30 40" ++ LF)%string]
              eq_refl ltac:(discriminate)
              (or_intror (conj eq_refl (or_introl (ex_intro _ "x"%string (conj eq_refl eq_refl))))))
    as (s' & Hmsg & _ & Hrd & Hid & Hy & _).
  exists s'. by repeat split.
Defined.

(** C2, as stated, fails: after the snapshot (42, 10, 20) the line
    [pos x y] makes [read_msg] raise, the error leaves the subscriber loop,
    and the next line, [pos 30 40], is never read. *)
Lemma malformed_line_ends_subscriber :
  let s := Subscriber.Socket [("start_run 42" ++ LF)%string; ("pos 10 20" ++ LF)%string;
                              ("pos x y" ++ LF)%string; ("pos 30 40" ++ LF)%string]
                             None None None in
  Subscriber.readScanPos 4 s
  = (Raised ValueError,
     Subscriber.Socket [("pos 30 40" ++ LF)%string] (Some 42) (Some 10) (Some 20)) /\
  (forall fuel, (4 <= fuel)%nat -> (Subscriber.readScanPos fuel s).1 <> Running).
Proof.
  split; [reflexivity|].
  intros fuel Hfuel.
  do 4 (destruct fuel as [|fuel]; [lia|]). cbn. discriminate.
Qed.

(** ** The detection loop *)

Section Detection.

Context {T : Type}.
Implicit Types (st : state T) (loc : locals).

Lemma is_byte_range (b : Z) : is_byte b = true <-> 0 <= b < 256.
Proof. unfold is_byte. rewrite andb_true_iff, Z.leb_le, Z.ltb_lt. done. Qed.

Lemma bitcounts_lookup (b : Z) : is_byte b = true -> getitem bitcounts b = Ok (popcount b).
Proof.
  intros Hb%is_byte_range. apply getitem_lookup; [lia|].
  unfold bitcounts, range. rewrite !list_lookup_fmap.
  rewrite lookup_seq_lt; [|lia]. cbn [fmap option_fmap option_map Nat.add].
  by rewrite Z2Nat.id by lia.
Qed.

Lemma onesInBytes_from (l : list Z) (acc : Z) st :
  forallb is_byte l = true ->
  for_each l (fun byte counter =>
                let* n := @lift_res (state T) _ (getitem bitcounts byte) in ret (counter + n))
           acc st
  = (Ok (foldl (fun a b => a + popcount b) acc l), st).
Proof.
  revert acc. induction l as [|b l IH]; intros acc Hl; [done|].
  cbn in Hl. apply andb_prop in Hl as [Hb Hl].
  cbn [for_each foldl]. unfold bind at 1, lift_res at 1, bind at 1.
  rewrite (bitcounts_lookup b Hb). cbn. by apply IH.
Qed.

Lemma onesInBytes_bytes (l : list Z) st :
  forallb is_byte l = true -> onesInBytes l st = (Ok (count_ones l), st).
Proof. intros Hl. by apply onesInBytes_from. Qed.

Lemma getitem_beyond {A} (l : list A) (k : nat) :
  (length l <= k)%nat -> getitem l (Z.of_nat k) = Raise IndexError.
Proof.
  intros Hk. unfold getitem, index.
  assert ((Z.of_nat k <? Z.of_nat (length l)) = false) as -> by (apply Z.ltb_ge; lia).
  assert ((Z.of_nat k <? 0) = false) as -> by (apply Z.ltb_ge; lia).
  by rewrite !andb_false_r.
Qed.

Lemma drop_cons_lookup {A} (l : list A) (k : nat) (a : A) (r : list A) :
  drop k l = a :: r -> l !! k = Some a /\ drop (S k) l = r.
Proof.
  intros Hd.
  assert (Hk : l !! k = Some a).
  { rewrite <- (Nat.add_0_r k), <- lookup_drop, Hd. done. }
  split; [done|]. rewrite (drop_S _ _ _ Hk) in Hd. by injection Hd.
Qed.

(** The comparison of a round, from index [k] on. *)
Lemma compare_from update loc (ones : Z) st (r o : list Z) (k : nat) :
  drop k (reference loc) = r -> drop k (lastRead st) = o ->
  compare update loc ones (Z.of_nat <$> seq k (length o)) st
  = match first_diff r o k with
    | Some _ => on_mismatch update loc ones st
    | None => if (length o <=? length r)%nat then (Ok Continue, st)
              else (Raise IndexError, st)
    end.
Proof.
  revert r k. induction o as [|b o IH]; intros r k Hr Ho.
  - cbn [length seq fmap list_fmap compare]. destruct r; reflexivity.
  - apply drop_cons_lookup in Ho as [Hb Ho].
    cbn [length seq fmap list_fmap compare].
    unfold bind at 1, lift_res at 1.
    destruct r as [|a r].
    + rewrite getitem_beyond; [done|].
      apply (f_equal length) in Hr. rewrite length_drop in Hr. cbn in Hr. lia.
    + apply drop_cons_lookup in Hr as [Ha Hr].
      rewrite (getitem_lookup _ (Z.of_nat k) a) by (try lia; by rewrite Nat2Z.id).
      unfold bind at 1, gets at 1. unfold bind at 1, lift_res at 1.
      rewrite (getitem_lookup _ (Z.of_nat k) b) by (try lia; by rewrite Nat2Z.id).
      cbn [first_diff]. destruct (a =? b); cbn [negb]; [|done].
      rewrite (IH r (S k) Hr Ho). cbn [length]. done.
Qed.

Lemma first_diff_same (l : list Z) (k : nat) : first_diff l l k = None.
Proof.
  revert k. induction l as [|a l IH]; intros k; [done|].
  cbn. by rewrite Z.eqb_refl.
Qed.

Lemma on_mismatch_spec update loc (ones : Z) st :
  forallb is_byte (lastRead st) = true ->
  on_mismatch update loc ones st
  = match update with
    | None => (Ok Return, reported loc ones (count_ones (lastRead st)) st)
    | Some us =>
        match run_updates us (reported loc ones (count_ones (lastRead st)) st) with
        | (Ok _, st') => (Ok Continue, st')
        | (Raise e, st') => (Raise e, st')
        end
    end.
Proof.
  intros Hb. unfold on_mismatch.
  unfold bind at 1, gets at 1. unfold bind at 1, modify at 1.
  unfold bind at 1, print_report at 1. unfold bind at 1, gets at 1.
  unfold bind at 1. rewrite onesInBytes_bytes by done.
  unfold bind at 1, gets at 1. unfold bind at 1, print_report at 1.
  cbn [tcpSocket stdout with_stdout with_bitFlip lastRead].
  destruct update as [us|].
  - unfold bind at 1, reported. cbn. rewrite <- app_assoc. cbn.
    destruct (run_updates us _) as [[[]|e] st']; done.
  - unfold reported. cbn. by rewrite <- app_assoc.
Qed.

Lemma with_dev_id st : with_dev (dev st) st = st.
Proof. by destruct st. Qed.

Lemma loop_body_spec function update loc st (r : list Z) st1 :
  function st = (Ok r, st1) ->
  forallb is_byte (reference loc) = true ->
  loop_body function update loc st
  = let loc' := Locals (reference loc) (counter loc + 1) in
    match compare update loc' (count_ones (reference loc))
                  (range (length r)) (with_lastRead r st1) with
    | (Ok c, st') => (Ok (c, loc'), st')
    | (Raise e, st') => (Raise e, st')
    end.
Proof.
  intros Hf Hb. unfold loop_body.
  unfold bind at 1. rewrite Hf.
  unfold bind at 1, modify at 1. unfold bind at 1.
  rewrite onesInBytes_bytes by done.
  unfold bind at 1, gets at 1. cbn [lastRead with_lastRead].
  unfold bind at 1. by destruct (compare _ _ _ _ _) as [[c|e] st'].
Qed.

(** A round whose read equals the reference goes on, and changes
    nothing but [lastRead]. *)
Lemma loop_body_equal function update loc st st1 :
  function st = (Ok (reference loc), st1) ->
  forallb is_byte (reference loc) = true ->
  loop_body function update loc st
  = (Ok (Continue, Locals (reference loc) (counter loc + 1)),
     with_lastRead (reference loc) st1).
Proof.
  intros Hf Hb. rewrite (loop_body_spec _ _ _ _ _ _ Hf Hb). cbv zeta.
  unfold range.
  rewrite (compare_from update _ _ _ (reference loc) (reference loc) 0); [|done|done].
  rewrite first_diff_same, Nat.leb_refl. done.
Qed.

(** A round whose read differs from the reference at some index reports
    the mismatch; then it returns, or runs the corrective functions. *)
Lemma loop_body_mismatch function update loc st (obs : list Z) st1 (i : nat) :
  function st = (Ok obs, st1) ->
  forallb is_byte (reference loc) = true ->
  forallb is_byte obs = true ->
  first_diff (reference loc) obs 0 = Some i ->
  let loc' := Locals (reference loc) (counter loc + 1) in
  let st2 := reported loc' (count_ones (reference loc)) (count_ones obs)
                      (with_lastRead obs st1) in
  loop_body function update loc st
  = match update with
    | None => (Ok (Return, loc'), st2)
    | Some us =>
        match run_updates us st2 with
        | (Ok _, st') => (Ok (Continue, loc'), st')
        | (Raise e, st') => (Raise e, st')
        end
    end.
Proof.
  intros Hf Hb Hobs Hdiff loc' st2.
  rewrite (loop_body_spec _ _ _ _ _ _ Hf Hb). cbv zeta.
  unfold range.
  rewrite (compare_from update _ _ _ (reference loc) obs 0); [|done|done].
  rewrite Hdiff. rewrite on_mismatch_spec by done.
  destruct update as [us|]; [|done].
  fold loc'. cbn [lastRead with_lastRead]. fold st2.
  by destruct (run_updates us st2) as [[[]|e] st'].
Qed.

End Detection.

Section Scripted.

Local Abbreviation script := (list (list Z)).
Implicit Types (st : state script).

Lemma next_block_cons st (r : list Z) (rest : script) :
  dev st = r :: rest -> next_block st = (Ok r, with_dev rest st).
Proof. intros Hd. unfold next_block. by rewrite Hd. Qed.

(** Rounds whose reads all equal the reference. *)
Lemma loop_equal_reads update (ref : list Z) (pre : script) :
  forall (c : Z) st (tail : script) (fuel : nat),
    dev st = pre ++ tail -> Forall (fun r => r = ref) pre ->
    forallb is_byte ref = true -> lastRead st = ref ->
    loop (length pre + fuel) next_block update (Locals ref c) st
    = loop fuel next_block update (Locals ref (c + Z.of_nat (length pre)))
           (with_dev tail st).
Proof.
  induction pre as [|r pre IH]; intros c st tail fuel Hd Hpre Hb Hlast.
  - cbn in Hd. rewrite <- Hd, with_dev_id. cbn [length Nat.add].
    by rewrite Z.add_0_r.
  - apply Forall_cons in Hpre as [-> Hpre].
    cbn [length Nat.add loop].
    rewrite (loop_body_equal next_block update (Locals ref c) st
               (with_dev (pre ++ tail) st)); [|by apply next_block_cons|done].
    cbn [reference counter].
    rewrite (IH (c + 1) _ tail fuel); [|done|done|done|done].
    f_equal; [f_equal; lia|].
    destruct st; cbn in *. by subst.
Qed.

End Scripted.

(** C6.  A prepared sequence of reads: the reference, then [n] reads equal
    to it, then a read that differs from it at some byte index, then
    anything.  Without a list of corrective functions the loop is still
    running after each of the first [n] rounds, having printed nothing;
    in round [n + 1] it prints the old and new record of that one mismatch,
    stores the two reads and returns, and the reads after the differing
    one are left unread, however much the loop would be allowed to run. *)
Theorem loop_without_update_stops_at_first_mismatch
        (st : state (list (list Z))) (ref obs : list Z) (pre rest : list (list Z)) (i : nat) :
  dev st = ref :: pre ++ obs :: rest ->
  Forall (fun r => r = ref) pre ->
  forallb is_byte ref = true -> forallb is_byte obs = true ->
  first_diff ref obs 0 = Some i ->
  let n := length pre in
  (forall k, (k <= n)%nat ->
     checkBitFlipLoop k next_block None st
     = (Running, Locals ref (Z.of_nat k),
        with_lastRead ref (with_dev (drop k pre ++ obs :: rest) st))) /\
  (forall extra,
     checkBitFlipLoop (S n + extra) next_block None st
     = (Returned, Locals ref (Z.of_nat n + 1),
        reported (Locals ref (Z.of_nat n + 1)) (count_ones ref) (count_ones obs)
                 (with_lastRead obs (with_dev rest st)))).
Proof.
  intros Hd Hpre Href Hobs Hdiff n.
  assert (Hstart : forall fuel,
            checkBitFlipLoop fuel next_block None st
            = loop fuel next_block None (Locals ref 0)
                   (with_lastRead ref (with_dev (pre ++ obs :: rest) st))).
  { intros fuel. unfold checkBitFlipLoop.
    by rewrite (next_block_cons st ref (pre ++ obs :: rest) Hd). }
  split.
  - intros k Hk. rewrite Hstart.
    replace k with (length (take k pre) + 0)%nat at 1
      by (rewrite length_take; lia).
    rewrite (loop_equal_reads None ref (take k pre) 0 _ (drop k pre ++ obs :: rest) 0).
    + cbn [loop]. rewrite length_take. do 2 f_equal. f_equal. lia.
    + cbn [dev with_dev with_lastRead]. by rewrite app_assoc, take_drop.
    + by apply Forall_take.
    + done.
    + done.
  - intros extra. rewrite Hstart.
    replace (S n + extra)%nat with (length pre + S extra)%nat by (unfold n; lia).
    rewrite (loop_equal_reads None ref pre 0 _ (obs :: rest) (S extra)); [|done..].
    cbn [loop].
    rewrite (loop_body_mismatch next_block None _ _ obs
               (with_dev rest (with_lastRead ref (with_dev (pre ++ obs :: rest) st))) i);
      [|reflexivity|done..].
    cbn [reference counter]. by rewrite Z.add_0_l.
Qed.

Section Corrective.

Context {T : Type}.
Implicit Types (st : state T) (loc : locals).

Lemma on_mismatch_some (us : list (M (state T) unit)) loc (ones : Z) st c st' :
  on_mismatch (Some us) loc ones st = (Ok c, st') -> c = Continue.
Proof.
  unfold on_mismatch, bind, gets, modify, print_report.
  destruct (onesInBytes _ _) as [[n|e] s1]; [|discriminate].
  destruct (run_updates us _) as [[[]|e] s2]; [|discriminate].
  unfold ret. congruence.
Qed.

Lemma compare_some (us : list (M (state T) unit)) loc (ones : Z) (idx : list Z) st c st' :
  compare (Some us) loc ones idx st = (Ok c, st') -> c = Continue.
Proof.
  revert st. induction idx as [|i idx IH]; intros st; cbn [compare].
  - unfold ret. congruence.
  - unfold bind at 1, lift_res at 1.
    destruct (getitem (reference loc) i) as [a|e]; [|discriminate].
    unfold bind at 1, gets at 1. unfold bind at 1, lift_res at 1.
    destruct (getitem (lastRead st) i) as [b|e]; [|discriminate].
    destruct (negb (a =? b)); [apply on_mismatch_some|apply IH].
Qed.

Lemma loop_body_some function (us : list (M (state T) unit)) loc st c loc' st' :
  loop_body function (Some us) loc st = (Ok (c, loc'), st') ->
  c = Continue /\ reference loc' = reference loc.
Proof.
  unfold loop_body. unfold bind at 1.
  destruct (function st) as [[r|e] s1]; [|discriminate].
  unfold bind at 1, modify at 1. unfold bind at 1.
  destruct (onesInBytes _ _) as [[n|e] s2]; [|discriminate].
  unfold bind at 1, gets at 1. unfold bind at 1.
  destruct (compare _ _ _ _ _) as [[c0|e] s3] eqn:Hc; [|discriminate].
  unfold ret. intros [= <- <- <-]. split; [|done].
  by apply compare_some in Hc.
Qed.

Lemma loop_some function (us : list (M (state T) unit)) (fuel : nat) loc st :
  (loop fuel function (Some us) loc st).1.1 <> Returned /\
  reference (loop fuel function (Some us) loc st).1.2 = reference loc.
Proof.
  revert loc st. induction fuel as [|fuel IH]; intros loc st; cbn [loop].
  - done.
  - destruct (loop_body function (Some us) loc st) as [[[c loc']|e] st'] eqn:Hb.
    + apply loop_body_some in Hb as [-> Href].
      destruct (IH loc' st') as [H1 H2]. split; [done|]. by rewrite H2.
    + done.
Qed.

Lemma run_updates_in_order (us : list (M (state T) unit)) st :
  Forall (fun u => forall s, (u s).1 = Ok tt) us ->
  run_updates us st = (Ok tt, foldl (fun s u => (u s).2) st us).
Proof.
  unfold run_updates. revert st. induction us as [|u us IH]; intros st Hus; [done|].
  apply Forall_cons in Hus as [Hu Hus].
  cbn [for_each foldl]. unfold bind at 1.
  specialize (Hu st). destruct (u st) as [[[]|e] s1]; [|discriminate]. cbn [snd].
  by apply IH.
Qed.

End Corrective.

Section ScriptedCorrection.

Local Abbreviation script := (list (list Z)).
Implicit Types (st : state script).

Lemma first_diff_none_eq (ref r : list Z) (k : nat) :
  first_diff ref r k = None -> length r = length ref -> r = ref.
Proof.
  revert r k. induction ref as [|a ref IH]; intros [|b r] k Hd Hlen; try done.
  cbn [first_diff] in Hd. destruct (Z.eqb_spec a b) as [->|]; [|done].
  f_equal. apply (IH r (S k)); [done|]. cbn in Hlen. lia.
Qed.

Lemma updates_keep_dev (us : list (M (state script) unit)) st :
  Forall (fun u => forall s, (u s).1 = Ok tt /\ dev (u s).2 = dev s) us ->
  dev (foldl (fun s u => (u s).2) st us) = dev st.
Proof.
  revert st. induction us as [|u us IH]; intros st Hus; [done|].
  apply Forall_cons in Hus as [Hu Hus]. cbn [foldl].
  rewrite IH by done. apply Hu.
Qed.

(** Rounds of the loop with corrective functions over a prepared sequence
    of reads. *)
Lemma loop_polled (us : list (M (state script) unit)) (ref : list Z) :
  forallb is_byte ref = true ->
  Forall (fun u => forall s, (u s).1 = Ok tt /\ dev (u s).2 = dev s) us ->
  forall (k : nat) (c : Z) st,
    Forall (fun r => forallb is_byte r = true /\ length r = length ref) (dev st) ->
    (k <= length (dev st))%nat ->
    loop k next_block (Some us) (Locals ref c) st
    = (Running, Locals ref (c + Z.of_nat k), polled us ref c k st).
Proof.
  intros Href Hus. induction k as [|k IH]; intros c st Hscript Hk.
  - cbn [loop polled]. by rewrite Z.add_0_r.
  - destruct (dev st) as [|r rest] eqn:Hd; [cbn in Hk; lia|].
    apply Forall_cons in Hscript as [[Hr Hlen] Hrest]. cbn [length] in Hk.
    assert (Hnext : next_block st = (Ok r, with_dev rest st)) by (by apply next_block_cons).
    assert (Hpolled : polled us ref c (S k) st
                      = polled us ref (c + 1) k
                               (corrected us (Locals ref (c + 1)) r (with_dev rest st))).
    { cbn [polled]. by rewrite Hd. }
    rewrite Hpolled. unfold corrected. cbn [reference].
    cbn [loop].
    destruct (first_diff ref r 0) as [i|] eqn:Hdiff.
    + rewrite (loop_body_mismatch next_block (Some us) (Locals ref c) st r
                 (with_dev rest st) i Hnext Href Hr Hdiff).
      cbn [reference counter].
      rewrite run_updates_in_order
        by (eapply Forall_impl; [exact Hus|]; intros u Hu s; apply Hu).
      rewrite IH.
      * do 2 f_equal. f_equal. lia.
      * rewrite updates_keep_dev by done. exact Hrest.
      * rewrite updates_keep_dev by done. cbn. lia.
    + apply first_diff_none_eq in Hdiff as ->; [|done].
      rewrite (loop_body_equal next_block (Some us) (Locals ref c) st (with_dev rest st)
                 Hnext Href).
      cbn [reference counter].
      rewrite IH; [|exact Hrest|cbn; lia].
      do 2 f_equal. f_equal. lia.
Qed.

End ScriptedCorrection.

(** C7.  With a list of corrective functions the loop never returns, and
    its reference stays the first read, round after round.  A round that
    finds a mismatch prints the two records, runs the corrective functions
    and goes on with the same reference; the functions run in list order,
    each on the state the previous one left.  Over a prepared sequence of
    reads of the reference's length, with corrective functions that
    succeed and take no read from the sequence: after [k] rounds the loop
    is still running, its reference is the first read, its counter is [k],
    and the chip object is the one that [k] rounds of reading, reporting
    every read that differs from the first read, and correcting leave. *)
Theorem loop_with_update_keeps_reference :
  (forall (T : Type) (function : M (state T) (list Z)) (us : list (M (state T) unit))
          (fuel : nat) (st : state T) (r : list Z) (st1 : state T),
     function st = (Ok r, st1) ->
     (checkBitFlipLoop fuel function (Some us) st).1.1 <> Returned /\
     reference (checkBitFlipLoop fuel function (Some us) st).1.2 = r) /\
  (forall (T : Type) (function : M (state T) (list Z)) (us : list (M (state T) unit))
          (loc : locals) (st : state T) (obs : list Z) (st1 : state T) (i : nat),
     function st = (Ok obs, st1) ->
     forallb is_byte (reference loc) = true -> forallb is_byte obs = true ->
     first_diff (reference loc) obs 0 = Some i ->
     let loc' := Locals (reference loc) (counter loc + 1) in
     loop_body function (Some us) loc st
     = match run_updates us (reported loc' (count_ones (reference loc)) (count_ones obs)
                                      (with_lastRead obs st1)) with
       | (Ok _, st') => (Ok (Continue, loc'), st')
       | (Raise e, st') => (Raise e, st')
       end) /\
  (forall (T : Type) (us : list (M (state T) unit)) (st : state T),
     Forall (fun u => forall s, (u s).1 = Ok tt) us ->
     run_updates us st = (Ok tt, foldl (fun s u => (u s).2) st us)) /\
  (forall (st : state (list (list Z))) (ref : list Z) (reads : list (list Z))
          (us : list (M (state (list (list Z))) unit)) (k : nat),
     dev st = ref :: reads ->
     forallb is_byte ref = true ->
     Forall (fun r => forallb is_byte r = true /\ length r = length ref) reads ->
     Forall (fun u => forall s, (u s).1 = Ok tt /\ dev (u s).2 = dev s) us ->
     (k <= length reads)%nat ->
     checkBitFlipLoop k next_block (Some us) st
     = (Running, Locals ref (Z.of_nat k),
        polled us ref 0 k (with_lastRead ref (with_dev reads st)))).
Proof.
  split; [|split; [|split]].
  - intros T function us fuel st r st1 Hf. unfold checkBitFlipLoop. rewrite Hf.
    apply (loop_some function us fuel (Locals r 0)).
  - intros T function us loc st obs st1 i Hf Href Hobs Hdiff loc'.
    by rewrite (loop_body_mismatch function (Some us) loc st obs st1 i).
  - intros T us st. apply run_updates_in_order.
  - intros st ref reads us k Hd Href Hreads Hus Hk.
    unfold checkBitFlipLoop. rewrite (next_block_cons st ref reads Hd).
    cbn [lastRead with_lastRead].
    rewrite (loop_polled us ref Href Hus k 0); [by rewrite Z.add_0_l|done|done].
Qed.

Lemma loop_with_update_keeps_reference_witness :
  let st := init 1 [[1; 2; 3]; [1; 6; 3]; [1; 2; 3]; [1; 6; 3]] (fun _ => 0) in
  let us := [modify (with_simReadFlip false); modify (with_draws 7)] in
  checkBitFlipLoop 3 next_block (Some us) st
  = (Running, Locals [1; 2; 3] 3,
     polled us [1; 2; 3] 0 3 (with_lastRead [1; 2; 3] (with_dev [[1; 6; 3]; [1; 2; 3]; [1; 6; 3]] st))).
Proof.
  exact (proj2 (proj2 (proj2 loop_with_update_keeps_reference))
               (init 1 [[1; 2; 3]; [1; 6; 3]; [1; 2; 3]; [1; 6; 3]] (fun _ => 0))
               [1; 2; 3] [[1; 6; 3]; [1; 2; 3]; [1; 6; 3]]
               [modify (with_simReadFlip false); modify (with_draws 7)] 3%nat
               eq_refl eq_refl ltac:(by repeat constructor) ltac:(by repeat constructor)
               ltac:(cbn; lia)).
Defined.

Lemma loop_without_update_stops_at_first_mismatch_witness :
  let st := init 1 [[1; 2; 3]; [1; 2; 3]; [1; 6; 3]; [1; 2; 3]] (fun _ => 0) in
  checkBitFlipLoop 1 next_block None st
  = (Running, Locals [1; 2; 3] 1, with_lastRead [1; 2; 3] (with_dev [[1; 6; 3]; [1; 2; 3]] st)) /\
  checkBitFlipLoop 5 next_block None st
  = (Returned, Locals [1; 2; 3] 2,
     reported (Locals [1; 2; 3] 2) 4 5 (with_lastRead [1; 6; 3] (with_dev [[1; 2; 3]] st))).
Proof.
  pose proof (loop_without_update_stops_at_first_mismatch
                (init 1 [[1; 2; 3]; [1; 2; 3]; [1; 6; 3]; [1; 2; 3]] (fun _ => 0))
                [1; 2; 3] [1; 6; 3] [[1; 2; 3]] [[1; 2; 3]] 1%nat eq_refl
                ltac:(by repeat constructor) eq_refl eq_refl eq_refl) as [H1 H2].
  split; [exact (H1 1%nat (le_n 1))|exact (H2 3%nat)].
Defined.

(** The corrective functions do not refresh the reference: a second read
    that repeats the changed bytes is reported against the first read
    again. *)
Example reference_not_refreshed :
  let st := init 1 [[1; 2; 3]; [1; 6; 3]; [1; 6; 3]] (fun _ => 0) in
  let r := checkBitFlipLoop 2 next_block (Some []) st in
  r.1 = (Running, Locals [1; 2; 3] 2) /\
  rep_bytes <$> stdout r.2 = [[1; 2; 3]; [1; 6; 3]; [1; 2; 3]; [1; 6; 3]].
Proof. vm_compute. done. Qed.

(** ** Block round trips on the simulated device *)

Section SimRoundTrip.

Import Sim.

Lemma grid_row (g : list (list (list Z))) (m : Z) :
  grid_ok g -> 0 <= m < 256 ->
  exists row, g !! Z.to_nat m = Some row /\ length row = 256%nat.
Proof.
  intros [Hlen Hrows] Hm.
  destruct (lookup_lt_is_Some_2 g (Z.to_nat m)) as [row Hrow]; [lia|].
  exists row. split; [done|].
  by apply (Forall_lookup_1 _ _ _ _ Hrows Hrow).
Qed.

Lemma grid_ok_put (g : list (list (list Z))) (m l : Z) (v : list Z) :
  grid_ok g -> grid_ok (put m l v g).
Proof.
  intros [Hlen Hrows]. unfold put. split; [by rewrite length_insert|].
  destruct (decide (Z.to_nat m < length g)%nat) as [Hlt|Hge].
  - apply Forall_insert; [done|]. rewrite length_insert.
    destruct (lookup_lt_is_Some_2 g _ Hlt) as [row Hrow].
    rewrite (list_lookup_total_correct _ _ _ Hrow).
    by apply (Forall_lookup_1 _ _ _ _ Hrows Hrow).
  - by rewrite list_insert_ge by lia.
Qed.

Lemma cell_put_eq (g : list (list (list Z))) (m l : Z) (v : list Z) :
  grid_ok g -> 0 <= m < 256 -> 0 <= l < 256 -> cell (put m l v g) m l = Some v.
Proof.
  intros Hg Hm Hl. destruct (grid_row g m Hg Hm) as (row & Hrow & Hlen).
  unfold cell, put. destruct Hg as [Hg _].
  rewrite list_lookup_insert_eq by lia. cbn.
  rewrite (list_lookup_total_correct _ _ _ Hrow).
  apply list_lookup_insert_eq. lia.
Qed.

Lemma cell_put_ne (g : list (list (list Z))) (m l m' l' : Z) (v : list Z) :
  0 <= m -> 0 <= l -> 0 <= m' -> 0 <= l' -> (m, l) <> (m', l') ->
  cell (put m l v g) m' l' = cell g m' l'.
Proof.
  intros Hm Hl Hm' Hl' Hne. unfold cell, put.
  destruct (decide (Z.to_nat m = Z.to_nat m')) as [Heq|Hneq].
  - assert (m = m') as <- by lia.
    assert (Z.to_nat l <> Z.to_nat l') by (intros ?; apply Hne; f_equal; lia).
    destruct (g !! Z.to_nat m) as [row|] eqn:Hrow.
    + pose proof (lookup_lt_Some _ _ _ Hrow) as Hlt.
      rewrite (list_lookup_insert_eq g (Z.to_nat m) _ Hlt).
      cbn. rewrite (list_lookup_total_correct _ _ _ Hrow).
      by rewrite list_lookup_insert_ne.
    + pose proof (proj1 (lookup_ge_None _ _) Hrow) as Hge.
      rewrite list_insert_ge by done. by rewrite Hrow.
  - by rewrite list_lookup_insert_ne.
Qed.

Lemma store_cell_in_range (d : device) (m l : Z) (args : list Z) :
  grid_ok (simRegs d) -> simAddrMSB d = Some m -> simAddrLSB d = Some l ->
  0 <= m < 256 -> 0 <= l < 256 ->
  store_cell d args = Ok (Device (put m l args (simRegs d)) (Some m) (Some l)).
Proof.
  intros Hg HM HL Hm Hl. destruct (grid_row _ m Hg Hm) as (row & Hrow & Hlen).
  unfold store_cell, setitem. rewrite HM, HL. cbn [attr].
  rewrite index_in_range by (destruct Hg; lia). rewrite Hrow.
  rewrite index_in_range by lia.
  unfold put. by rewrite (list_lookup_total_correct _ _ _ Hrow).
Qed.

Lemma load_cell_in_range (d : device) (m l : Z) (c : list Z) :
  simAddrMSB d = Some m -> simAddrLSB d = Some l ->
  0 <= m -> 0 <= l -> cell (simRegs d) m l = Some c ->
  load_cell d = Ok c.
Proof.
  intros HM HL Hm Hl Hc. unfold cell in Hc.
  destruct (simRegs d !! Z.to_nat m) as [row|] eqn:Hrow; [|done]. cbn in Hc.
  unfold load_cell. rewrite HM, HL. cbn [attr].
  rewrite (getitem_lookup _ m row) by done.
  by apply getitem_lookup.
Qed.

(** A chip object over the simulated device, without read corruption. *)
Context (st0 : state device) (Hflip : simReadFlip st0 = false).

Lemma sim_cmd (name : string) (d : device) :
  cmd name (with_dev d st0) = (getCmdByte (chipid st0) name, with_dev d st0).
Proof. reflexivity. Qed.

Lemma sim_write (addr : Z) (args : list Z) (d : device) :
  write addr args (with_dev d st0)
  = ((writeSim (chipid st0) addr args d).1,
     with_dev (writeSim (chipid st0) addr args d).2 st0).
Proof.
  unfold write, on_dev. cbn. by destruct (writeSim _ _ _ _).
Qed.

Lemma sim_read (addr : Z) (d : device) :
  read addr [] (with_dev d st0)
  = ((readSim (chipid st0) addr [] d).1,
     with_dev (readSim (chipid st0) addr [] d).2 st0).
Proof.
  unfold read, bind, on_dev, gets. cbn.
  destruct (readSim _ _ _ _) as [[v|e] d']; cbn; [|done]. by rewrite Hflip.
Qed.

Lemma rw_byte_write (d : device) (m lsb : Z) (k : nat) (buf : list Z) (b : Z) :
  grid_ok (simRegs d) -> simAddrMSB d = Some m ->
  0 <= m < 256 -> 0 <= lsb < 256 -> buf !! k = Some b ->
  rw_byte "w" lsb (Z.of_nat k) buf (with_dev d st0)
  = (Ok buf, with_dev (Device (put m lsb [b] (simRegs d)) (Some m) (Some lsb)) st0).
Proof.
  intros Hg HM Hm Hl Hb. unfold rw_byte.
  unfold bind at 1. rewrite sim_cmd, getCmdByte_ADD_LSB.
  unfold bind at 1. rewrite sim_write, writeSim_ADD_LSB. cbn [fst snd].
  cbn [String.eqb Ascii.eqb Bool.eqb].
  unfold bind at 1, buf_get, lift_res.
  rewrite (getitem_lookup _ _ b) by (try lia; by rewrite Nat2Z.id).
  unfold bind at 1. rewrite sim_cmd, getCmdByte_WR.
  unfold bind at 1. rewrite sim_write, writeSim_WR.
  rewrite (store_cell_in_range _ m lsb) by done.
  reflexivity.
Qed.

Lemma rw_byte_read (d : device) (m lsb : Z) (k : nat) (buf : list Z) (b : Z) (tl : list Z) :
  simAddrMSB d = Some m -> 0 <= m -> 0 <= lsb ->
  cell (simRegs d) m lsb = Some (b :: tl) -> is_byte b = true ->
  (k < length buf)%nat ->
  rw_byte "r" lsb (Z.of_nat k) buf (with_dev d st0)
  = (Ok (<[k := b]> buf), with_dev (Device (simRegs d) (Some m) (Some lsb)) st0).
Proof.
  intros HM Hm Hl Hc Hb Hk. unfold rw_byte.
  unfold bind at 1. rewrite sim_cmd, getCmdByte_ADD_LSB.
  unfold bind at 1. rewrite sim_write, writeSim_ADD_LSB. cbn [fst snd].
  cbn [String.eqb Ascii.eqb Bool.eqb].
  unfold bind at 1. rewrite sim_cmd, getCmdByte_RD.
  unfold bind at 1. rewrite sim_read, readSim_RD.
  rewrite (load_cell_in_range _ m lsb (b :: tl)) by done.
  rewrite (getitem_lookup (b :: tl) 0 b) by done. cbn [fst snd].
  unfold buf_set. rewrite index_in_range by lia. rewrite Hb, Nat2Z.id.
  by rewrite HM.
Qed.

End SimRoundTrip.

Section SimLoops.

Import Sim.

Context (st0 : state device) (Hflip : simReadFlip st0 = false).

Lemma write_loop {X : Type} (xs : list X) (body : X -> list Z -> M (state device) (list Z))
      (col : X -> Z) (idx : X -> nat) (buf : list Z) (m : Z) :
  (forall x acc st, x ∈ xs -> body x acc st = rw_byte "w" (col x) (Z.of_nat (idx x)) acc st) ->
  points_ok (length buf) ((fun x => (m, col x, idx x)) <$> xs) ->
  0 <= m < 256 ->
  forall d, grid_ok (simRegs d) -> simAddrMSB d = Some m ->
  exists d', for_each xs body buf (with_dev d st0) = (Ok buf, with_dev d' st0) /\
             simAddrMSB d' = Some m /\
             simRegs d' = writes ((fun x => (m, col x, idx x)) <$> xs) buf (simRegs d).
Proof.
  intros Hbody Hok Hm. induction xs as [|x xs IH]; intros d Hg HM.
  - by exists d.
  - apply Forall_cons in Hok as [[[_ Hcol] Hidx] Hok]. cbn in Hcol, Hidx.
    destruct (lookup_lt_is_Some_2 buf (idx x) Hidx) as [b Hb].
    cbn [for_each]. unfold bind at 1.
    rewrite Hbody by apply list_elem_of_here.
    rewrite (rw_byte_write st0 d m (col x) (idx x) buf b) by done.
    destruct (IH (fun x' acc st Hx => Hbody x' acc st (list_elem_of_further _ _ _ Hx)) Hok
                 (Device (put m (col x) [b] (simRegs d)) (Some m) (Some (col x))))
      as (d' & Hrun & HM' & Hregs); [by apply grid_ok_put|done|].
    exists d'. split; [done|]. split; [done|].
    rewrite Hregs. cbn [fmap list_fmap writes foldl simRegs fst snd].
    by rewrite (list_lookup_total_correct _ _ _ Hb).
Qed.

Lemma read_loop {X : Type} (xs : list X) (body : X -> list Z -> M (state device) (list Z))
      (col : X -> Z) (idx : X -> nat) (bs : list Z) (m : Z) :
  (forall x acc st, x ∈ xs -> body x acc st = rw_byte "r" (col x) (Z.of_nat (idx x)) acc st) ->
  0 <= m ->
  forall d buf,
    simAddrMSB d = Some m ->
    Forall (fun x => 0 <= col x /\ (idx x < length buf)%nat /\
                     cell (simRegs d) m (col x) = Some [bs !!! idx x] /\
                     is_byte (bs !!! idx x) = true) xs ->
    exists d', for_each xs body buf (with_dev d st0)
               = (Ok (reads (idx <$> xs) bs buf), with_dev d' st0) /\
               simAddrMSB d' = Some m /\ simRegs d' = simRegs d.
Proof.
  intros Hbody Hm. induction xs as [|x xs IH]; intros d buf HM Hxs.
  - by exists d.
  - apply Forall_cons in Hxs as [(Hcol & Hidx & Hcell & Hbyte) Hxs].
    cbn [for_each]. unfold bind at 1.
    rewrite Hbody by apply list_elem_of_here.
    rewrite (rw_byte_read st0 Hflip d m (col x) (idx x) buf (bs !!! idx x) []) by done.
    destruct (IH (fun x' acc st Hx => Hbody x' acc st (list_elem_of_further _ _ _ Hx))
                 (Device (simRegs d) (Some m) (Some (col x)))
                 (<[idx x := bs !!! idx x]> buf))
      as (d' & Hrun & HM' & Hregs); [done| |].
    { eapply Forall_impl; [exact Hxs|]. intros y (H1 & H2 & H3 & H4).
      by rewrite length_insert. }
    exists d'. by repeat split.
Qed.

(** *** The cells after a block write, and the buffer after a block read *)

Lemma writes_ok (ps : list point) (bs : list Z) (g : list (list (list Z))) :
  grid_ok g -> grid_ok (writes ps bs g).
Proof.
  revert g. induction ps as [|p ps IH]; intros g Hg; [done|].
  apply IH. by apply grid_ok_put.
Qed.

Lemma writes_app (ps qs : list point) (bs : list Z) (g : list (list (list Z))) :
  writes (ps ++ qs) bs g = writes qs bs (writes ps bs g).
Proof. apply foldl_app. Qed.

Lemma writes_untouched (ps : list point) (bs : list Z) (g : list (list (list Z))) (m l : Z) :
  points_ok (length bs) ps -> 0 <= m -> 0 <= l -> (m, l) ∉ fst <$> ps ->
  cell (writes ps bs g) m l = cell g m l.
Proof.
  revert g. induction ps as [|[[pm pl] pk] ps IH]; intros g Hok Hm Hl Hnot; [done|].
  apply Forall_cons in Hok as [[[Hpm Hpl] _] Hok]. cbn in Hpm, Hpl.
  cbn [fmap list_fmap fst] in Hnot. apply not_elem_of_cons in Hnot as [Hne Hnot].
  cbn [writes foldl fst snd]. fold (writes ps bs (put pm pl [bs !!! pk] g)).
  rewrite IH by done. apply cell_put_ne; [lia..|congruence].
Qed.

Lemma writes_cell (ps : list point) (bs : list Z) (g : list (list (list Z))) (p : point) :
  grid_ok g -> points_ok (length bs) ps -> NoDup (fst <$> ps) -> p ∈ ps ->
  cell (writes ps bs g) p.1.1 p.1.2 = Some [bs !!! p.2].
Proof.
  revert g. induction ps as [|q ps IH]; intros g Hg Hok Hdup Hp.
  - by apply elem_of_nil in Hp.
  - pose proof Hok as Hok'. apply Forall_cons in Hok' as [[[Hqm Hql] _] Hps].
    cbn [fmap list_fmap] in Hdup. apply NoDup_cons in Hdup as [Hq Hdup].
    cbn [writes foldl]. fold (writes ps bs (put q.1.1 q.1.2 [bs !!! q.2] g)).
    apply elem_of_cons in Hp as [->|Hp].
    + rewrite writes_untouched; [|done|lia|lia|by destruct q as [[??]?]].
      by apply cell_put_eq.
    + apply IH; [by apply grid_ok_put|done..].
Qed.

Lemma reads_lookup (ks : list nat) (bs buf : list Z) (i : nat) :
  length buf = length bs ->
  reads ks bs buf !! i = if bool_decide (i ∈ ks) then bs !! i else buf !! i.
Proof.
  revert buf. induction ks as [|k ks IH]; intros buf Hlen; [done|].
  cbn [reads foldl]. fold (reads ks bs (<[k := bs !!! k]> buf)).
  rewrite IH by (by rewrite length_insert).
  destruct (bool_decide_reflect (i ∈ ks)) as [Hin|Hnin].
  - rewrite bool_decide_eq_true_2; [done|by apply list_elem_of_further].
  - destruct (decide (i = k)) as [->|Hne].
    + rewrite bool_decide_eq_true_2 by apply list_elem_of_here.
      destruct (decide (k < length buf)%nat) as [Hlt|Hge].
      * rewrite list_lookup_insert_eq by done.
        symmetry. apply list_lookup_lookup_total_lt. lia.
      * rewrite list_insert_ge by lia.
        rewrite !(proj2 (lookup_ge_None _ _)); [done|lia..].
    + rewrite list_lookup_insert_ne by done.
      rewrite bool_decide_eq_false_2; [done|].
      intros [->|?]%elem_of_cons; done.
Qed.

Lemma reads_all (ks : list nat) (bs buf : list Z) :
  length buf = length bs -> seq 0 (length bs) ⊆ ks -> reads ks bs buf = bs.
Proof.
  intros Hlen Hks. apply list_eq. intros i. rewrite reads_lookup by done.
  destruct (bool_decide_reflect (i ∈ ks)) as [Hin|Hnin]; [done|].
  rewrite !(proj2 (lookup_ge_None _ _)); [done|..].
  - destruct (decide (i < length bs)%nat) as [Hlt|]; [|lia].
    exfalso. apply Hnin, Hks. apply elem_of_seq. lia.
  - destruct (decide (i < length bs)%nat) as [Hlt|]; [|lia].
    exfalso. apply Hnin, Hks. apply elem_of_seq. lia.
Qed.

End SimLoops.

Section SimBlocks.

Import Sim.

Context (st0 : state device) (Hflip : simReadFlip st0 = false).

Lemma addrs_run {T : Type} (type : string) (a : Z * Z) (st : state T) :
  ADDRS !! type = Some a -> addrs type st = (Ok a, st).
Proof. intros Ha. unfold addrs. by rewrite Ha. Qed.

Lemma range_nonneg (n : nat) (x : Z) : x ∈ range n -> 0 <= x.
Proof. unfold range. intros (k & -> & _)%list_elem_of_fmap. lia. Qed.

Lemma bytes_lookup (bs : list Z) (k : nat) :
  forallb is_byte bs = true -> (k < length bs)%nat -> is_byte (bs !!! k) = true.
Proof.
  intros Hbs Hk. destruct (lookup_lt_is_Some_2 bs k Hk) as [b Hb].
  rewrite (list_lookup_total_correct _ _ _ Hb).
  rewrite forallb_forall in Hbs. apply Hbs.
  apply list_elem_of_In. by eapply list_elem_of_lookup_2.
Qed.

Lemma reads_length (ks : list nat) (bs buf : list Z) :
  length (reads ks bs buf) = length buf.
Proof.
  revert buf. induction ks as [|k ks IH]; intros buf; [done|].
  cbn [reads foldl]. fold (reads ks bs (<[k := bs !!! k]> buf)).
  by rewrite IH, length_insert.
Qed.

Lemma reads_app (ks ks' : list nat) (bs buf : list Z) :
  reads (ks ++ ks') bs buf = reads ks' bs (reads ks bs buf).
Proof. apply foldl_app. Qed.

(** The read loop, with its cells given point by point. *)
Lemma read_loop_points {X : Type} (xs : list X)
      (body : X -> list Z -> M (state device) (list Z))
      (col : X -> Z) (idx : X -> nat) (bs : list Z) (m : Z) (d : device) (buf : list Z) :
  (forall x acc st, x ∈ xs -> body x acc st = rw_byte "r" (col x) (Z.of_nat (idx x)) acc st) ->
  points_ok (length buf) ((fun x => (m, col x, idx x)) <$> xs) ->
  (forall p : point, p ∈ (fun x => (m, col x, idx x)) <$> xs ->
                     cell (simRegs d) p.1.1 p.1.2 = Some [bs !!! p.2]) ->
  length buf = length bs -> forallb is_byte bs = true ->
  0 <= m -> simAddrMSB d = Some m ->
  exists d', for_each xs body buf (with_dev d st0)
             = (Ok (reads (snd <$> ((fun x => (m, col x, idx x)) <$> xs)) bs buf),
                with_dev d' st0) /\
             simAddrMSB d' = Some m /\ simRegs d' = simRegs d.
Proof.
  intros Hbody Hok Hcells Hlen Hbs Hm HM.
  rewrite <- list_fmap_compose.
  apply (read_loop st0 Hflip xs body col idx bs m Hbody Hm d buf HM).
  apply Forall_forall. intros x Hx.
  assert (Hp : (m, col x, idx x) ∈ (fun x => (m, col x, idx x)) <$> xs)
    by (by apply (list_elem_of_fmap_2 (fun x => (m, col x, idx x)))).
  pose proof (proj1 (Forall_forall _ _) Hok _ Hp) as [[_ Hcol] Hidx]. cbn in Hcol, Hidx.
  split; [lia|]. split; [done|]. split; [exact (Hcells _ Hp)|].
  apply bytes_lookup; [done|lia].
Qed.

(** [rwReg16w] in write mode. *)
Lemma rwReg16w_write (type : string) (msb lsb : Z) (bs : list Z) (d : device) :
  existsb (String.eqb type) ["GenConf"; "DAC"; "Mon"]%string = true ->
  String.eqb type "GenConf" && (length bs <? 16)%nat = false ->
  (String.eqb type "DAC" || String.eqb type "Mon") && (length bs <? 15)%nat = false ->
  ADDRS !! type = Some (msb, lsb) -> 0 <= msb < 256 ->
  points_ok (length bs) (reg16_points msb lsb (length bs)) ->
  grid_ok (simRegs d) ->
  exists d', rwReg16w type (Some bs) "w" (with_dev d st0)
             = (Ok (RLen (length bs), Some bs), with_dev d' st0) /\
             simRegs d' = writes (reg16_points msb lsb (length bs)) bs (simRegs d).
Proof.
  intros Htype Hsz1 Hsz2 Ha Hmsb Hok Hg.
  unfold rwReg16w. rewrite Htype, Hsz1, Hsz2. cbn [negb].
  unfold bind at 1. rewrite (addrs_run type _ _ Ha).
  unfold bind at 1. rewrite sim_cmd, getCmdByte_ADD_MSB.
  unfold bind at 1. rewrite sim_write, writeSim_ADD_MSB. cbn [fst snd].
  unfold bind at 1.
  match goal with |- context [for_each ?xs ?body bs ?st] =>
    destruct (write_loop st0 xs body (fun i => Z.lor (Z.land lsb 0xF0) i) Z.to_nat bs msb)
      with (d := Device (simRegs d) (Some msb) (simAddrLSB d))
      as (d' & Hrun & _ & Hregs)
  end.
  - intros x acc st Hx%range_nonneg. unfold bind at 1.
    rewrite (addrs_run type _ _ Ha). cbn [snd]. by rewrite Z2Nat.id.
  - exact Hok.
  - done.
  - done.
  - done.
  - rewrite Hrun. exists d'. split; [done|exact Hregs].
Qed.

(** [rwReg16w] in read mode, over cells that hold the bytes [bs]. *)
Lemma rwReg16w_read (type : string) (msb lsb : Z) (bs buf : list Z) (d : device) :
  existsb (String.eqb type) ["GenConf"; "DAC"; "Mon"]%string = true ->
  String.eqb type "GenConf" && (length buf <? 16)%nat = false ->
  (String.eqb type "DAC" || String.eqb type "Mon") && (length buf <? 15)%nat = false ->
  ADDRS !! type = Some (msb, lsb) -> 0 <= msb ->
  points_ok (length buf) (reg16_points msb lsb (length buf)) ->
  (forall p : point, p ∈ reg16_points msb lsb (length buf) ->
                     cell (simRegs d) p.1.1 p.1.2 = Some [bs !!! p.2]) ->
  length buf = length bs -> forallb is_byte bs = true ->
  exists d', rwReg16w type (Some buf) "r" (with_dev d st0)
             = (Ok (RLen (length buf),
                    Some (reads (snd <$> reg16_points msb lsb (length buf)) bs buf)),
                with_dev d' st0) /\
             simRegs d' = simRegs d.
Proof.
  intros Htype Hsz1 Hsz2 Ha Hmsb Hok Hcells Hlen Hbs.
  unfold rwReg16w. rewrite Htype, Hsz1, Hsz2. cbn [negb].
  unfold bind at 1. rewrite (addrs_run type _ _ Ha).
  unfold bind at 1. rewrite sim_cmd, getCmdByte_ADD_MSB.
  unfold bind at 1. rewrite sim_write, writeSim_ADD_MSB. cbn [fst snd].
  unfold bind at 1.
  match goal with |- context [for_each ?xs ?body buf ?st] =>
    destruct (read_loop_points xs body (fun i => Z.lor (Z.land lsb 0xF0) i) Z.to_nat bs msb
                               (Device (simRegs d) (Some msb) (simAddrLSB d)) buf)
      as (d' & Hrun & _ & Hregs)
  end.
  - intros x acc st Hx%range_nonneg. unfold bind at 1.
    rewrite (addrs_run type _ _ Ha). cbn [snd]. by rewrite Z2Nat.id.
  - exact Hok.
  - exact Hcells.
  - done.
  - done.
  - done.
  - done.
  - rewrite Hrun. exists d'. split; [|exact Hregs].
    unfold ret. by rewrite reads_length.
Qed.

End SimBlocks.

Section SimBlocks2.

Import Sim.

Context (st0 : state device) (Hflip : simReadFlip st0 = false).

(** The loop of [rwRoTstConf] with its running [offset] is the loop
    over the offsets paired with the indices. *)
Lemma rotst_loop {T : Type} {tr : Transport T} (mode : string) (xs : list Z) :
  forall (o : Z) (buf : list Z) (st : state T),
    for_each xs (fun i (acc : Z * list Z) =>
                   let* b' := rw_byte mode acc.1 i acc.2 in ret (acc.1 + 1, b'))
             (o, buf) st
    = match for_each (enumerate o xs) (fun (p : Z * Z) acc => rw_byte mode p.1 p.2 acc)
                     buf st with
      | (Ok b, s) => (Ok (o + Z.of_nat (length xs), b), s)
      | (Raise e, s) => (Raise e, s)
      end.
Proof.
  induction xs as [|x xs IH]; intros o buf st.
  - cbn. by rewrite Z.add_0_r.
  - cbn [for_each enumerate fst snd]. unfold bind at 1. unfold bind at 1.
    unfold bind at 2.
    destruct (rw_byte mode o x buf st) as [[b'|e] s]; [|done].
    unfold ret at 1. rewrite IH.
    destruct (for_each _ _ b' s) as [[b|e] s']; [|done].
    do 3 f_equal. cbn [length]. lia.
Qed.

Lemma rwRoTstConf_write (bs : list Z) (d : device) :
  points_ok (length bs) rotst_points -> grid_ok (simRegs d) ->
  exists d', rwRoTstConf bs "w" (with_dev d st0)
             = (Ok (RLen (length bs), bs), with_dev d' st0) /\
             simRegs d' = writes rotst_points bs (simRegs d).
Proof.
  intros Hok Hg. unfold rwRoTstConf.
  unfold bind at 1. rewrite (addrs_run "RoTstConf" (0x80, 0x40)) by reflexivity.
  unfold bind at 1. rewrite sim_cmd, getCmdByte_ADD_MSB.
  unfold bind at 1. rewrite sim_write, writeSim_ADD_MSB. cbn [fst snd].
  unfold bind at 1. rewrite rotst_loop.
  destruct (write_loop st0 (enumerate 0x40 (range 20))
              (fun (p : Z * Z) acc => rw_byte "w" p.1 p.2 acc)
              fst (fun p => Z.to_nat p.2) bs 0x80)
    with (d := Device (simRegs d) (Some 0x80) (simAddrLSB d))
    as (d' & Hrun & _ & Hregs).
  - intros x acc st Hx.
    assert (0 <= x.2); [|by rewrite Z2Nat.id].
    revert x Hx. apply Forall_forall. apply (bool_decide_unpack _). by vm_compute.
  - exact Hok.
  - done.
  - done.
  - done.
  - rewrite Hrun. exists d'. split; [done|exact Hregs].
Qed.

Lemma rwRoTstConf_read (bs buf : list Z) (d : device) :
  points_ok (length buf) rotst_points ->
  (forall p : point, p ∈ rotst_points -> cell (simRegs d) p.1.1 p.1.2 = Some [bs !!! p.2]) ->
  length buf = length bs -> forallb is_byte bs = true ->
  exists d', rwRoTstConf buf "r" (with_dev d st0)
             = (Ok (RLen (length buf), reads (snd <$> rotst_points) bs buf),
                with_dev d' st0) /\
             simRegs d' = simRegs d.
Proof.
  intros Hok Hcells Hlen Hbs. unfold rwRoTstConf.
  unfold bind at 1. rewrite (addrs_run "RoTstConf" (0x80, 0x40)) by reflexivity.
  unfold bind at 1. rewrite sim_cmd, getCmdByte_ADD_MSB.
  unfold bind at 1. rewrite sim_write, writeSim_ADD_MSB. cbn [fst snd].
  unfold bind at 1. rewrite rotst_loop.
  destruct (read_loop_points st0 Hflip (enumerate 0x40 (range 20))
              (fun (p : Z * Z) acc => rw_byte "r" p.1 p.2 acc)
              fst (fun p => Z.to_nat p.2) bs 0x80
              (Device (simRegs d) (Some 0x80) (simAddrLSB d)) buf)
    as (d' & Hrun & _ & Hregs).
  - intros x acc st Hx.
    assert (0 <= x.2); [|by rewrite Z2Nat.id].
    revert x Hx. apply Forall_forall. apply (bool_decide_unpack _). by vm_compute.
  - exact Hok.
  - exact Hcells.
  - done.
  - done.
  - done.
  - done.
  - rewrite Hrun. exists d'. split; [|exact Hregs].
    unfold ret. cbn [snd]. by rewrite reads_length.
Qed.

(** The regions of [rwMFE], in write mode. *)
Lemma rwMFE_write_regions (bs : list Z) (regions : list Z) :
  Forall (fun r => 0 <= r) regions ->
  points_ok (length bs) (mfe_points regions) ->
  forall d, grid_ok (simRegs d) ->
  exists d',
    for_each regions
             (fun region acc =>
                let* a := addrs "MFE" in
                let* c := cmd "ADD_MSB" in
                write c [Z.lor (Z.land a.1 0x80) (Z.land region 0x3F)] >>
                for_each (range 8)
                         (fun frame acc' =>
                            let* a := addrs "MFE" in
                            rw_byte "w" (Z.lor (Z.land a.2 0xF8) (Z.land frame 0x7))
                                    (region * 8 + frame) acc')
                         acc)
             bs (with_dev d st0)
    = (Ok bs, with_dev d' st0) /\
    simRegs d' = writes (mfe_points regions) bs (simRegs d).
Proof.
  induction regions as [|r regions IH]; intros Hnn Hok d Hg.
  - by exists d.
  - apply Forall_cons in Hnn as [Hr Hnn].
    unfold mfe_points in Hok. rewrite bind_cons in Hok.
    apply Forall_app in Hok as [Hok1 Hok2].
    assert (Hrow : 0 <= Z.lor (Z.land 0x80 0x80) (Z.land r 0x3F) < 256).
    { unfold mfe_region_points in Hok1. cbn [range seq fmap list_fmap] in Hok1.
      apply Forall_cons in Hok1 as [[[H _] _] _]. exact H. }
    cbn [for_each]. unfold bind at 1. unfold bind at 1.
    rewrite (addrs_run "MFE" (0x80, 0x00)) by reflexivity.
    unfold bind at 1. rewrite sim_cmd, getCmdByte_ADD_MSB.
    unfold bind at 1. rewrite sim_write, writeSim_ADD_MSB. cbn [fst snd].
    match goal with |- context [for_each (range 8) ?body bs ?st] =>
      destruct (write_loop st0 (range 8) body
                  (fun frame => Z.lor (Z.land 0x00 0xF8) (Z.land frame 0x7))
                  (fun frame => Z.to_nat (r * 8 + frame)) bs
                  (Z.lor (Z.land 0x80 0x80) (Z.land r 0x3F)))
        with (d := Device (simRegs d) (Some (Z.lor (Z.land 0x80 0x80) (Z.land r 0x3F)))
                          (simAddrLSB d))
        as (d1 & Hrun & _ & Hregs)
    end.
    + intros x acc st Hx%range_nonneg. unfold bind at 1.
      rewrite (addrs_run "MFE" (0x80, 0x00)) by reflexivity. cbn [snd].
      by rewrite Z2Nat.id by lia.
    + exact Hok1.
    + done.
    + done.
    + done.
    + rewrite Hrun.
      destruct (IH Hnn Hok2 d1) as (d' & Hrun' & Hregs').
      { rewrite Hregs. by apply writes_ok. }
      rewrite Hrun'. exists d'. split; [done|].
      rewrite Hregs', Hregs. unfold mfe_points. rewrite bind_cons.
      by rewrite writes_app.
Qed.

(** The regions of [rwMFE], in read mode. *)
Lemma rwMFE_read_regions (bs : list Z) (regions : list Z) :
  Forall (fun r => 0 <= r) regions ->
  forallb is_byte bs = true ->
  forall d buf,
    points_ok (length buf) (mfe_points regions) ->
    (forall p : point, p ∈ mfe_points regions ->
                       cell (simRegs d) p.1.1 p.1.2 = Some [bs !!! p.2]) ->
    length buf = length bs ->
    exists d',
      for_each regions
               (fun region acc =>
                  let* a := addrs "MFE" in
                  let* c := cmd "ADD_MSB" in
                  write c [Z.lor (Z.land a.1 0x80) (Z.land region 0x3F)] >>
                  for_each (range 8)
                           (fun frame acc' =>
                              let* a := addrs "MFE" in
                              rw_byte "r" (Z.lor (Z.land a.2 0xF8) (Z.land frame 0x7))
                                      (region * 8 + frame) acc')
                           acc)
               buf (with_dev d st0)
      = (Ok (reads (snd <$> mfe_points regions) bs buf), with_dev d' st0) /\
      simRegs d' = simRegs d.
Proof.
  intros Hnn Hbs. induction regions as [|r regions IH]; intros d buf Hok Hcells Hlen.
  - by exists d.
  - apply Forall_cons in Hnn as [Hr Hnn].
    unfold mfe_points in Hok, Hcells. rewrite bind_cons in Hok, Hcells.
    apply Forall_app in Hok as [Hok1 Hok2].
    assert (Hrow : 0 <= Z.lor (Z.land 0x80 0x80) (Z.land r 0x3F) < 256).
    { unfold mfe_region_points in Hok1. cbn [range seq fmap list_fmap] in Hok1.
      apply Forall_cons in Hok1 as [[[H _] _] _]. exact H. }
    cbn [for_each]. unfold bind at 1. unfold bind at 1.
    rewrite (addrs_run "MFE" (0x80, 0x00)) by reflexivity.
    unfold bind at 1. rewrite sim_cmd, getCmdByte_ADD_MSB.
    unfold bind at 1. rewrite sim_write, writeSim_ADD_MSB. cbn [fst snd].
    match goal with |- context [for_each (range 8) ?body buf ?st] =>
      destruct (read_loop_points st0 Hflip (range 8) body
                  (fun frame => Z.lor (Z.land 0x00 0xF8) (Z.land frame 0x7))
                  (fun frame => Z.to_nat (r * 8 + frame)) bs
                  (Z.lor (Z.land 0x80 0x80) (Z.land r 0x3F))
                  (Device (simRegs d) (Some (Z.lor (Z.land 0x80 0x80) (Z.land r 0x3F)))
                          (simAddrLSB d)) buf)
        as (d1 & Hrun & _ & Hregs)
    end.
    + intros x acc st Hx%range_nonneg. unfold bind at 1.
      rewrite (addrs_run "MFE" (0x80, 0x00)) by reflexivity. cbn [snd].
      by rewrite Z2Nat.id by lia.
    + exact Hok1.
    + intros p Hp. apply Hcells. apply elem_of_app. by left.
    + done.
    + done.
    + lia.
    + done.
    + rewrite Hrun.
      destruct (IH Hnn d1 (reads (snd <$> mfe_region_points r) bs buf))
        as (d' & Hrun' & Hregs').
      { by rewrite reads_length. }
      { intros p Hp. rewrite Hregs. apply Hcells. apply elem_of_app. by right. }
      { by rewrite reads_length. }
      unfold mfe_region_points in Hrun'. rewrite Hrun'. exists d'. split.
      * unfold mfe_points. rewrite bind_cons, fmap_app, reads_app. done.
      * by rewrite Hregs'.
Qed.

End SimBlocks2.

Section SimRoundTrips.

Import Sim.

Context (st0 : state device) (Hflip : simReadFlip st0 = false).

(** Bytes written at distinct points of the grid are the bytes read at
    the same points. *)
Lemma roundtrip_points (pts : list point) (bs buf : list Z) (g : list (list (list Z))) :
  grid_ok g -> points_ok (length bs) pts -> NoDup (fst <$> pts) ->
  snd <$> pts = seq 0 (length bs) -> length buf = length bs ->
  (forall p : point, p ∈ pts -> cell (writes pts bs g) p.1.1 p.1.2 = Some [bs !!! p.2]) /\
  reads (snd <$> pts) bs buf = bs.
Proof.
  intros Hg Hok Hdup Hsnd Hlen. split.
  - intros p Hp. by apply writes_cell.
  - apply reads_all; [done|]. by rewrite Hsnd.
Qed.

Lemma reg16_roundtrip (type : string) (msb lsb : Z) (n : nat) (bs : list Z) (d : device) :
  existsb (String.eqb type) ["GenConf"; "DAC"; "Mon"]%string = true ->
  String.eqb type "GenConf" && (n <? 16)%nat = false ->
  (String.eqb type "DAC" || String.eqb type "Mon") && (n <? 15)%nat = false ->
  ADDRS !! type = Some (msb, lsb) -> 0 <= msb < 256 ->
  points_ok n (reg16_points msb lsb n) ->
  NoDup (fst <$> reg16_points msb lsb n) ->
  snd <$> reg16_points msb lsb n = seq 0 n ->
  length bs = n -> forallb is_byte bs = true -> grid_ok (simRegs d) ->
  exists d1 d2,
    rwReg16w type (Some bs) "w" (with_dev d st0)
    = (Ok (RLen n, Some bs), with_dev d1 st0) /\
    rwReg16w type (Some (bytearray n)) "r" (with_dev d1 st0)
    = (Ok (RLen n, Some bs), with_dev d2 st0).
Proof.
  intros Htype Hsz1 Hsz2 Ha Hmsb Hok Hdup Hsnd Hlen Hbs Hg. subst n.
  assert (Hbuf : length (bytearray (length bs)) = length bs)
    by apply length_replicate.
  destruct (roundtrip_points (reg16_points msb lsb (length bs)) bs
              (bytearray (length bs)) (simRegs d) Hg Hok Hdup Hsnd Hbuf)
    as [Hcells Hreads].
  destruct (rwReg16w_write st0 type msb lsb bs d) as (d1 & Hw & Hregs); [done..|].
  destruct (rwReg16w_read st0 Hflip type msb lsb bs (bytearray (length bs)) d1)
    as (d2 & Hr & _); rewrite ?Hbuf; [done|done|done|done|lia|done| |done|done|].
  { rewrite Hregs. exact Hcells. }
  exists d1, d2. split; [done|].
  rewrite Hbuf in Hr. by rewrite Hr, Hreads.
Qed.

Lemma rotst_roundtrip (bs : list Z) (d : device) :
  length bs = 20%nat -> forallb is_byte bs = true -> grid_ok (simRegs d) ->
  exists d1 d2,
    rwRoTstConf bs "w" (with_dev d st0) = (Ok (RLen 20, bs), with_dev d1 st0) /\
    rwRoTstConf (bytearray 20) "r" (with_dev d1 st0) = (Ok (RLen 20, bs), with_dev d2 st0).
Proof.
  intros Hlen Hbs Hg.
  assert (Hok : points_ok 20 rotst_points) by (apply (bool_decide_unpack _); by vm_compute).
  assert (Hdup : NoDup (fst <$> rotst_points)) by (apply (bool_decide_unpack _); by vm_compute).
  assert (Hsnd : snd <$> rotst_points = seq 0 20) by (by vm_compute).
  assert (Hbuf : length (bytearray 20) = length bs)
    by (unfold bytearray; by rewrite length_replicate, Hlen).
  rewrite <- Hlen in Hok, Hsnd.
  destruct (roundtrip_points rotst_points bs (bytearray 20) (simRegs d) Hg Hok Hdup Hsnd Hbuf)
    as [Hcells Hreads].
  destruct (rwRoTstConf_write st0 bs d Hok Hg) as (d1 & Hw & Hregs).
  destruct (rwRoTstConf_read st0 Hflip bs (bytearray 20) d1) as (d2 & Hr & _);
    [by rewrite Hbuf|by rewrite Hregs|done|done|].
  exists d1, d2. rewrite Hw, Hr, Hreads, Hlen. done.
Qed.

Lemma mfe_roundtrip (bs : list Z) (d : device) :
  length bs = 512%nat -> forallb is_byte bs = true -> grid_ok (simRegs d) ->
  exists d1 d2,
    rwMFE bs "w" (with_dev d st0) = (Ok (RLen 512, bs), with_dev d1 st0) /\
    rwMFE (bytearray (64 * 8)) "r" (with_dev d1 st0) = (Ok (RLen 512, bs), with_dev d2 st0).
Proof.
  intros Hlen Hbs Hg.
  assert (Hnn : Forall (fun r => 0 <= r) (range 64))
    by (apply (bool_decide_unpack _); by vm_compute).
  assert (Hok : points_ok 512 (mfe_points (range 64)))
    by (apply (bool_decide_unpack _); by vm_compute).
  assert (Hdup : NoDup (fst <$> mfe_points (range 64)))
    by (apply (bool_decide_unpack _); by vm_compute).
  assert (Hsnd : snd <$> mfe_points (range 64) = seq 0 512) by (by vm_compute).
  assert (Hbuf : length (bytearray (64 * 8)) = length bs)
    by (unfold bytearray; by rewrite length_replicate, Hlen).
  rewrite <- Hlen in Hok, Hsnd.
  destruct (roundtrip_points (mfe_points (range 64)) bs (bytearray (64 * 8)) (simRegs d)
              Hg Hok Hdup Hsnd Hbuf) as [Hcells Hreads].
  destruct (rwMFE_write_regions st0 bs (range 64) Hnn Hok d Hg) as (d1 & Hw & Hregs).
  destruct (rwMFE_read_regions st0 Hflip bs (range 64) Hnn Hbs d1 (bytearray (64 * 8)))
    as (d2 & Hr & _); [by rewrite Hbuf|by rewrite Hregs|done|].
  exists d1, d2. unfold rwMFE. unfold bind at 1. rewrite Hw.
  unfold bind at 1. rewrite Hr, Hreads. unfold ret. by rewrite Hlen.
Qed.

End SimRoundTrips.

(** C4.  On a simulated device whose grid has its 256 x 256 shape, with
    read corruption disabled: writing a byte sequence of the block's length
    and reading the same block back returns the sequence written, for
    GenConf (16 bytes), DAC (15 bytes), RoTstConf (20 bytes) and MFE (512
    bytes); and selecting a row and a column inside the grid, writing one
    byte and reading at the same address returns that byte. *)
Theorem sim_block_write_read_roundtrip (st : state Sim.device) :
  Sim.grid_ok (Sim.simRegs (dev st)) -> simReadFlip st = false ->
  (forall bs, length bs = 16%nat -> forallb is_byte bs = true ->
     exists st1 st2, writeGenConf (Some bs) st = (Ok (RLen 16), st1) /\
                     readGenConf st1 = (Ok bs, st2)) /\
  (forall bs, length bs = 15%nat -> forallb is_byte bs = true ->
     exists st1 st2, writeDAC (Some bs) st = (Ok (RLen 15), st1) /\
                     readDAC st1 = (Ok bs, st2)) /\
  (forall bs, length bs = 20%nat -> forallb is_byte bs = true ->
     exists st1 st2, writeRoTstConf (Some bs) st = (Ok bs, st1) /\
                     readRoTstConf st1 = (Ok bs, st2)) /\
  (forall bs, length bs = 512%nat -> forallb is_byte bs = true ->
     exists st1 st2, writeMFE (Some bs) st = (Ok bs, st1) /\
                     readMFE st1 = (Ok bs, st2)) /\
  (forall m l b, 0 <= m < 256 -> 0 <= l < 256 ->
     let d := sim_run (chipid st)
                      [Rec.TxWrite (cmdByte (chipid st) 2) [m];
                       Rec.TxWrite (cmdByte (chipid st) 3) [l];
                       Rec.TxWrite (cmdByte (chipid st) 4) [b]] (dev st) in
     Sim.readSim (chipid st) (cmdByte (chipid st) 5) [] d = (Ok (VInt b), d)).
Proof.
  intros Hg Hflip. rewrite <- (with_dev_id st).
  split; [|split; [|split; [|split]]].
  - intros bs Hlen Hbs.
    destruct (reg16_roundtrip st Hflip "GenConf" 0x00 0x20 16 bs (dev st))
      as (d1 & d2 & Hw & Hr); try done.
    + apply (bool_decide_unpack _). by vm_compute.
    + apply (bool_decide_unpack _). by vm_compute.
    + exists (with_dev d1 st), (with_lastRead bs (with_dev d2 st)).
      unfold writeGenConf, readGenConf, bind, ret. rewrite Hw, Hr. done.
  - intros bs Hlen Hbs.
    destruct (reg16_roundtrip st Hflip "DAC" 0x00 0x40 15 bs (dev st))
      as (d1 & d2 & Hw & Hr); try done.
    + apply (bool_decide_unpack _). by vm_compute.
    + apply (bool_decide_unpack _). by vm_compute.
    + exists (with_dev d1 st), (with_lastRead bs (with_dev d2 st)).
      unfold writeDAC, readDAC, bind, ret. rewrite Hw, Hr. done.
  - intros bs Hlen Hbs.
    destruct (rotst_roundtrip st Hflip bs (dev st) Hlen Hbs Hg) as (d1 & d2 & Hw & Hr).
    exists (with_dev d1 st), (with_dev d2 st).
    unfold writeRoTstConf, readRoTstConf, bind, ret. cbn [from_option id]. rewrite Hw, Hr. done.
  - intros bs Hlen Hbs.
    destruct (mfe_roundtrip st Hflip bs (dev st) Hlen Hbs Hg) as (d1 & d2 & Hw & Hr).
    exists (with_dev d1 st), (with_dev d2 st).
    unfold writeMFE, readMFE, bind, ret. cbn [from_option id]. rewrite Hw, Hr. done.
  - intros m l b Hm Hl d. subst d. unfold sim_run. cbn [foldl sim_exec chipid with_dev dev].
    rewrite writeSim_ADD_MSB. cbn [snd]. rewrite writeSim_ADD_LSB. cbn [snd].
    rewrite writeSim_WR.
    rewrite (store_cell_in_range _ m l) by done. cbn [snd].
    rewrite readSim_RD.
    rewrite (load_cell_in_range _ m l [b]); [|done|done|lia|lia|by apply cell_put_eq].
    by rewrite (getitem_lookup [b] 0 b).
Qed.

Lemma sim_block_write_read_roundtrip_witness :
  let st := init 1 Sim.fresh (fun _ => 0) in
  let bs := [0x40; 0x6E; 0; 0; 0; 0; 0; 1; 1; 0x16; 0; 0; 0x15; 0; 0x17; 0] in
  exists st1 st2, writeGenConf (Some bs) st = (Ok (RLen 16), st1) /\
                  readGenConf st1 = (Ok bs, st2).
Proof.
  apply (proj1 (sim_block_write_read_roundtrip
                  (init 1 Sim.fresh (fun _ => 0))
                  ltac:(apply (bool_decide_unpack _); by vm_compute) eq_refl));
    reflexivity.
Defined.

(** ** Further properties of the code *)

Section SimEdges.

Import Sim.

Lemma store_cell_grid (d d' : device) (args : list Z) :
  store_cell d args = Ok d' -> grid_ok (simRegs d) -> grid_ok (simRegs d').
Proof.
  unfold store_cell, setitem. intros Hst [Hlen Hrows].
  destruct (attr (simAddrMSB d)) as [msb|e]; [|done].
  destruct (index (length (simRegs d)) msb) as [r|]; [|done].
  destruct (simRegs d !! r) as [row|] eqn:Hrow; [|done].
  destruct (attr (simAddrLSB d)) as [lsb|e]; [|done].
  destruct (index (length row) lsb) as [k|]; [|done].
  injection Hst as <-. cbn [simRegs]. split; [by rewrite length_insert|].
  apply Forall_insert; [done|]. rewrite length_insert.
  by apply (Forall_lookup_1 _ _ _ _ Hrows Hrow).
Qed.

Lemma writeSim_grid (chipid addr : Z) (args : list Z) (d : device) :
  grid_ok (simRegs d) -> grid_ok (simRegs (writeSim chipid addr args d).2).
Proof.
  intros Hg. unfold writeSim.
  rewrite getCmdByte_ADD_LSB, getCmdByte_ADD_MSB, getCmdByte_WR.
  assert (Hwr : grid_ok (simRegs (if addr =? cmdByte chipid 4
                                  then match store_cell d args with
                                       | Raise e => (Raise e, d)
                                       | Ok d' => (Ok (Z.of_nat (length args)), d')
                                       end
                                  else (Ok (Z.of_nat (length args)), d)).2)).
  { destruct (addr =? cmdByte chipid 4); [|done].
    destruct (store_cell d args) as [d'|e] eqn:Hst; [|done].
    by apply (store_cell_grid d d' args). }
  destruct ((addr =? cmdByte chipid 3) && (length args =? 1)%nat);
    destruct ((addr =? cmdByte chipid 2) && (length args =? 1)%nat);
    destruct args; done.
Qed.

End SimEdges.

(** X1.  Whatever transactions the simulated device receives, well formed
    or not, succeeding or raising, its grid keeps the shape that
    [__init__] gave it: 256 rows of 256 cells. *)
Theorem sim_run_keeps_grid_shape (chipid : Z) (ts : list Rec.txn) (d : Sim.device) :
  Sim.grid_ok (Sim.simRegs d) -> Sim.grid_ok (Sim.simRegs (sim_run chipid ts d)).
Proof.
  revert d. induction ts as [|t ts IH]; intros d Hg; [done|].
  cbn [sim_run foldl]. apply IH. destruct t as [addr args|addr args]; cbn [sim_exec].
  - by apply writeSim_grid.
  - by rewrite readSim_state.
Qed.

Lemma sim_run_keeps_grid_shape_witness :
  Sim.grid_ok (Sim.simRegs (sim_run 1 [Rec.TxWrite 0x12 [-1]; Rec.TxWrite 0x13 [300];
                                       Rec.TxWrite 0x14 [1; 2; 3]] Sim.fresh)).
Proof.
  apply (sim_run_keeps_grid_shape 1 _ Sim.fresh).
  apply (bool_decide_unpack _). by vm_compute.
Defined.

(** X2.  [readSim] never changes the simulated device.  A read whose
    header is not the RD command of the chip returns no data: it returns
    the number of its arguments. *)
Theorem readSim_leaves_device (chipid addr : Z) (args : list pyarg) (d : Sim.device) :
  (Sim.readSim chipid addr args d).2 = d /\
  (addr <> cmdByte chipid 5 ->
   (Sim.readSim chipid addr args d).1 = Ok (VInt (Z.of_nat (length args)))).
Proof.
  split; [apply readSim_state|].
  intros Hne. unfold Sim.readSim. rewrite getCmdByte_RD.
  apply Z.eqb_neq in Hne. by rewrite Hne.
Qed.

Lemma readSim_leaves_device_witness :
  (Sim.readSim 1 0x14 [PInt 7; PInt 8] Sim.fresh).1 = Ok (VInt 2).
Proof.
  apply (proj2 (readSim_leaves_device 1 0x14 [PInt 7; PInt 8] Sim.fresh)).
  vm_compute. discriminate.
Defined.

(** X3.  [writeSim] accepts and ignores every write whose header is none
    of ADD_MSB, ADD_LSB and WR of the chip, and every ADD_MSB or ADD_LSB
    whose payload is not exactly one byte: the device stays as it was and
    the payload length is returned. *)
Theorem writeSim_ignores_other_transactions (chipid addr : Z) (args : list Z) (d : Sim.device) :
  (addr <> cmdByte chipid 2 -> addr <> cmdByte chipid 3 -> addr <> cmdByte chipid 4 ->
   Sim.writeSim chipid addr args d = (Ok (Z.of_nat (length args)), d)) /\
  (addr = cmdByte chipid 2 \/ addr = cmdByte chipid 3 -> length args <> 1%nat ->
   Sim.writeSim chipid addr args d = (Ok (Z.of_nat (length args)), d)).
Proof.
  split.
  - intros H2%Z.eqb_neq H3%Z.eqb_neq H4%Z.eqb_neq. unfold Sim.writeSim.
    rewrite getCmdByte_ADD_LSB, getCmdByte_ADD_MSB, getCmdByte_WR, H2, H3, H4.
    by destruct args.
  - intros Haddr Hlen. unfold Sim.writeSim.
    rewrite getCmdByte_ADD_LSB, getCmdByte_ADD_MSB, getCmdByte_WR.
    assert ((length args =? 1)%nat = false) as -> by (by apply Nat.eqb_neq).
    rewrite !andb_false_r.
    assert ((addr =? cmdByte chipid 4) = false) as ->.
    { destruct Haddr as [-> | ->]; apply cmdByte_eqb_ne; lia. }
    by destruct args.
Qed.

Lemma writeSim_ignores_other_transactions_witness :
  Sim.writeSim 1 0x11 [5] Sim.fresh = (Ok 1, Sim.fresh) /\
  Sim.writeSim 1 0x12 [5; 6] Sim.fresh = (Ok 2, Sim.fresh).
Proof.
  split.
  - apply (proj1 (writeSim_ignores_other_transactions 1 0x11 [5] Sim.fresh));
      vm_compute; discriminate.
  - apply (proj2 (writeSim_ignores_other_transactions 1 0x12 [5; 6] Sim.fresh));
      [by left|cbn; lia].
Defined.

(** X4.  After a row and a column inside the grid were selected, a WR
    stores its whole payload in that cell, whatever its length.  A read
    with one sized argument of a length other than 1 then returns that many
    leading bytes of the payload; a read without arguments returns the
    first byte, and raises [IndexError] when the payload was empty. *)
Theorem sim_cell_holds_whole_payload
        (chipid : Z) (d : Sim.device) (m l : Z) (payload : list Z) :
  Sim.grid_ok (Sim.simRegs d) -> 0 <= m < 256 -> 0 <= l < 256 ->
  let d' := sim_run chipid [Rec.TxWrite (cmdByte chipid 2) [m];
                            Rec.TxWrite (cmdByte chipid 3) [l];
                            Rec.TxWrite (cmdByte chipid 4) payload] d in
  Sim.cell (Sim.simRegs d') m l = Some payload /\
  (forall buf, length buf <> 1%nat ->
     Sim.readSim chipid (cmdByte chipid 5) [PSeq buf] d'
     = (Ok (VSeq (take (length buf) payload)), d')) /\
  Sim.readSim chipid (cmdByte chipid 5) [] d'
  = (match payload with
     | b :: _ => Ok (VInt b)
     | [] => Raise IndexError
     end, d').
Proof.
  intros Hg Hm Hl d'.
  assert (Hd' : d' = Sim.Device (Sim.put m l payload (Sim.simRegs d)) (Some m) (Some l)).
  { unfold d', sim_run. cbn [foldl sim_exec].
    rewrite writeSim_ADD_MSB. cbn [snd]. rewrite writeSim_ADD_LSB. cbn [snd].
    rewrite writeSim_WR. by rewrite (store_cell_in_range _ m l). }
  assert (Hcell : Sim.cell (Sim.simRegs d') m l = Some payload).
  { rewrite Hd'. by apply cell_put_eq. }
  assert (Hload : Sim.load_cell d' = Ok payload).
  { apply (load_cell_in_range d' m l payload); [by rewrite Hd'|by rewrite Hd'|lia|lia|done]. }
  split; [done|]. split.
  - intros buf Hbuf. unfold Sim.readSim. rewrite getCmdByte_RD, Z.eqb_refl, Hload.
    cbn [Sim.read_length]. apply Nat.eqb_neq in Hbuf. by rewrite Hbuf.
  - rewrite readSim_RD, Hload. destruct payload as [|b payload]; [done|].
    by rewrite (getitem_lookup (b :: payload) 0 b).
Qed.

Lemma sim_cell_holds_whole_payload_witness :
  let d' := sim_run 1 [Rec.TxWrite (cmdByte 1 2) [0x80]; Rec.TxWrite (cmdByte 1 3) [0x40];
                       Rec.TxWrite (cmdByte 1 4) [1; 2; 3]] Sim.fresh in
  Sim.cell (Sim.simRegs d') 0x80 0x40 = Some [1; 2; 3].
Proof.
  apply (sim_cell_holds_whole_payload 1 Sim.fresh 0x80 0x40 [1; 2; 3]);
    [apply (bool_decide_unpack _); by vm_compute|lia|lia].
Defined.

Section Tables.

Context {T : Type}.

(** The loop of [getBytesFromDict] after [done] values were stored. *)
Lemma getBytesFromDict_loop (vs done : list Z) (st : state T) :
  Forall (fun v => is_byte v = true) vs ->
  for_each (enumerate (Z.of_nat (length done)) vs)
           (fun (iv : Z * Z) ba => buf_set ba iv.1 (VInt iv.2))
           (done ++ replicate (length vs) 0) st
  = (Ok (done ++ vs), st).
Proof.
  revert done. induction vs as [|v vs IH]; intros done Hvs.
  - cbn. by rewrite !app_nil_r.
  - apply Forall_cons in Hvs as [Hv Hvs].
    cbn [enumerate for_each length replicate fst snd]. unfold bind at 1.
    unfold buf_set. rewrite index_in_range by (rewrite length_app; cbn; lia).
    rewrite Hv, Nat2Z.id. unfold ret at 1.
    replace (<[length done := v]> (done ++ 0 :: replicate (length vs) 0))
      with ((done ++ [v]) ++ replicate (length vs) 0).
    + replace (Z.of_nat (length done) + 1) with (Z.of_nat (length (done ++ [v])))
        by (rewrite length_app; cbn; lia).
      rewrite IH by done. by rewrite <- app_assoc.
    + rewrite insert_app_r_alt by lia. rewrite Nat.sub_diag. cbn.
      by rewrite <- app_assoc.
  Qed.

Lemma getBytesFromDict_stops (vs done : list Z) (v : Z) (rest : list Z) (st : state T) :
  Forall (fun v => is_byte v = true) vs -> is_byte v = false ->
  for_each (enumerate (Z.of_nat (length done)) (vs ++ v :: rest))
           (fun (iv : Z * Z) ba => buf_set ba iv.1 (VInt iv.2))
           (done ++ replicate (length (vs ++ v :: rest)) 0) st
  = (Raise ValueError, st).
Proof.
  revert done. induction vs as [|w vs IH]; intros done Hvs Hv.
  - cbn [app enumerate for_each length replicate fst snd]. unfold bind at 1.
    unfold buf_set. rewrite index_in_range by (rewrite length_app; cbn; lia).
    by rewrite Hv.
  - apply Forall_cons in Hvs as [Hw Hvs].
    cbn [app enumerate for_each length replicate fst snd]. unfold bind at 1.
    unfold buf_set. rewrite index_in_range by (rewrite length_app; cbn; lia).
    rewrite Hw, Nat2Z.id. unfold ret at 1.
    replace (<[length done := w]> (done ++ 0 :: replicate (length (vs ++ v :: rest)) 0))
      with ((done ++ [w]) ++ replicate (length (vs ++ v :: rest)) 0).
    + replace (Z.of_nat (length done) + 1) with (Z.of_nat (length (done ++ [w])))
        by (rewrite length_app; cbn; lia).
      by apply IH.
    + rewrite insert_app_r_alt by lia. rewrite Nat.sub_diag. cbn.
      by rewrite <- app_assoc.
Qed.

Lemma getBytesFromDict_ok (d : list (string * Z)) (st : state T) :
  Forall (fun kv => is_byte kv.2 = true) d ->
  getBytesFromDict d st = (Ok (snd <$> d), st).
Proof.
  intros Hd. unfold getBytesFromDict, bytearray.
  replace (length d) with (length (snd <$> d)) by apply length_fmap.
  assert (Hvs : Forall (fun v => is_byte v = true) (snd <$> d)) by (by apply Forall_fmap).
  exact (getBytesFromDict_loop (snd <$> d) [] st Hvs).
Qed.

End Tables.

(** X5.  [getBytesFromDict] returns the values of a table in the order of
    the table when all of them are bytes, and raises [ValueError] at the
    first value outside 0..255.  It leaves the chip object alone. *)
Theorem getBytesFromDict_values_in_order {T : Type} (d : list (string * Z)) (st : state T) :
  (Forall (fun kv => is_byte kv.2 = true) d ->
   getBytesFromDict d st = (Ok (snd <$> d), st)) /\
  (forall pre k v post,
     d = pre ++ (k, v) :: post ->
     Forall (fun kv => is_byte kv.2 = true) pre -> is_byte v = false ->
     getBytesFromDict d st = (Raise ValueError, st)).
Proof.
  split.
  - apply getBytesFromDict_ok.
  - intros pre k v post -> Hpre Hv. unfold getBytesFromDict, bytearray.
    replace (length (pre ++ (k, v) :: post))
      with (length (snd <$> (pre ++ (k, v) :: post))) by apply length_fmap.
    rewrite fmap_app, fmap_cons.
    assert (Hvs : Forall (fun v => is_byte v = true) (snd <$> pre)) by (by apply Forall_fmap).
    exact (getBytesFromDict_stops (snd <$> pre) [] v (snd <$> post) st Hvs Hv).
Qed.

Lemma getBytesFromDict_values_in_order_witness :
  getBytesFromDict GenConf (init 1 Sim.fresh (fun _ => 0))
  = (Ok (snd <$> GenConf), init 1 Sim.fresh (fun _ => 0)) /\
  getBytesFromDict [("A", 1); ("B", 256); ("C", 3)]%string (init 1 Sim.fresh (fun _ => 0))
  = (Raise ValueError, init 1 Sim.fresh (fun _ => 0)).
Proof.
  split.
  - apply (proj1 (getBytesFromDict_values_in_order GenConf _)).
    apply (bool_decide_unpack _). by vm_compute.
  - apply (proj2 (getBytesFromDict_values_in_order _ _) [("A", 1)]%string "B"%string 256
                 [("C", 3)]%string eq_refl).
    + apply (bool_decide_unpack _). by vm_compute.
    + reflexivity.
Defined.

Lemma existsb_eqb_elem (s : string) (l : list string) :
  existsb (String.eqb s) l = true <-> s ∈ l.
Proof.
  rewrite existsb_exists. split.
  - intros (x & Hx%list_elem_of_In & Heq%String.eqb_eq). by subst.
  - intros Hs. exists s. split; [by apply list_elem_of_In|apply String.eqb_refl].
Qed.

(** X6.  [rwReg16w] returns [False], without a transaction and with the
    buffer untouched, for a block name other than GenConf, DAC and Mon.
    Called without a buffer for one of these blocks it returns [False]
    while no configuration is loaded, and raises [KeyError] once one is
    (the configuration dictionary is empty).  So [writeMon] without bytes
    returns [False] on a new chip object. *)
Theorem rwReg16w_refuses_without_transactions
        {T : Type} {tr : Transport T} (st : state T) (type mode : string) :
  (type ∉ ["GenConf"; "DAC"; "Mon"]%string ->
   forall buf, rwReg16w type buf mode st = (Ok (RFalse, buf), st)) /\
  (type ∈ ["GenConf"; "DAC"; "Mon"]%string ->
   rwReg16w type None mode st
   = if confLoaded st then (Raise KeyError, st) else (Ok (RFalse, None), st)) /\
  (confLoaded st = false -> writeMon None st = (Ok RFalse, st)).
Proof.
  split; [|split].
  - intros Hnot buf. unfold rwReg16w.
    destruct (existsb (String.eqb type) ["GenConf"; "DAC"; "Mon"]%string) eqn:Hex; [|done].
    by apply existsb_eqb_elem in Hex.
  - intros Hin%existsb_eqb_elem. unfold rwReg16w. rewrite Hin. cbn [negb].
    unfold bind, gets. by destruct (confLoaded st).
  - intros Hconf. unfold writeMon, bind, rwReg16w, gets. cbn. by rewrite Hconf.
Qed.

Lemma rwReg16w_refuses_without_transactions_witness :
  rwReg16w "MFE" (Some (bytearray 16)) "r" (init 1 ([] : Rec.log) (fun _ => 0))
  = (Ok (RFalse, Some (bytearray 16)), init 1 ([] : Rec.log) (fun _ => 0)) /\
  writeMon None (init 1 ([] : Rec.log) (fun _ => 0))
  = (Ok RFalse, init 1 ([] : Rec.log) (fun _ => 0)).
Proof.
  split.
  - apply (proj1 (rwReg16w_refuses_without_transactions
                    (init 1 ([] : Rec.log) (fun _ => 0)) "MFE" "r")).
    apply (bool_decide_unpack _). by vm_compute.
  - apply (proj2 (proj2 (rwReg16w_refuses_without_transactions
                           (init 1 ([] : Rec.log) (fun _ => 0)) "DAC" "w"))).
    reflexivity.
Defined.

Section RecTraces.

Implicit Types (st : state Rec.log).

Lemma for_each_app {S A X : Type} (xs ys : list X) (body : X -> A -> M S A) (acc : A) (s : S) :
  for_each (xs ++ ys) body acc s
  = match for_each xs body acc s with
    | (Ok a, s') => for_each ys body a s'
    | (Raise e, s') => (Raise e, s')
    end.
Proof.
  revert acc s. induction xs as [|x xs IH]; intros acc s; [done|].
  cbn [app for_each]. unfold bind.
  destruct (body x acc s) as [[a|e] s']; [apply IH|done].
Qed.

Lemma range_split (n j : nat) :
  (j < n)%nat -> range n = range j ++ Z.of_nat j :: (Z.of_nat <$> seq (S j) (n - S j)).
Proof.
  intros Hj. unfold range.
  replace n with (j + S (n - S j))%nat at 1 by lia.
  rewrite seq_app, fmap_app. cbn. done.
Qed.

Lemma range_elem (n : nat) (x : Z) : x ∈ range n <-> exists j, x = Z.of_nat j /\ (j < n)%nat.
Proof.
  unfold range. rewrite list_elem_of_fmap. split.
  - intros (j & -> & Hj%elem_of_seq). exists j. split; [done|lia].
  - intros (j & -> & Hj). exists j. split; [done|]. apply elem_of_seq. lia.
Qed.

Lemma rec_read (addr : Z) (args : list pyarg) st :
  exists k, read addr args st
            = (Ok (VInt 0), with_draws k (with_dev (dev st ++ [Rec.TxRead addr args]) st)).
Proof.
  unfold read, bind, on_dev, gets, randint. cbn.
  destruct (simReadFlip st).
  - destruct (_ =? 0).
    + eexists. rewrite Z.shiftl_0_l. cbn. reflexivity.
    + eexists. reflexivity.
  - exists (draws st). reflexivity.
Qed.

Lemma rec_rw_byte (mode : string) (m lsb : Z) (k : nat) (buf : list Z) st :
  (k < length buf)%nat ->
  exists buf' j,
    rw_byte mode lsb (Z.of_nat k) buf st
    = (Ok buf',
       with_draws j (with_dev (dev st ++ data_transactions mode (chipid st) buf [(m, lsb, k)]) st)) /\
    length buf' = length buf /\
    (String.eqb mode "r" = false -> buf' = buf /\ j = draws st).
Proof.
  intros Hk. unfold rw_byte, data_transactions. cbn [mbind list_bind app fst snd].
  unfold bind at 1. cbn [cmd]. rewrite getCmdByte_ADD_LSB.
  unfold bind at 1.
  change (write (cmdByte (chipid st) 3) [lsb] st)
    with (Ok 1, with_dev (dev st ++ [Rec.TxWrite (cmdByte (chipid st) 3) [lsb]]) st).
  set (st1 := with_dev (dev st ++ [Rec.TxWrite (cmdByte (chipid st) 3) [lsb]]) st).
  destruct (String.eqb mode "r").
  - unfold bind at 1.
    change (cmd "RD" st1) with (getCmdByte (chipid st) "RD", st1). rewrite getCmdByte_RD.
    unfold bind at 1.
    destruct (rec_read (cmdByte (chipid st) 5) [] st1) as [j Hread].
    rewrite Hread. unfold buf_set. rewrite index_in_range by lia.
    cbn [is_byte Z.leb Z.ltb Z.compare andb]. rewrite Nat2Z.id.
    exists (<[k := 0]> buf), j. split; [|split; [by rewrite length_insert|done]].
    unfold ret. f_equal. cbn. by rewrite <- app_assoc.
  - destruct (lookup_lt_is_Some_2 buf k Hk) as [b Hb].
    unfold bind at 1, buf_get, lift_res.
    rewrite (getitem_lookup buf (Z.of_nat k) b) by (try lia; by rewrite Nat2Z.id).
    unfold bind at 1.
    change (cmd "WR" st1) with (getCmdByte (chipid st) "WR", st1). rewrite getCmdByte_WR.
    exists buf, (draws st). split; [|done].
    rewrite (list_lookup_total_correct _ _ _ Hb).
    unfold bind, write, on_dev, ret. cbn. by rewrite <- app_assoc.
Qed.

Lemma rec_rw_byte_fails (mode : string) (lsb : Z) (k : nat) (buf : list Z) st :
  (length buf <= k)%nat ->
  (rw_byte mode lsb (Z.of_nat k) buf st).1 = Raise IndexError.
Proof.
  intros Hk. unfold rw_byte.
  unfold bind at 1. cbn [cmd]. rewrite getCmdByte_ADD_LSB.
  unfold bind at 1.
  change (write (cmdByte (chipid st) 3) [lsb] st)
    with (Ok 1, with_dev (dev st ++ [Rec.TxWrite (cmdByte (chipid st) 3) [lsb]]) st).
  set (st1 := with_dev (dev st ++ [Rec.TxWrite (cmdByte (chipid st) 3) [lsb]]) st).
  destruct (String.eqb mode "r").
  - unfold bind at 1.
    change (cmd "RD" st1) with (getCmdByte (chipid st) "RD", st1). rewrite getCmdByte_RD.
    unfold bind at 1.
    destruct (rec_read (cmdByte (chipid st) 5) [] st1) as [j Hread].
    rewrite Hread. unfold buf_set, index.
    assert ((Z.of_nat k <? Z.of_nat (length buf)) = false) as -> by (apply Z.ltb_ge; lia).
    assert ((Z.of_nat k <? 0) = false) as -> by (apply Z.ltb_ge; lia).
    by rewrite !andb_false_r.
  - unfold bind at 1, buf_get, lift_res. by rewrite getitem_beyond.
Qed.

(** A loop of [rw_byte] over the recording transport, all indices inside
    the buffer. *)
Lemma rec_loop {X : Type} (mode : string) (xs : list X)
      (body : X -> list Z -> M (state Rec.log) (list Z))
      (col : X -> Z) (idx : X -> nat) (m : Z) :
  (forall x acc st, x ∈ xs -> body x acc st = rw_byte mode (col x) (Z.of_nat (idx x)) acc st) ->
  forall (buf : list Z) st,
    Forall (fun x => (idx x < length buf)%nat) xs ->
    exists buf' j,
      for_each xs body buf st
      = (Ok buf',
         with_draws j
           (with_dev (dev st ++ data_transactions mode (chipid st) buf
                                  ((fun x => (m, col x, idx x)) <$> xs)) st)) /\
      length buf' = length buf /\
      (String.eqb mode "r" = false -> buf' = buf /\ j = draws st).
Proof.
  intros Hbody. induction xs as [|x xs IH]; intros buf st Hxs.
  - exists buf, (draws st). split; [|done].
    cbn. unfold ret. rewrite app_nil_r. by destruct st.
  - apply Forall_cons in Hxs as [Hx Hxs].
    cbn [for_each]. unfold bind at 1. rewrite Hbody by apply list_elem_of_here.
    destruct (rec_rw_byte mode m (col x) (idx x) buf st Hx) as (buf1 & j1 & Hrun1 & Hlen1 & Hw1).
    rewrite Hrun1.
    destruct (IH (fun x' acc st Hx' => Hbody x' acc st (list_elem_of_further _ _ _ Hx'))
                 buf1 (with_draws j1 (with_dev (dev st ++ data_transactions mode (chipid st) buf
                                                        [(m, col x, idx x)]) st)))
      as (buf2 & j2 & Hrun2 & Hlen2 & Hw2).
    { by rewrite Hlen1. }
    rewrite Hrun2. exists buf2, j2. split; [|split; [congruence|]].
    + f_equal. unfold with_draws, with_dev.
      cbn [chipid dev confLoaded bitFlipFound bitFlipResult simReadFlip lastRead
           tcpSocket entropy draws stdout].
      f_equal. rewrite <- app_assoc. f_equal.
      unfold data_transactions.
      destruct (String.eqb mode "r") eqn:Hm; [reflexivity|].
      destruct (Hw1 eq_refl) as [-> _]. reflexivity.
    + intros Hm. destruct (Hw1 Hm) as [-> ->]. destruct (Hw2 Hm) as [-> ->]. done.
Qed.

(** The loop stops with [IndexError] at the first index outside the
    buffer. *)
Lemma rec_loop_fails {X : Type} (mode : string) (xs1 xs2 : list X) (x : X)
      (body : X -> list Z -> M (state Rec.log) (list Z))
      (col : X -> Z) (idx : X -> nat) (buf : list Z) st :
  (forall y acc st, y ∈ xs1 ++ x :: xs2 ->
                    body y acc st = rw_byte mode (col y) (Z.of_nat (idx y)) acc st) ->
  Forall (fun y => (idx y < length buf)%nat) xs1 -> (length buf <= idx x)%nat ->
  (for_each (xs1 ++ x :: xs2) body buf st).1 = Raise IndexError.
Proof.
  intros Hbody Hxs1 Hx. rewrite for_each_app.
  destruct (rec_loop mode xs1 body col idx 0) with (buf := buf) (st := st)
    as (buf1 & j1 & Hrun1 & Hlen1 & _); [|done|].
  { intros y acc s Hy. apply Hbody. apply elem_of_app. by left. }
  rewrite Hrun1. cbn [for_each]. unfold bind at 1.
  rewrite Hbody by (apply elem_of_app; right; apply list_elem_of_here).
  pose proof (rec_rw_byte_fails mode (col x) (idx x) buf1
                (with_draws j1 (with_dev (dev st ++ data_transactions mode (chipid st) buf
                                                       ((fun x => (0, col x, idx x)) <$> xs1)) st)))
    as Hfail.
  destruct (rw_byte _ _ _ _ _) as [[b|e] s']; cbn in Hfail.
  - discriminate Hfail; lia.
  - rewrite Hfail by lia. done.
Qed.

(** [rwReg16w] on the recording transport, past its checks. *)
Lemma rwReg16w_rec (type mode : string) (msb lsb : Z) (buf : list Z) st :
  existsb (String.eqb type) ["GenConf"; "DAC"; "Mon"]%string = true ->
  String.eqb type "GenConf" && (length buf <? 16)%nat = false ->
  (String.eqb type "DAC" || String.eqb type "Mon") && (length buf <? 15)%nat = false ->
  ADDRS !! type = Some (msb, lsb) ->
  exists buf' j,
    rwReg16w type (Some buf) mode st
    = (Ok (RLen (length buf), Some buf'),
       with_draws j
         (with_dev (dev st ++ Rec.TxWrite (cmdByte (chipid st) 2) [msb]
                           :: data_transactions mode (chipid st) buf
                                (reg16_points msb lsb (length buf))) st)) /\
    length buf' = length buf /\
    (String.eqb mode "r" = false -> buf' = buf /\ j = draws st).
Proof.
  intros Htype Hsz1 Hsz2 Ha.
  unfold rwReg16w. rewrite Htype, Hsz1, Hsz2. cbn [negb].
  unfold bind at 1. rewrite (addrs_run type _ _ Ha).
  unfold bind at 1. cbn [cmd]. rewrite getCmdByte_ADD_MSB.
  unfold bind at 1.
  change (write (cmdByte (chipid st) 2) [(msb, lsb).1] st)
    with (Ok 1, with_dev (dev st ++ [Rec.TxWrite (cmdByte (chipid st) 2) [msb]]) st).
  set (st1 := with_dev (dev st ++ [Rec.TxWrite (cmdByte (chipid st) 2) [msb]]) st).
  unfold bind at 1.
  match goal with |- context [for_each ?xs ?body buf st1] =>
    destruct (rec_loop mode xs body (fun i => Z.lor (Z.land lsb 0xF0) i) Z.to_nat msb)
      with (buf := buf) (st := st1) as (buf' & j & Hrun & Hlen & Hw)
  end.
  - intros x acc s Hx%range_nonneg. unfold bind at 1.
    rewrite (addrs_run type _ _ Ha). cbn [snd]. by rewrite Z2Nat.id.
  - apply Forall_forall. intros x (k & -> & Hk)%range_elem. lia.
  - rewrite Hrun. exists buf', j. split; [|done].
    unfold ret. rewrite Hlen. f_equal. unfold st1, with_draws, with_dev. cbn.
    by rewrite <- app_assoc.
Qed.

Lemma enumerate_app {A : Type} (o : Z) (l1 l2 : list A) :
  enumerate o (l1 ++ l2) = enumerate o l1 ++ enumerate (o + Z.of_nat (length l1)) l2.
Proof.
  revert o. induction l1 as [|a l1 IH]; intros o.
  - cbn. by rewrite Z.add_0_r.
  - cbn [app enumerate length]. rewrite IH. do 3 f_equal. lia.
Qed.

Lemma enumerate_elem {A : Type} (o : Z) (l : list A) (p : Z * A) :
  p ∈ enumerate o l -> p.2 ∈ l.
Proof.
  revert o. induction l as [|a l IH]; intros o; cbn [enumerate].
  - by intros ?%elem_of_nil.
  - intros [->|Hp]%elem_of_cons; [apply list_elem_of_here|].
    apply list_elem_of_further. by eapply IH.
Qed.

(** [rwRoTstConf] on the recording transport. *)
Lemma rwRoTstConf_rec (mode : string) (buf : list Z) st :
  (20 <= length buf)%nat ->
  exists buf' j,
    rwRoTstConf buf mode st
    = (Ok (RLen (length buf), buf'),
       with_draws j
         (with_dev (dev st ++ Rec.TxWrite (cmdByte (chipid st) 2) [0x80]
                           :: data_transactions mode (chipid st) buf rotst_points) st)) /\
    length buf' = length buf /\
    (String.eqb mode "r" = false -> buf' = buf /\ j = draws st).
Proof.
  intros Hlen20. unfold rwRoTstConf.
  unfold bind at 1. rewrite (addrs_run "RoTstConf" (0x80, 0x40)) by reflexivity.
  unfold bind at 1. cbn [cmd]. rewrite getCmdByte_ADD_MSB.
  unfold bind at 1.
  change (write (cmdByte (chipid st) 2) [(0x80, 0x40).1] st)
    with (Ok 1, with_dev (dev st ++ [Rec.TxWrite (cmdByte (chipid st) 2) [0x80]]) st).
  set (st1 := with_dev (dev st ++ [Rec.TxWrite (cmdByte (chipid st) 2) [0x80]]) st).
  unfold bind at 1. rewrite rotst_loop.
  destruct (rec_loop mode (enumerate 0x40 (range 20))
              (fun (p : Z * Z) acc => rw_byte mode p.1 p.2 acc)
              fst (fun p => Z.to_nat p.2) 0x80)
    with (buf := buf) (st := st1) as (buf' & j & Hrun & Hlen & Hw).
  - intros x acc s Hx%enumerate_elem%range_nonneg. by rewrite Z2Nat.id.
  - apply Forall_forall. intros x (k & Hk & Hk20)%enumerate_elem%range_elem.
    rewrite Hk. lia.
  - rewrite Hrun. exists buf', j. split; [|done].
    unfold ret. cbn [snd]. rewrite Hlen. f_equal. unfold st1, with_draws, with_dev. cbn.
    by rewrite <- app_assoc.
Qed.

Lemma rwRoTstConf_rec_short (mode : string) (buf : list Z) st :
  (length buf < 20)%nat -> (rwRoTstConf buf mode st).1 = Raise IndexError.
Proof.
  intros Hshort. unfold rwRoTstConf.
  unfold bind at 1. rewrite (addrs_run "RoTstConf" (0x80, 0x40)) by reflexivity.
  unfold bind at 1. cbn [cmd]. rewrite getCmdByte_ADD_MSB.
  unfold bind at 1.
  change (write (cmdByte (chipid st) 2) [(0x80, 0x40).1] st)
    with (Ok 1, with_dev (dev st ++ [Rec.TxWrite (cmdByte (chipid st) 2) [0x80]]) st).
  set (st1 := with_dev (dev st ++ [Rec.TxWrite (cmdByte (chipid st) 2) [0x80]]) st).
  unfold bind at 1. rewrite rotst_loop.
  rewrite (range_split 20 (length buf)) by done. rewrite enumerate_app. cbn [enumerate].
  match goal with |- context [for_each ?l ?f buf st1] =>
    assert (Hfail : (for_each l f buf st1).1 = Raise IndexError)
  end.
  { apply (rec_loop_fails mode _ _ _ _ fst (fun p => Z.to_nat p.2)).
    - intros y acc s Hy. assert (0 <= y.2); [|by rewrite Z2Nat.id].
      apply elem_of_app in Hy as [Hy|Hy].
      + by apply enumerate_elem, range_nonneg in Hy.
      + apply elem_of_cons in Hy as [->|Hy]; [cbn; lia|].
        apply enumerate_elem in Hy. apply list_elem_of_fmap in Hy as (k & -> & _). lia.
    - apply Forall_forall. intros x (k & Hk & Hkn)%enumerate_elem%range_elem.
      rewrite Hk. lia.
    - cbn. lia. }
  match type of Hfail with (?t).1 = _ =>
    destruct t as [[b|e] s']; cbn in Hfail; [discriminate Hfail|]
  end.
  injection Hfail as ->. reflexivity.
Qed.

End RecTraces.

Section RecMFE.

Implicit Types (st : state Rec.log).

(** The regions of [rwMFE] over the recording transport, every frame of
    every region inside the buffer. *)
Lemma rwMFE_rec_regions (mode : string) (regions : list Z) :
  forall (buf : list Z) st,
    Forall (fun r => 0 <= r /\ (Z.to_nat (r * 8 + 7) < length buf)%nat) regions ->
    exists buf' j,
      for_each regions
               (fun region acc =>
                  let* a := addrs "MFE" in
                  let* c := cmd "ADD_MSB" in
                  write c [Z.lor (Z.land a.1 0x80) (Z.land region 0x3F)] >>
                  for_each (range 8)
                           (fun frame acc' =>
                              let* a := addrs "MFE" in
                              rw_byte mode (Z.lor (Z.land a.2 0xF8) (Z.land frame 0x7))
                                      (region * 8 + frame) acc')
                           acc)
               buf st
      = (Ok buf',
         with_draws j
           (with_dev (dev st ++ mfe_transactions mode (chipid st) buf regions) st)) /\
      length buf' = length buf /\
      (String.eqb mode "r" = false -> buf' = buf /\ j = draws st).
Proof.
  induction regions as [|r regions IH]; intros buf st Hrs.
  - exists buf, (draws st). split; [|done].
    cbn. unfold ret. rewrite app_nil_r. by destruct st.
  - apply Forall_cons in Hrs as [[Hr Hr7] Hrs].
    cbn [for_each]. unfold bind at 1. unfold bind at 1.
    rewrite (addrs_run "MFE" (0x80, 0x00)) by reflexivity.
    unfold bind at 1. cbn [cmd]. rewrite getCmdByte_ADD_MSB.
    unfold bind at 1.
    set (row := Z.lor (Z.land 0x80 0x80) (Z.land r 0x3F)).
    change (write (cmdByte (chipid st) 2) [Z.lor (Z.land (0x80, 0x00).1 0x80) (Z.land r 0x3F)] st)
      with (Ok 1, with_dev (dev st ++ [Rec.TxWrite (cmdByte (chipid st) 2) [row]]) st).
    cbv beta iota.
    set (st1 := with_dev (dev st ++ [Rec.TxWrite (cmdByte (chipid st) 2) [row]]) st).
    match goal with |- context [for_each (range 8) ?body buf st1] =>
      destruct (rec_loop mode (range 8) body
                  (fun frame => Z.lor (Z.land 0x00 0xF8) (Z.land frame 0x7))
                  (fun frame => Z.to_nat (r * 8 + frame)) row)
        with (buf := buf) (st := st1) as (buf1 & j1 & Hrun1 & Hlen1 & Hw1)
    end.
    + intros x acc s Hx%range_nonneg. unfold bind at 1.
      rewrite (addrs_run "MFE" (0x80, 0x00)) by reflexivity. cbn [snd].
      by rewrite Z2Nat.id by lia.
    + apply Forall_forall. intros x (k & -> & Hk)%range_elem. lia.
    + rewrite Hrun1.
      match goal with |- context [for_each regions ?body buf1 ?s] =>
        destruct (IH buf1 s) as (buf2 & j2 & Hrun2 & Hlen2 & Hw2)
      end.
      { rewrite Hlen1. exact Hrs. }
      rewrite Hrun2. exists buf2, j2. split; [|split; [congruence|]].
      * f_equal. unfold st1, with_draws, with_dev.
        cbn [chipid dev confLoaded bitFlipFound bitFlipResult simReadFlip lastRead
             tcpSocket entropy draws stdout].
        f_equal. rewrite <- !app_assoc. f_equal.
        unfold mfe_transactions. rewrite bind_cons. cbn [app]. f_equal.
        unfold mfe_region_points, data_transactions.
        destruct (String.eqb mode "r") eqn:Hm; [reflexivity|].
        destruct (Hw1 eq_refl) as [-> _]. reflexivity.
      * intros Hm. destruct (Hw1 Hm) as [-> ->]. destruct (Hw2 Hm) as [-> ->]. done.
Qed.

Lemma rwMFE_rec (mode : string) (buf : list Z) st :
  (512 <= length buf)%nat ->
  exists buf' j,
    rwMFE buf mode st
    = (Ok (RLen (length buf), buf'),
       with_draws j
         (with_dev (dev st ++ mfe_transactions mode (chipid st) buf (range 64)) st)) /\
    length buf' = length buf /\
    (String.eqb mode "r" = false -> buf' = buf /\ j = draws st).
Proof.
  intros Hlen. unfold rwMFE. unfold bind at 1.
  destruct (rwMFE_rec_regions mode (range 64) buf st) as (buf' & j & Hrun & Hlen' & Hw).
  { apply Forall_forall. intros r (k & -> & Hk)%range_elem. lia. }
  rewrite Hrun. exists buf', j. split; [|done]. unfold ret. by rewrite Hlen'.
Qed.

Lemma rwMFE_rec_short (mode : string) (buf : list Z) st :
  (length buf < 512)%nat -> (rwMFE buf mode st).1 = Raise IndexError.
Proof.
  intros Hshort.
  pose proof (Nat.div_mod_eq (length buf) 8) as Hdm.
  pose proof (Nat.mod_upper_bound (length buf) 8 ltac:(lia)) as Hmod.
  set (r0 := (length buf / 8)%nat) in *. set (f0 := (length buf mod 8)%nat) in *.
  assert (Hr0 : (r0 < 64)%nat) by lia.
  unfold rwMFE. unfold bind at 1.
  rewrite (range_split 64 r0) by done. rewrite for_each_app.
  match goal with |- context [for_each (range r0) ?body buf st] =>
    destruct (rwMFE_rec_regions mode (range r0) buf st) as (buf1 & j1 & Hrun1 & Hlen1 & _)
  end.
  { apply Forall_forall. intros r (k & -> & Hk)%range_elem. lia. }
  rewrite Hrun1. cbn [for_each]. unfold bind at 1. unfold bind at 1.
  rewrite (addrs_run "MFE" (0x80, 0x00)) by reflexivity.
  unfold bind at 1. cbn [cmd]. rewrite getCmdByte_ADD_MSB.
  unfold bind at 1.
  match goal with |- context [write ?c ?args ?s] =>
    change (write c args s) with (Ok 1, with_dev (dev s ++ [Rec.TxWrite c args]) s);
    cbv beta iota;
    set (st2 := with_dev (dev s ++ [Rec.TxWrite c args]) s)
  end.
  rewrite (range_split 8 f0) by done.
  match goal with |- context [for_each (range f0 ++ ?x :: ?xs2) ?body buf1 st2] =>
    assert (Hfail : (for_each (range f0 ++ x :: xs2) body buf1 st2).1 = Raise IndexError)
  end.
  { apply (rec_loop_fails mode _ _ _ _
             (fun frame => Z.lor (Z.land 0x00 0xF8) (Z.land frame 0x7))
             (fun frame => Z.to_nat (Z.of_nat r0 * 8 + frame))).
    - intros y acc s Hy. unfold bind at 1.
      rewrite (addrs_run "MFE" (0x80, 0x00)) by reflexivity. cbn [snd].
      assert (0 <= y); [|by rewrite Z2Nat.id by lia].
      apply elem_of_app in Hy as [Hy|Hy]; [by apply range_nonneg in Hy|].
      apply elem_of_cons in Hy as [->|Hy]; [lia|].
      apply list_elem_of_fmap in Hy as (k & -> & _). lia.
    - apply Forall_forall. intros x (k & -> & Hk)%range_elem. lia.
    - lia. }
  match type of Hfail with (?t).1 = _ =>
    destruct t as [[b|e] s']; cbn in Hfail; [discriminate Hfail|]
  end.
  injection Hfail as ->. reflexivity.
Qed.

End RecMFE.

Section RecStops.

Implicit Types (st : state Rec.log).

(** [rw_byte] at an index beyond the buffer: the column is selected, a
    read is made, and then the buffer access raises. *)
Lemma rec_rw_byte_stops (mode : string) (lsb : Z) (k : nat) (buf : list Z) st :
  (length buf <= k)%nat ->
  exists j,
    rw_byte mode lsb (Z.of_nat k) buf st
    = (Raise IndexError,
       with_draws j
         (with_dev (dev st ++ Rec.TxWrite (cmdByte (chipid st) 3) [lsb]
                           :: (if String.eqb mode "r"
                               then [Rec.TxRead (cmdByte (chipid st) 5) []] else [])) st)) /\
    (String.eqb mode "r" = false -> j = draws st).
Proof.
  intros Hk. unfold rw_byte.
  unfold bind at 1. cbn [cmd]. rewrite getCmdByte_ADD_LSB.
  unfold bind at 1.
  change (write (cmdByte (chipid st) 3) [lsb] st)
    with (Ok 1, with_dev (dev st ++ [Rec.TxWrite (cmdByte (chipid st) 3) [lsb]]) st).
  set (st1 := with_dev (dev st ++ [Rec.TxWrite (cmdByte (chipid st) 3) [lsb]]) st).
  destruct (String.eqb mode "r").
  - unfold bind at 1.
    change (cmd "RD" st1) with (getCmdByte (chipid st) "RD", st1). rewrite getCmdByte_RD.
    unfold bind at 1.
    destruct (rec_read (cmdByte (chipid st) 5) [] st1) as [j Hread].
    rewrite Hread. unfold buf_set, index.
    assert ((Z.of_nat k <? Z.of_nat (length buf)) = false) as -> by (apply Z.ltb_ge; lia).
    assert ((Z.of_nat k <? 0) = false) as -> by (apply Z.ltb_ge; lia).
    rewrite !andb_false_r. exists j. split; [|done].
    unfold raise. f_equal. unfold st1, with_draws, with_dev. cbn. by rewrite <- app_assoc.
  - unfold bind at 1, buf_get, lift_res. rewrite getitem_beyond by done.
    exists (draws st). split; [|done]. by destruct st.
Qed.

(** A loop of [rw_byte] whose index leaves the buffer at [x]. *)
Lemma rec_loop_stops {X : Type} (mode : string) (xs1 xs2 : list X) (x : X)
      (body : X -> list Z -> M (state Rec.log) (list Z))
      (col : X -> Z) (idx : X -> nat) (m : Z) (buf : list Z) st :
  (forall y acc st, y ∈ xs1 ++ x :: xs2 ->
                    body y acc st = rw_byte mode (col y) (Z.of_nat (idx y)) acc st) ->
  Forall (fun y => (idx y < length buf)%nat) xs1 -> (length buf <= idx x)%nat ->
  exists j,
    for_each (xs1 ++ x :: xs2) body buf st
    = (Raise IndexError,
       with_draws j
         (with_dev (dev st ++ data_transactions mode (chipid st) buf
                                ((fun y => (m, col y, idx y)) <$> xs1)
                           ++ Rec.TxWrite (cmdByte (chipid st) 3) [col x]
                           :: (if String.eqb mode "r"
                               then [Rec.TxRead (cmdByte (chipid st) 5) []] else [])) st)) /\
    (String.eqb mode "r" = false -> j = draws st).
Proof.
  intros Hbody Hxs1 Hx. rewrite for_each_app.
  destruct (rec_loop mode xs1 body col idx m) with (buf := buf) (st := st)
    as (buf1 & j1 & Hrun1 & Hlen1 & Hw1); [|done|].
  { intros y acc s Hy. apply Hbody. apply elem_of_app. by left. }
  rewrite Hrun1. cbn [for_each]. unfold bind at 1.
  rewrite Hbody by (apply elem_of_app; right; apply list_elem_of_here).
  match goal with |- context [rw_byte mode (col x) (Z.of_nat (idx x)) buf1 ?s] =>
    destruct (rec_rw_byte_stops mode (col x) (idx x) buf1 s) as (j & Hstop & Hw2); [lia|]
  end.
  rewrite Hstop. exists j. split.
  - f_equal. unfold with_draws, with_dev.
    cbn [chipid dev confLoaded bitFlipFound bitFlipResult simReadFlip lastRead
         tcpSocket entropy draws stdout].
    f_equal. by rewrite <- app_assoc.
  - intros Hm. destruct (Hw1 Hm) as [_ ->]. by rewrite (Hw2 Hm).
Qed.

Lemma take_range (n j : nat) : (j <= n)%nat -> take j (range n) = range j.
Proof.
  intros Hj. unfold range. rewrite <- fmap_take, take_seq. do 2 f_equal. lia.
Qed.

(** [rwMFE] on a buffer of fewer than 512 bytes. *)
Lemma rwMFE_rec_stops (mode : string) (buf : list Z) st :
  (length buf < 512)%nat ->
  exists j,
    rwMFE buf mode st
    = (Raise IndexError,
       with_draws j
         (with_dev (dev st ++ mfe_short_transactions mode (chipid st) buf) st)) /\
    (String.eqb mode "r" = false -> j = draws st).
Proof.
  intros Hshort. unfold mfe_short_transactions.
  pose proof (Nat.div_mod_eq (length buf) 8) as Hdm.
  pose proof (Nat.mod_upper_bound (length buf) 8 ltac:(lia)) as Hmod.
  set (r0 := (length buf / 8)%nat) in *. set (f0 := (length buf mod 8)%nat) in *.
  assert (Hr0 : (r0 < 64)%nat) by lia.
  unfold rwMFE. unfold bind at 1.
  rewrite (range_split 64 r0) by done. rewrite for_each_app.
  match goal with |- context [for_each (range r0) ?body buf st] =>
    destruct (rwMFE_rec_regions mode (range r0) buf st) as (buf1 & j1 & Hrun1 & Hlen1 & Hw1)
  end.
  { apply Forall_forall. intros r (k & -> & Hk)%range_elem. lia. }
  rewrite Hrun1. cbn [for_each]. unfold bind at 1. unfold bind at 1.
  rewrite (addrs_run "MFE" (0x80, 0x00)) by reflexivity.
  unfold bind at 1. cbn [cmd]. rewrite getCmdByte_ADD_MSB.
  unfold bind at 1.
  set (row := Z.lor (Z.land 0x80 0x80) (Z.land (Z.of_nat r0) 0x3F)).
  match goal with |- context [write ?c ?args ?s] =>
    change (write c args s) with (Ok 1, with_dev (dev s ++ [Rec.TxWrite c [row]]) s);
    cbv beta iota;
    set (st2 := with_dev (dev s ++ [Rec.TxWrite c [row]]) s)
  end.
  rewrite (range_split 8 f0) by done.
  match goal with |- context [for_each (range f0 ++ ?x :: ?xs2) ?body buf1 st2] =>
    destruct (rec_loop_stops mode (range f0) xs2 x body
                (fun frame => Z.lor (Z.land 0x00 0xF8) (Z.land frame 0x7))
                (fun frame => Z.to_nat (Z.of_nat r0 * 8 + frame)) row buf1 st2)
      as (j & Hstop & Hw2)
  end.
  - intros y acc s Hy. unfold bind at 1.
    rewrite (addrs_run "MFE" (0x80, 0x00)) by reflexivity. cbn [snd].
    assert (0 <= y); [|by rewrite Z2Nat.id by lia].
    apply elem_of_app in Hy as [Hy|Hy]; [by apply range_nonneg in Hy|].
    apply elem_of_cons in Hy as [->|Hy]; [lia|].
    apply list_elem_of_fmap in Hy as (k & -> & _). lia.
  - apply Forall_forall. intros x (k & -> & Hk)%range_elem. lia.
  - lia.
  - rewrite Hstop. exists j. split.
    + f_equal. unfold st2, with_draws, with_dev.
      cbn [chipid dev confLoaded bitFlipFound bitFlipResult simReadFlip lastRead
           tcpSocket entropy draws stdout].
      f_equal. rewrite <- !app_assoc. f_equal. cbn [app]. f_equal.
      unfold mfe_region_points. rewrite <- fmap_take, take_range by lia.
      f_equal. unfold data_transactions.
      destruct (String.eqb mode "r") eqn:Hm; [reflexivity|].
      destruct (Hw1 eq_refl) as [-> _]. reflexivity.
    + intros Hm. destruct (Hw1 Hm) as [_ Hj1]. rewrite (Hw2 Hm). cbn. done.
Qed.

End RecStops.

(** C5, as the code has it.  [rwReg16w] on GenConf, DAC or Mon with a
    buffer shorter than the block (16, 15, 15 bytes) returns [False] and
    leaves the chip object, the transport with it, as it was: no write and
    no read reaches the transport, whatever the transport is.  [rwMFE] has
    no size check, and a buffer of fewer than 512 bytes is not tolerated:
    the call transfers the bytes the buffer has, region by region, selects
    the address of the first byte beyond the buffer (and reads it, in read
    mode), and ends in [IndexError].  For every buffer, whatever its
    length, [rwMFE] never returns [False], and it issues transactions, the
    first two being ADD_MSB [0x80] and ADD_LSB [0x00]. *)
Theorem short_buffer_rejected_before_any_transaction :
  (forall (T : Type) (tr : Transport T) (st : state T)
          (type : string) (buf : list Z) (mode : string),
     (type = "GenConf"%string /\ (length buf < 16)%nat) \/
     ((type = "DAC"%string \/ type = "Mon"%string) /\ (length buf < 15)%nat) ->
     rwReg16w type (Some buf) mode st = (Ok (RFalse, Some buf), st)) /\
  (forall (st : state Rec.log) (buf : list Z) (mode : string),
     (length buf < 512)%nat ->
     exists j,
       rwMFE buf mode st
       = (Raise IndexError,
          with_draws j
            (with_dev (dev st ++ mfe_short_transactions mode (chipid st) buf) st)) /\
       (String.eqb mode "r" = false -> j = draws st)) /\
  (forall (st : state Rec.log) (buf : list Z) (mode : string),
     (forall b, (rwMFE buf mode st).1 <> Ok (RFalse, b)) /\
     extends (with_dev (dev st ++ [Rec.TxWrite (cmdByte (chipid st) 2) [0x80];
                                   Rec.TxWrite (cmdByte (chipid st) 3) [0x00]]) st)
             (rwMFE buf mode st).2).
Proof.
  split; [|split].
  - intros T tr st type buf mode [[-> Hlen]|[[->| ->] Hlen]];
      apply Nat.ltb_lt in Hlen; unfold rwReg16w;
      cbn [existsb negb orb andb String.eqb Ascii.eqb Bool.eqb];
      by rewrite Hlen.
  - intros st buf mode. apply rwMFE_rec_stops.
  - intros st buf mode. split; [|apply rwMFE_first_transactions].
    intros b. unfold rwMFE, bind.
    match goal with |- context [for_each ?xs ?f ?a ?s] => destruct (for_each xs f a s) as [[b'|e] st'] end;
      cbn; congruence.
Qed.

Lemma short_buffer_rejected_before_any_transaction_witness :
  let st := init 1 ([] : Rec.log) (fun _ => 0) in
  rwReg16w "GenConf" (Some (bytearray 15)) "w" st = (Ok (RFalse, Some (bytearray 15)), st) /\
  rwReg16w "Mon" (Some (bytearray 14)) "r" st = (Ok (RFalse, Some (bytearray 14)), st) /\
  exists j, rwMFE (bytearray 9) "r" st
            = (Raise IndexError,
               with_draws j (with_dev (mfe_short_transactions "r" 1 (bytearray 9)) st)).
Proof.
  split; [|split].
  - apply (proj1 short_buffer_rejected_before_any_transaction).
    left. split; [reflexivity|]. cbn. lia.
  - apply (proj1 short_buffer_rejected_before_any_transaction).
    right. split; [by right|]. cbn. lia.
  - destruct (proj1 (proj2 short_buffer_rejected_before_any_transaction)
                    (init 1 ([] : Rec.log) (fun _ => 0)) (bytearray 9) "r"
                    ltac:(cbn; lia)) as (j & Hrun & _).
    exists j. exact Hrun.
Defined.

(** X7.  The transactions of [rwReg16w] on a block of GenConf, DAC or Mon
    with a buffer of at least the block's length: one ADD_MSB with the row
    of the block, then, for every index of the buffer (all of them, also
    beyond the length of the block), one ADD_LSB with the base column or-ed
    with the index, followed by one RD in read mode or by one WR with the
    byte at that index in any other mode.  The call returns the length of
    the buffer; a write leaves the buffer and the random generator as they
    were. *)
Theorem rwReg16w_wire_sequence (st : state Rec.log) (type mode : string)
        (msb lsb : Z) (buf : list Z) :
  type ∈ ["GenConf"; "DAC"; "Mon"]%string ->
  ADDRS !! type = Some (msb, lsb) ->
  ((if String.eqb type "GenConf" then 16 else 15) <= length buf)%nat ->
  exists buf' j,
    rwReg16w type (Some buf) mode st
    = (Ok (RLen (length buf), Some buf'),
       with_draws j
         (with_dev (dev st ++ Rec.TxWrite (cmdByte (chipid st) 2) [msb]
                           :: data_transactions mode (chipid st) buf
                                (reg16_points msb lsb (length buf))) st)) /\
    length buf' = length buf /\
    (String.eqb mode "r" = false -> buf' = buf /\ j = draws st).
Proof.
  intros Htype Ha Hlen. apply rwReg16w_rec; [by apply existsb_eqb_elem| | |done].
  - destruct (String.eqb type "GenConf"); [|done].
    rewrite andb_true_l. apply Nat.ltb_ge. lia.
  - destruct (String.eqb type "GenConf") eqn:Hg.
    + apply String.eqb_eq in Hg as ->. done.
    + destruct (String.eqb type "DAC" || String.eqb type "Mon"); [|done].
      rewrite andb_true_l. apply Nat.ltb_ge. lia.
Qed.

Lemma rwReg16w_wire_sequence_witness :
  exists buf' j,
    rwReg16w "GenConf" (Some (bytearray 17)) "r" (init 1 ([] : Rec.log) (fun _ => 0))
    = (Ok (RLen 17, Some buf'),
       with_draws j
         (with_dev (Rec.TxWrite (cmdByte 1 2) [0x00]
                    :: data_transactions "r" 1 (bytearray 17) (reg16_points 0x00 0x20 17))
                   (init 1 ([] : Rec.log) (fun _ => 0)))).
Proof.
  destruct (rwReg16w_wire_sequence (init 1 ([] : Rec.log) (fun _ => 0)) "GenConf" "r"
              0x00 0x20 (bytearray 17)
              ltac:(apply (bool_decide_unpack _); by vm_compute) eq_refl
              ltac:(cbn; lia)) as (buf' & j & Hrun & _).
  exists buf', j. exact Hrun.
Defined.

(** X8.  [rwRoTstConf] transfers exactly twenty bytes whatever the length
    of the buffer: one ADD_MSB with row 0x80, then for the columns 0x40 to
    0x53 one ADD_LSB and one RD or WR each.  It returns the length of the
    buffer, not twenty.  A buffer of fewer than twenty bytes ends the call
    with [IndexError]. *)
Theorem rwRoTstConf_transfers_twenty_bytes (st : state Rec.log) (mode : string) (buf : list Z) :
  ((20 <= length buf)%nat ->
   exists buf' j,
     rwRoTstConf buf mode st
     = (Ok (RLen (length buf), buf'),
        with_draws j
          (with_dev (dev st ++ Rec.TxWrite (cmdByte (chipid st) 2) [0x80]
                            :: data_transactions mode (chipid st) buf rotst_points) st)) /\
     length buf' = length buf /\
     (String.eqb mode "r" = false -> buf' = buf /\ j = draws st)) /\
  ((length buf < 20)%nat -> (rwRoTstConf buf mode st).1 = Raise IndexError).
Proof. split; [apply rwRoTstConf_rec|apply rwRoTstConf_rec_short]. Qed.

Lemma rwRoTstConf_transfers_twenty_bytes_witness :
  (rwRoTstConf (bytearray 19) "r" (init 1 ([] : Rec.log) (fun _ => 0))).1 = Raise IndexError /\
  (rwRoTstConf (bytearray 25) "w" (init 1 ([] : Rec.log) (fun _ => 0))).1
  = Ok (RLen 25, bytearray 25).
Proof.
  split.
  - apply (proj2 (rwRoTstConf_transfers_twenty_bytes
                    (init 1 ([] : Rec.log) (fun _ => 0)) "r" (bytearray 19))).
    cbn. lia.
  - destruct (proj1 (rwRoTstConf_transfers_twenty_bytes
                       (init 1 ([] : Rec.log) (fun _ => 0)) "w" (bytearray 25))
                    ltac:(cbn; lia)) as (buf' & j & Hrun & _ & Hw).
    destruct (Hw eq_refl) as [-> _]. by rewrite Hrun.
Defined.

(** X9.  [rwMFE] visits the 64 regions in order: one ADD_MSB with the row
    0x80 or-ed with the region, then the eight frames of the region, each
    with one ADD_LSB and one RD or WR on the byte at index
    [region * 8 + frame].  It returns the length of the buffer.  A buffer
    of fewer than 512 bytes ends the call with [IndexError]. *)
Theorem rwMFE_needs_512_bytes (st : state Rec.log) (mode : string) (buf : list Z) :
  ((512 <= length buf)%nat ->
   exists buf' j,
     rwMFE buf mode st
     = (Ok (RLen (length buf), buf'),
        with_draws j
          (with_dev (dev st ++ mfe_transactions mode (chipid st) buf (range 64)) st)) /\
     length buf' = length buf /\
     (String.eqb mode "r" = false -> buf' = buf /\ j = draws st)) /\
  ((length buf < 512)%nat -> (rwMFE buf mode st).1 = Raise IndexError).
Proof. split; [apply rwMFE_rec|apply rwMFE_rec_short]. Qed.

Lemma rwMFE_needs_512_bytes_witness :
  (rwMFE (bytearray 100) "r" (init 1 ([] : Rec.log) (fun _ => 0))).1 = Raise IndexError.
Proof.
  apply (proj2 (rwMFE_needs_512_bytes (init 1 ([] : Rec.log) (fun _ => 0)) "r" (bytearray 100))).
  cbn. lia.
Defined.

Section SimHeads.

Import Sim.

Context (st0 : state device) (Hflip : simReadFlip st0 = false).

Lemma read_loop_heads {X : Type} (xs : list X) (body : X -> list Z -> M (state device) (list Z))
      (col : X -> Z) (idx : X -> nat) (bs : list Z) (m : Z) :
  (forall x acc st, x ∈ xs -> body x acc st = rw_byte "r" (col x) (Z.of_nat (idx x)) acc st) ->
  0 <= m ->
  forall d buf,
    simAddrMSB d = Some m ->
    Forall (fun x => 0 <= col x /\ (idx x < length buf)%nat /\
                     (exists tl, cell (simRegs d) m (col x) = Some (bs !!! idx x :: tl)) /\
                     is_byte (bs !!! idx x) = true) xs ->
    exists d', for_each xs body buf (with_dev d st0)
               = (Ok (reads (idx <$> xs) bs buf), with_dev d' st0) /\
               simAddrMSB d' = Some m /\ simRegs d' = simRegs d.
Proof.
  intros Hbody Hm. induction xs as [|x xs IH]; intros d buf HM Hxs.
  - by exists d.
  - apply Forall_cons in Hxs as [(Hcol & Hidx & [tl Hcell] & Hbyte) Hxs].
    cbn [for_each]. unfold bind at 1.
    rewrite Hbody by apply list_elem_of_here.
    rewrite (rw_byte_read st0 Hflip d m (col x) (idx x) buf (bs !!! idx x) tl) by done.
    destruct (IH (fun x' acc st Hx => Hbody x' acc st (list_elem_of_further _ _ _ Hx))
                 (Device (simRegs d) (Some m) (Some (col x)))
                 (<[idx x := bs !!! idx x]> buf))
      as (d' & Hrun & HM' & Hregs); [done| |].
    { eapply Forall_impl; [exact Hxs|]. intros y (H1 & H2 & H3 & H4).
      by rewrite length_insert. }
    exists d'. by repeat split.
Qed.

Lemma cells_okb_cell (g : list (list (list Z))) (m l : Z) :
  grid_ok g -> cells_okb g = true -> 0 <= m < 256 -> 0 <= l < 256 ->
  exists tl, cell g m l = Some (peek g m l :: tl) /\ is_byte (peek g m l) = true.
Proof.
  intros Hg Hc Hm Hl. destruct (grid_row g m Hg Hm) as (row & Hrow & Hlen).
  destruct (lookup_lt_is_Some_2 row (Z.to_nat l)) as [c Hcell]; [lia|].
  assert (Hcl : cell g m l = Some c) by (unfold cell; by rewrite Hrow).
  unfold cells_okb in Hc. rewrite forallb_forall in Hc.
  specialize (Hc row (proj1 (list_elem_of_In _ _) (list_elem_of_lookup_2 _ _ _ Hrow))).
  rewrite forallb_forall in Hc.
  specialize (Hc c (proj1 (list_elem_of_In _ _) (list_elem_of_lookup_2 _ _ _ Hcell))).
  unfold peek. rewrite Hcl. destruct c as [|b tl]; [done|]. by exists tl.
Qed.

(** The read loop over any cells that start with a byte. *)
Lemma read_loop_peek {X : Type} (xs : list X)
      (body : X -> list Z -> M (state device) (list Z))
      (col : X -> Z) (idx : X -> nat) (bs : list Z) (m : Z) (d : device) (buf : list Z) :
  (forall x acc st, x ∈ xs -> body x acc st = rw_byte "r" (col x) (Z.of_nat (idx x)) acc st) ->
  points_ok (length buf) ((fun x => (m, col x, idx x)) <$> xs) ->
  grid_ok (simRegs d) -> cells_okb (simRegs d) = true ->
  (forall p : point, p ∈ (fun x => (m, col x, idx x)) <$> xs ->
                     bs !!! p.2 = peek (simRegs d) p.1.1 p.1.2) ->
  simAddrMSB d = Some m ->
  exists d', for_each xs body buf (with_dev d st0)
             = (Ok (reads (snd <$> ((fun x => (m, col x, idx x)) <$> xs)) bs buf),
                with_dev d' st0) /\
             simAddrMSB d' = Some m /\ simRegs d' = simRegs d.
Proof.
  intros Hbody Hok Hg Hc Hbs HM.
  rewrite <- list_fmap_compose.
  destruct xs as [|x0 xs0] eqn:Hxs; [by exists d|]. rewrite <- Hxs in *.
  assert (Hm : 0 <= m < 256).
  { assert (Hp : (m, col x0, idx x0) ∈ (fun x => (m, col x, idx x)) <$> xs).
    { apply (list_elem_of_fmap_2 (fun x => (m, col x, idx x))). rewrite Hxs. left. }
    by pose proof (proj1 (Forall_forall _ _) Hok _ Hp) as [[? _] _]. }
  apply (read_loop_heads xs body col idx bs m Hbody (proj1 Hm) d buf HM).
  apply Forall_forall. intros x Hx.
  assert (Hp : (m, col x, idx x) ∈ (fun x => (m, col x, idx x)) <$> xs)
    by (by apply (list_elem_of_fmap_2 (fun x => (m, col x, idx x)))).
  pose proof (proj1 (Forall_forall _ _) Hok _ Hp) as [[_ Hcol] Hidx]. cbn in Hcol, Hidx.
  destruct (cells_okb_cell (simRegs d) m (col x) Hg Hc Hm Hcol) as (tl & Hcell & Hbyte).
  pose proof (Hbs _ Hp) as Hb. cbn [fst snd] in Hb. rewrite Hb.
  split; [lia|]. split; [done|]. split; [by exists tl|done].
Qed.

Lemma block_bytes_lookup (g : list (list (list Z))) (ps : list point) (n : nat) (p : point) :
  snd <$> ps = seq 0 n -> p ∈ ps -> block_bytes g ps !!! p.2 = peek g p.1.1 p.1.2.
Proof.
  intros Hsnd Hp. apply list_elem_of_lookup_1 in Hp as [i Hi].
  assert (Hi' : (snd <$> ps) !! i = Some p.2).
  { rewrite list_lookup_fmap. exact (f_equal (fmap snd) Hi). }
  rewrite Hsnd in Hi'. apply lookup_seq in Hi' as [Heq _]. cbn in Heq. subst i.
  apply list_lookup_total_correct. unfold block_bytes. rewrite list_lookup_fmap.
  exact (f_equal (fmap (fun p : point => peek g p.1.1 p.1.2)) Hi).
Qed.

Lemma block_bytes_bytes (g : list (list (list Z))) (ps : list point) (n : nat) :
  grid_ok g -> cells_okb g = true -> points_ok n ps ->
  forallb is_byte (block_bytes g ps) = true.
Proof.
  intros Hg Hc Hok. apply forallb_forall. intros b Hb%list_elem_of_In.
  unfold block_bytes in Hb. apply list_elem_of_fmap in Hb as (p & -> & Hp).
  pose proof (proj1 (Forall_forall _ _) Hok _ Hp) as [[Hm Hl] _].
  by destruct (cells_okb_cell g _ _ Hg Hc Hm Hl) as (tl & _ & Hbyte).
Qed.

Lemma reads_block (g : list (list (list Z))) (ps : list point) (n : nat) (buf : list Z) :
  snd <$> ps = seq 0 n -> length buf = n ->
  reads (snd <$> ps) (block_bytes g ps) buf = block_bytes g ps.
Proof.
  intros Hsnd Hlen.
  assert (Hn : length (block_bytes g ps) = n).
  { pose proof (f_equal length Hsnd) as Hl. rewrite length_fmap, length_seq in Hl.
    unfold block_bytes. rewrite length_fmap. exact Hl. }
  apply reads_all; [lia|]. by rewrite Hn, Hsnd.
Qed.

(** [rwReg16w] in read mode over any cells. *)
Lemma rwReg16w_peek (type : string) (msb lsb : Z) (n : nat) (d : device) :
  existsb (String.eqb type) ["GenConf"; "DAC"; "Mon"]%string = true ->
  String.eqb type "GenConf" && (n <? 16)%nat = false ->
  (String.eqb type "DAC" || String.eqb type "Mon") && (n <? 15)%nat = false ->
  ADDRS !! type = Some (msb, lsb) ->
  points_ok n (reg16_points msb lsb n) ->
  snd <$> reg16_points msb lsb n = seq 0 n ->
  grid_ok (simRegs d) -> cells_okb (simRegs d) = true ->
  exists d', rwReg16w type (Some (bytearray n)) "r" (with_dev d st0)
             = (Ok (RLen n, Some (block_bytes (simRegs d) (reg16_points msb lsb n))),
                with_dev d' st0) /\
             simRegs d' = simRegs d.
Proof.
  intros Htype Hsz1 Hsz2 Ha Hok Hsnd Hg Hc.
  assert (Hbuf : length (bytearray n) = n) by apply length_replicate.
  unfold rwReg16w. rewrite Htype, Hbuf, Hsz1, Hsz2. cbn [negb].
  unfold bind at 1. rewrite (addrs_run type _ _ Ha).
  unfold bind at 1. rewrite sim_cmd, getCmdByte_ADD_MSB.
  unfold bind at 1. rewrite sim_write, writeSim_ADD_MSB. cbn [fst snd].
  unfold bind at 1.
  match goal with |- context [for_each ?xs ?body ?buf ?st] =>
    destruct (read_loop_peek xs body (fun i => Z.lor (Z.land lsb 0xF0) i) Z.to_nat
                             (block_bytes (simRegs d) (reg16_points msb lsb n)) msb
                             (Device (simRegs d) (Some msb) (simAddrLSB d)) buf)
      as (d' & Hrun & _ & Hregs)
  end.
  - intros x acc st Hx%range_nonneg. unfold bind at 1.
    rewrite (addrs_run type _ _ Ha). cbn [snd]. by rewrite Z2Nat.id.
  - by rewrite Hbuf.
  - done.
  - done.
  - intros p Hp. by apply (block_bytes_lookup _ _ n).
  - done.
  - rewrite Hrun. exists d'. split; [|exact Hregs].
    unfold ret. fold (reg16_points msb lsb n).
    rewrite (reads_block _ _ n) by done.
    do 3 f_equal. unfold block_bytes, reg16_points, range.
    by rewrite !length_fmap, length_seq.
Qed.

Lemma rwRoTstConf_peek (d : device) :
  grid_ok (simRegs d) -> cells_okb (simRegs d) = true ->
  exists d', rwRoTstConf (bytearray 20) "r" (with_dev d st0)
             = (Ok (RLen 20, block_bytes (simRegs d) rotst_points), with_dev d' st0) /\
             simRegs d' = simRegs d.
Proof.
  intros Hg Hc.
  assert (Hok : points_ok 20 rotst_points) by (apply (bool_decide_unpack _); by vm_compute).
  assert (Hsnd : snd <$> rotst_points = seq 0 20) by (by vm_compute).
  unfold rwRoTstConf.
  unfold bind at 1. rewrite (addrs_run "RoTstConf" (0x80, 0x40)) by reflexivity.
  unfold bind at 1. rewrite sim_cmd, getCmdByte_ADD_MSB.
  unfold bind at 1. rewrite sim_write, writeSim_ADD_MSB. cbn [fst snd].
  unfold bind at 1. rewrite rotst_loop.
  destruct (read_loop_peek (enumerate 0x40 (range 20))
              (fun (p : Z * Z) acc => rw_byte "r" p.1 p.2 acc)
              fst (fun p => Z.to_nat p.2) (block_bytes (simRegs d) rotst_points) 0x80
              (Device (simRegs d) (Some 0x80) (simAddrLSB d)) (bytearray 20))
    as (d' & Hrun & _ & Hregs).
  - intros x acc st Hx.
    assert (0 <= x.2); [|by rewrite Z2Nat.id].
    revert x Hx. apply Forall_forall. apply (bool_decide_unpack _). by vm_compute.
  - exact Hok.
  - done.
  - done.
  - intros p Hp. by apply (block_bytes_lookup _ _ 20).
  - done.
  - rewrite Hrun. exists d'. split; [|exact Hregs].
    unfold ret. cbn [snd]. fold rotst_points.
    by rewrite (reads_block _ _ 20).
Qed.

Lemma rwMFE_regions_peek (bs : list Z) (regions : list Z) :
  Forall (fun r => 0 <= r) regions ->
  forall d buf,
    points_ok (length buf) (mfe_points regions) ->
    grid_ok (simRegs d) -> cells_okb (simRegs d) = true ->
    (forall p : point, p ∈ mfe_points regions -> bs !!! p.2 = peek (simRegs d) p.1.1 p.1.2) ->
    exists d',
      for_each regions
               (fun region acc =>
                  let* a := addrs "MFE" in
                  let* c := cmd "ADD_MSB" in
                  write c [Z.lor (Z.land a.1 0x80) (Z.land region 0x3F)] >>
                  for_each (range 8)
                           (fun frame acc' =>
                              let* a := addrs "MFE" in
                              rw_byte "r" (Z.lor (Z.land a.2 0xF8) (Z.land frame 0x7))
                                      (region * 8 + frame) acc')
                           acc)
               buf (with_dev d st0)
      = (Ok (reads (snd <$> mfe_points regions) bs buf), with_dev d' st0) /\
      simRegs d' = simRegs d.
Proof.
  intros Hnn. induction regions as [|r regions IH]; intros d buf Hok Hg Hc Hcells.
  - by exists d.
  - apply Forall_cons in Hnn as [Hr Hnn].
    unfold mfe_points in Hok, Hcells. rewrite bind_cons in Hok, Hcells.
    apply Forall_app in Hok as [Hok1 Hok2].
    cbn [for_each]. unfold bind at 1. unfold bind at 1.
    rewrite (addrs_run "MFE" (0x80, 0x00)) by reflexivity.
    unfold bind at 1. rewrite sim_cmd, getCmdByte_ADD_MSB.
    unfold bind at 1. rewrite sim_write, writeSim_ADD_MSB. cbn [fst snd].
    match goal with |- context [for_each (range 8) ?body buf ?st] =>
      destruct (read_loop_peek (range 8) body
                  (fun frame => Z.lor (Z.land 0x00 0xF8) (Z.land frame 0x7))
                  (fun frame => Z.to_nat (r * 8 + frame)) bs
                  (Z.lor (Z.land 0x80 0x80) (Z.land r 0x3F))
                  (Device (simRegs d) (Some (Z.lor (Z.land 0x80 0x80) (Z.land r 0x3F)))
                          (simAddrLSB d)) buf)
        as (d1 & Hrun & _ & Hregs)
    end.
    + intros x acc st Hx%range_nonneg. unfold bind at 1.
      rewrite (addrs_run "MFE" (0x80, 0x00)) by reflexivity. cbn [snd].
      by rewrite Z2Nat.id by lia.
    + exact Hok1.
    + done.
    + done.
    + intros p Hp. apply Hcells. apply elem_of_app. by left.
    + done.
    + rewrite Hrun.
      destruct (IH Hnn d1 (reads (snd <$> mfe_region_points r) bs buf))
        as (d' & Hrun' & Hregs').
      { by rewrite reads_length. }
      { by rewrite Hregs. }
      { by rewrite Hregs. }
      { intros p Hp. rewrite Hregs. apply Hcells. apply elem_of_app. by right. }
      unfold mfe_region_points in Hrun'. rewrite Hrun'. exists d'. split.
      * unfold mfe_points. rewrite bind_cons, fmap_app, reads_app. done.
      * by rewrite Hregs'.
Qed.

Lemma rwMFE_peek (d : device) :
  grid_ok (simRegs d) -> cells_okb (simRegs d) = true ->
  exists d', rwMFE (bytearray (64 * 8)) "r" (with_dev d st0)
             = (Ok (RLen 512, block_bytes (simRegs d) (mfe_points (range 64))),
                with_dev d' st0) /\
             simRegs d' = simRegs d.
Proof.
  intros Hg Hc.
  assert (Hnn : Forall (fun r => 0 <= r) (range 64))
    by (apply (bool_decide_unpack _); by vm_compute).
  assert (Hok : points_ok 512 (mfe_points (range 64)))
    by (apply (bool_decide_unpack _); by vm_compute).
  assert (Hsnd : snd <$> mfe_points (range 64) = seq 0 512) by (by vm_compute).
  destruct (rwMFE_regions_peek (block_bytes (simRegs d) (mfe_points (range 64)))
              (range 64) Hnn d (bytearray (64 * 8)))
    as (d' & Hr & Hregs); [done|done|done| |].
  { intros p Hp. by apply (block_bytes_lookup _ _ 512). }
  exists d'. split; [|done]. unfold rwMFE. unfold bind at 1. rewrite Hr.
  rewrite (reads_block _ _ 512) by done.
  unfold ret. by do 3 f_equal.
Qed.

End SimHeads.

Section SimReaders.

Import Sim.

Implicit Types (st : state device).

Lemma reg16_reader (type : string) (msb lsb : Z) (n : nat) st :
  existsb (String.eqb type) ["GenConf"; "DAC"; "Mon"]%string = true ->
  String.eqb type "GenConf" && (n <? 16)%nat = false ->
  (String.eqb type "DAC" || String.eqb type "Mon") && (n <? 15)%nat = false ->
  ADDRS !! type = Some (msb, lsb) ->
  points_ok n (reg16_points msb lsb n) ->
  snd <$> reg16_points msb lsb n = seq 0 n ->
  grid_ok (simRegs (dev st)) -> cells_okb (simRegs (dev st)) = true ->
  simReadFlip st = false ->
  let bs := block_bytes (simRegs (dev st)) (reg16_points msb lsb n) in
  exists d', (let* r := rwReg16w type (Some (bytearray n)) "r" in
              let readBytes := default [] r.2 in
              modify (with_lastRead readBytes) >> ret readBytes) st
             = (Ok bs, with_lastRead bs (with_dev d' st)) /\
             simRegs d' = simRegs (dev st).
Proof.
  intros Htype Hsz1 Hsz2 Ha Hok Hsnd Hg Hc Hflip bs.
  destruct (rwReg16w_peek st Hflip type msb lsb n (dev st)) as (d' & Hr & Hregs); try done.
  rewrite with_dev_id in Hr.
  exists d'. split; [|done]. unfold bind at 1. by rewrite Hr.
Qed.

Lemma reader_spec (f : M (state device) (list Z)) (block : list (list (list Z)) -> list Z) st :
  (f, block) ∈ readers ->
  grid_ok (simRegs (dev st)) -> cells_okb (simRegs (dev st)) = true ->
  simReadFlip st = false ->
  exists st1, f st = (Ok (block (simRegs (dev st))), st1) /\
              simRegs (dev st1) = simRegs (dev st) /\
              simReadFlip st1 = false /\
              stdout st1 = stdout st /\ bitFlipFound st1 = bitFlipFound st /\
              bitFlipResult st1 = bitFlipResult st /\
              forallb is_byte (block (simRegs (dev st))) = true.
Proof.
  intros Hf Hg Hc Hflip. unfold readers in Hf.
  repeat (apply elem_of_cons in Hf as [[= -> ->]|Hf]); [..|by apply elem_of_nil in Hf].
  - destruct (reg16_reader "GenConf" 0x00 0x20 16 st) as (d' & Hr & Hregs); try done.
    { apply (bool_decide_unpack _). by vm_compute. }
    eexists. split; [exact Hr|]. repeat split; try done.
    apply (block_bytes_bytes _ _ 16); [done..|]. apply (bool_decide_unpack _). by vm_compute.
  - destruct (reg16_reader "DAC" 0x00 0x40 15 st) as (d' & Hr & Hregs); try done.
    { apply (bool_decide_unpack _). by vm_compute. }
    eexists. split; [exact Hr|]. repeat split; try done.
    apply (block_bytes_bytes _ _ 15); [done..|]. apply (bool_decide_unpack _). by vm_compute.
  - destruct (reg16_reader "DAC" 0x00 0x40 15 st) as (d' & Hr & Hregs); try done.
    { apply (bool_decide_unpack _). by vm_compute. }
    eexists. split; [exact Hr|]. repeat split; try done.
    apply (block_bytes_bytes _ _ 15); [done..|]. apply (bool_decide_unpack _). by vm_compute.
  - destruct (rwRoTstConf_peek st Hflip (dev st) Hg Hc) as (d' & Hr & Hregs).
    rewrite with_dev_id in Hr.
    exists (with_dev d' st). split; [by unfold readRoTstConf, bind; rewrite Hr|].
    repeat split; try done.
    apply (block_bytes_bytes _ _ 20); [done..|]. apply (bool_decide_unpack _). by vm_compute.
  - destruct (rwMFE_peek st Hflip (dev st) Hg Hc) as (d' & Hr & Hregs).
    rewrite with_dev_id in Hr.
    exists (with_dev d' st). split; [by unfold readMFE, bind; rewrite Hr|].
    repeat split; try done.
    apply (block_bytes_bytes _ _ 512); [done..|]. apply (bool_decide_unpack _). by vm_compute.
Qed.

(** Rounds of the detection loop over a read function that keeps
    returning the reference. *)
Lemma loop_quiet (f : M (state device) (list Z)) (block : list (list (list Z)) -> list Z)
      (update : option (list (M (state device) unit))) (g : list (list (list Z))) (fuel : nat) :
  (f, block) ∈ readers -> grid_ok g -> cells_okb g = true ->
  forall (c : Z) st,
    simRegs (dev st) = g -> simReadFlip st = false ->
    exists st', loop fuel f update (Locals (block g) c) st
                = (Running, Locals (block g) (c + Z.of_nat fuel), st') /\
                simRegs (dev st') = g /\ stdout st' = stdout st /\
                bitFlipFound st' = bitFlipFound st /\
                bitFlipResult st' = bitFlipResult st.
Proof.
  intros Hf Hg Hc. induction fuel as [|fuel IH]; intros c st Hregs Hflip.
  - exists st. cbn [loop]. by rewrite Z.add_0_r.
  - subst g.
    destruct (reader_spec f block st Hf Hg Hc Hflip)
      as (st1 & Hr & Hregs1 & Hflip1 & Hout & Hfound & Hres & Hbytes).
    cbn [loop].
    rewrite (loop_body_equal f update (Locals (block (simRegs (dev st))) c) st st1 Hr Hbytes).
    cbn [reference counter].
    destruct (IH (c + 1) (with_lastRead (block (simRegs (dev st))) st1))
      as (st' & Hloop & H1 & H2 & H3 & H4); [done|done|].
    exists st'. rewrite Hloop. split; [do 3 f_equal; lia|].
    cbn in H2, H3, H4. by rewrite H2, H3, H4.
Qed.

End SimReaders.

(** X10.  On a simulated device whose cells all start with a byte, with
    read corruption off, each read function ([readGenConf], [readDAC],
    [readMon], [readRoTstConf], [readMFE]) returns the first bytes of the
    cells of its block, in block order ([readMon] those of the DAC block),
    leaves the grid as it was, and returns the same bytes when it is called
    again. *)
Theorem sim_reads_return_first_bytes (st : state Sim.device) (f : M (state Sim.device) (list Z))
        (block : list (list (list Z)) -> list Z) :
  let g := Sim.simRegs (dev st) in
  (f, block) ∈ readers ->
  Sim.grid_ok g -> cells_okb g = true -> simReadFlip st = false ->
  exists st1 st2, f st = (Ok (block g), st1) /\
                  Sim.simRegs (dev st1) = g /\
                  f st1 = (Ok (block g), st2).
Proof.
  intros g Hf Hg Hc Hflip.
  destruct (reader_spec f block st Hf Hg Hc Hflip) as (st1 & Hr & Hregs & Hflip1 & _).
  destruct (reader_spec f block st1 Hf) as (st2 & Hr2 & _); [by rewrite Hregs..|done|].
  exists st1, st2. split; [done|]. split; [done|]. by rewrite Hr2, Hregs.
Qed.

Lemma sim_reads_return_first_bytes_witness :
  exists st1 st2, readMon (init 1 Sim.fresh (fun _ => 0)) = (Ok (bytearray 15), st1) /\
                  Sim.simRegs (dev st1) = Sim.simRegs Sim.fresh /\
                  readMon st1 = (Ok (bytearray 15), st2).
Proof.
  exact (sim_reads_return_first_bytes (init 1 Sim.fresh (fun _ => 0)) readMon DAC_bytes
           ltac:(do 2 apply list_elem_of_further; apply list_elem_of_here)
           ltac:(apply (bool_decide_unpack _); by vm_compute)
           eq_refl eq_refl).
Defined.

(** X11.  [runBitFlipSearch] with read corruption off, over any of the
    read functions on a simulated device whose cells all start with a byte:
    however many rounds it is given, the search is still running, has
    printed nothing, has stored no result and has left the grid as it was.
    The corrective functions, when given, are never run. *)
Theorem search_is_quiet_on_stable_device
        (st : state Sim.device) (f : M (state Sim.device) (list Z))
        (block : list (list (list Z)) -> list Z)
        (update : option (list (M (state Sim.device) unit))) (fuel : nat) :
  (f, block) ∈ readers ->
  Sim.grid_ok (Sim.simRegs (dev st)) -> cells_okb (Sim.simRegs (dev st)) = true ->
  exists st', runBitFlipSearch fuel f update false st = (Searching, st') /\
              stdout st' = stdout st /\
              bitFlipFound st' = bitFlipFound st /\
              bitFlipResult st' = bitFlipResult st /\
              Sim.simRegs (dev st') = Sim.simRegs (dev st).
Proof.
  intros Hf Hg Hc. unfold runBitFlipSearch, checkBitFlipLoop.
  destruct (reader_spec f block (with_simReadFlip false st) Hf Hg Hc eq_refl)
    as (st1 & Hr & Hregs & Hflip1 & Hout & Hfound & Hres & Hbytes).
  rewrite Hr. cbv zeta. cbn [lastRead with_lastRead dev with_simReadFlip] in *.
  destruct (loop_quiet f block update (Sim.simRegs (dev st)) fuel Hf Hg Hc 0
              (with_lastRead (block (Sim.simRegs (dev st))) st1))
    as (st' & Hloop & H1 & H2 & H3 & H4); [done|done|].
  rewrite Hloop. exists st'. cbn in H2, H3, H4.
  rewrite H2, H3, H4. by repeat split.
Qed.

Lemma search_is_quiet_on_stable_device_witness :
  exists st', runBitFlipSearch 3 readGenConf None false (init 1 Sim.fresh (fun _ => 0))
              = (Searching, st') /\
              stdout st' = [] /\ bitFlipFound st' = false /\ bitFlipResult st' = [] /\
              Sim.simRegs (dev st') = Sim.simRegs Sim.fresh.
Proof.
  exact (search_is_quiet_on_stable_device (init 1 Sim.fresh (fun _ => 0)) readGenConf
           GenConf_bytes None 3
           ltac:(apply list_elem_of_here)
           ltac:(apply (bool_decide_unpack _); by vm_compute)
           eq_refl).
Defined.

Ltac decide_closed := apply (bool_decide_unpack _); by vm_compute.

Section SimWrites.

Import Sim.

Implicit Types (st : state device) (g : list (list (list Z))).

Lemma cells_okb_Forall g :
  cells_okb g = true <-> Forall (Forall (fun c => cell_okb c = true)) g.
Proof.
  unfold cells_okb. rewrite forallb_forall, Forall_forall.
  split.
  - intros H row Hrow. apply Forall_forall. intros c Hc.
    specialize (H row (proj1 (list_elem_of_In _ _) Hrow)).
    rewrite forallb_forall in H. apply H. by apply list_elem_of_In.
  - intros H row Hrow%list_elem_of_In. apply forallb_forall.
    intros c Hc%list_elem_of_In. specialize (H row Hrow).
    by apply (proj1 (Forall_forall _ _) H).
Qed.

Lemma cells_okb_put g (m l : Z) (v : list Z) :
  cells_okb g = true -> cell_okb v = true -> cells_okb (put m l v g) = true.
Proof.
  rewrite !cells_okb_Forall. intros Hg Hv. unfold put.
  destruct (decide (Z.to_nat m < length g)%nat) as [Hlt|Hge].
  - destruct (lookup_lt_is_Some_2 g _ Hlt) as [row Hrow].
    rewrite (list_lookup_total_correct _ _ _ Hrow).
    apply Forall_insert; [done|].
    pose proof (Forall_lookup_1 _ _ _ _ Hg Hrow) as Hr.
    destruct (decide (Z.to_nat l < length row)%nat) as [Hl|Hl].
    + by apply Forall_insert.
    + by rewrite list_insert_ge by lia.
  - by rewrite list_insert_ge by lia.
Qed.

Lemma cells_okb_writes (ps : list point) (bs : list Z) g :
  points_ok (length bs) ps -> forallb is_byte bs = true ->
  cells_okb g = true -> cells_okb (writes ps bs g) = true.
Proof.
  intros Hok Hbs. revert g. induction ps as [|p ps IH]; intros g Hg; [done|].
  apply Forall_cons in Hok as [[_ Hk] Hok].
  cbn [writes foldl]. apply IH; [done|].
  apply cells_okb_put; [done|]. cbn [cell_okb]. by apply bytes_lookup.
Qed.

Lemma lookups_seq (bs : list Z) : (fun k => bs !!! k) <$> seq 0 (length bs) = bs.
Proof.
  apply list_eq. intros i. rewrite list_lookup_fmap.
  destruct (decide (i < length bs)%nat) as [Hlt|Hge].
  - rewrite lookup_seq_lt by done. cbn.
    symmetry. by apply list_lookup_lookup_total_lt.
  - rewrite lookup_seq_ge by lia. cbn. symmetry. apply lookup_ge_None. lia.
Qed.

(** A block write leaves its bytes in the cells of its block. *)
Lemma written_block (ps : list point) (bs : list Z) g :
  grid_ok g -> points_ok (length bs) ps -> NoDup (fst <$> ps) ->
  snd <$> ps = seq 0 (length bs) ->
  block_bytes (writes ps bs g) ps = bs.
Proof.
  intros Hg Hok Hdup Hsnd.
  transitivity ((fun k => bs !!! k) <$> seq 0 (length bs)); [|apply lookups_seq].
  rewrite <- Hsnd, <- list_fmap_compose.
  unfold block_bytes. apply Forall_fmap_ext_1, Forall_forall. intros p Hp. cbn.
  unfold peek. by rewrite (writes_cell ps bs g p Hg Hok Hdup Hp).
Qed.

(** ... and leaves the cells of a block that lies apart as they were. *)
Lemma other_block (ps qs : list point) (n : nat) (bs : list Z) g :
  points_ok (length bs) qs -> points_ok n ps -> apart ps qs ->
  block_bytes (writes qs bs g) ps = block_bytes g ps.
Proof.
  intros Hq Hp Hapart. unfold block_bytes. apply Forall_fmap_ext_1, Forall_forall. intros p Hin.
  pose proof (proj1 (Forall_forall _ _) Hp _ Hin) as [[Hm Hl] _].
  pose proof (proj1 (Forall_forall _ _) Hapart _ Hin) as Hnot.
  unfold peek. rewrite writes_untouched; [done|done|lia|lia|]. by destruct p as [[??]?].
Qed.

End SimWrites.

Section SimWriters.

Import Sim.

Implicit Types (st : state device) (g : list (list (list Z))).

Lemma blocks_after (qs : list point) (bs : list Z) (i : nat) g :
  [reg16_points 0x00 0x20 16; reg16_points 0x00 0x40 15; rotst_points; mfe_points (range 64)]
    !! i = Some qs ->
  length bs = length qs -> forallb is_byte bs = true ->
  grid_ok g -> cells_okb g = true ->
  blocks (writes qs bs g) = <[i := bs]> (blocks g) /\
  grid_ok (writes qs bs g) /\ cells_okb (writes qs bs g) = true.
Proof.
  intros Hi Hlen Hbs Hg Hc.
  assert (HokG : points_ok 16 (reg16_points 0x00 0x20 16)) by decide_closed.
  assert (HokD : points_ok 15 (reg16_points 0x00 0x40 15)) by decide_closed.
  assert (HokR : points_ok 20 rotst_points) by decide_closed.
  assert (HokM : points_ok 512 (mfe_points (range 64))) by decide_closed.
  assert (Hok : points_ok (length bs) qs).
  { destruct i as [|[|[|[|i]]]]; cbn in Hi; try done; injection Hi as <-;
      by rewrite Hlen. }
  split; [|split; [by apply writes_ok|by apply cells_okb_writes]].
  unfold blocks, GenConf_bytes, DAC_bytes, RoTstConf_bytes, MFE_bytes.
  destruct i as [|[|[|[|i]]]]; cbn in Hi; try done; injection Hi as <-;
    cbn [insert list_insert].
  - f_equal; [|f_equal; [|f_equal; [|f_equal]]].
    + apply written_block; [done|done|decide_closed|by rewrite Hlen].
    + apply (other_block _ _ 15); [done|done|decide_closed].
    + apply (other_block _ _ 20); [done|done|decide_closed].
    + apply (other_block _ _ 512); [done|done|decide_closed].
  - f_equal; [|f_equal; [|f_equal; [|f_equal]]].
    + apply (other_block _ _ 16); [done|done|decide_closed].
    + apply written_block; [done|done|decide_closed|by rewrite Hlen].
    + apply (other_block _ _ 20); [done|done|decide_closed].
    + apply (other_block _ _ 512); [done|done|decide_closed].
  - f_equal; [|f_equal; [|f_equal; [|f_equal]]].
    + apply (other_block _ _ 16); [done|done|decide_closed].
    + apply (other_block _ _ 15); [done|done|decide_closed].
    + apply written_block; [done|done|decide_closed|by rewrite Hlen].
    + apply (other_block _ _ 512); [done|done|decide_closed].
  - f_equal; [|f_equal; [|f_equal; [|f_equal]]].
    + apply (other_block _ _ 16); [done|done|decide_closed].
    + apply (other_block _ _ 15); [done|done|decide_closed].
    + apply (other_block _ _ 20); [done|done|decide_closed].
    + apply written_block; [done|done|decide_closed|by rewrite Hlen].
Qed.

Lemma reg16_writer (type : string) (msb lsb : Z) (n : nat) (bs : list Z) st :
  existsb (String.eqb type) ["GenConf"; "DAC"; "Mon"]%string = true ->
  String.eqb type "GenConf" && (n <? 16)%nat = false ->
  (String.eqb type "DAC" || String.eqb type "Mon") && (n <? 15)%nat = false ->
  ADDRS !! type = Some (msb, lsb) -> 0 <= msb < 256 ->
  points_ok n (reg16_points msb lsb n) ->
  length bs = n -> grid_ok (simRegs (dev st)) ->
  exists d', rwReg16w type (Some bs) "w" st = (Ok (RLen n, Some bs), with_dev d' st) /\
             simRegs d' = writes (reg16_points msb lsb n) bs (simRegs (dev st)).
Proof.
  intros Htype Hsz1 Hsz2 Ha Hmsb Hok Hlen Hg. subst n.
  destruct (rwReg16w_write st type msb lsb bs (dev st)) as (d' & Hw & Hregs); try done.
  rewrite with_dev_id in Hw. by exists d'.
Qed.

Lemma writeGenConf_sim (bs : list Z) st :
  length bs = 16%nat -> grid_ok (simRegs (dev st)) ->
  exists d', writeGenConf (Some bs) st = (Ok (RLen 16), with_dev d' st) /\
             simRegs d' = writes (reg16_points 0x00 0x20 16) bs (simRegs (dev st)).
Proof.
  intros Hlen Hg.
  destruct (reg16_writer "GenConf" 0x00 0x20 16 bs st) as (d' & Hw & Hregs); try done.
  { decide_closed. }
  exists d'. split; [|done]. unfold writeGenConf, bind, ret. by rewrite Hw.
Qed.

Lemma writeDAC_sim (bs : list Z) st :
  length bs = 15%nat -> grid_ok (simRegs (dev st)) ->
  exists d', writeDAC (Some bs) st = (Ok (RLen 15), with_dev d' st) /\
             simRegs d' = writes (reg16_points 0x00 0x40 15) bs (simRegs (dev st)).
Proof.
  intros Hlen Hg.
  destruct (reg16_writer "DAC" 0x00 0x40 15 bs st) as (d' & Hw & Hregs); try done.
  { decide_closed. }
  exists d'. split; [|done]. unfold writeDAC, bind, ret. by rewrite Hw.
Qed.

Lemma writeRoTstConf_sim (bs : list Z) st :
  length bs = 20%nat -> grid_ok (simRegs (dev st)) ->
  exists d', writeRoTstConf (Some bs) st = (Ok bs, with_dev d' st) /\
             simRegs d' = writes rotst_points bs (simRegs (dev st)).
Proof.
  intros Hlen Hg.
  assert (Hok : points_ok (length bs) rotst_points) by (rewrite Hlen; decide_closed).
  destruct (rwRoTstConf_write st bs (dev st) Hok Hg) as (d' & Hw & Hregs).
  rewrite with_dev_id in Hw.
  exists d'. split; [|done]. unfold writeRoTstConf, bind, ret. cbn [from_option id].
  by rewrite Hw.
Qed.

Lemma writeMFE_sim (bs : list Z) st :
  length bs = 512%nat -> grid_ok (simRegs (dev st)) ->
  exists d', writeMFE (Some bs) st = (Ok bs, with_dev d' st) /\
             simRegs d' = writes (mfe_points (range 64)) bs (simRegs (dev st)).
Proof.
  intros Hlen Hg.
  assert (Hnn : Forall (fun r => 0 <= r) (range 64)) by decide_closed.
  assert (Hok : points_ok (length bs) (mfe_points (range 64))) by (rewrite Hlen; decide_closed).
  destruct (rwMFE_write_regions st bs (range 64) Hnn Hok (dev st) Hg) as (d' & Hw & Hregs).
  rewrite with_dev_id in Hw.
  exists d'. split; [|done]. unfold writeMFE. cbn [from_option id].
  unfold bind at 1. unfold rwMFE. unfold bind at 1. by rewrite Hw.
Qed.

End SimWriters.

(** X12.  On a simulated device, a write of a whole block ([writeGenConf]
    with 16 bytes, [writeDAC] with 15, [writeRoTstConf] with 20, [writeMFE]
    with 512) makes its own block read as the bytes written and leaves what
    the other three blocks read as unchanged; the grid keeps its shape and
    its cells still start with a byte. *)
Theorem block_write_changes_only_its_block (st : state Sim.device) (bs : list Z) :
  let g := Sim.simRegs (dev st) in
  let kept (i : nat) (st1 : state Sim.device) :=
    blocks (Sim.simRegs (dev st1)) = <[i := bs]> (blocks g) /\
    Sim.grid_ok (Sim.simRegs (dev st1)) /\ cells_okb (Sim.simRegs (dev st1)) = true in
  Sim.grid_ok g -> cells_okb g = true -> forallb is_byte bs = true ->
  (length bs = 16%nat ->
   exists st1, writeGenConf (Some bs) st = (Ok (RLen 16), st1) /\ kept 0%nat st1) /\
  (length bs = 15%nat ->
   exists st1, writeDAC (Some bs) st = (Ok (RLen 15), st1) /\ kept 1%nat st1) /\
  (length bs = 20%nat ->
   exists st1, writeRoTstConf (Some bs) st = (Ok bs, st1) /\ kept 2%nat st1) /\
  (length bs = 512%nat ->
   exists st1, writeMFE (Some bs) st = (Ok bs, st1) /\ kept 3%nat st1).
Proof.
  intros g kept Hg Hc Hbs. subst kept. cbv beta.
  split; [|split; [|split]]; intros Hlen.
  - destruct (writeGenConf_sim bs st Hlen Hg) as (d' & Hw & Hregs).
    exists (with_dev d' st). split; [done|]. cbn [dev with_dev]. rewrite Hregs.
    by apply blocks_after.
  - destruct (writeDAC_sim bs st Hlen Hg) as (d' & Hw & Hregs).
    exists (with_dev d' st). split; [done|]. cbn [dev with_dev]. rewrite Hregs.
    by apply blocks_after.
  - destruct (writeRoTstConf_sim bs st Hlen Hg) as (d' & Hw & Hregs).
    exists (with_dev d' st). split; [done|]. cbn [dev with_dev]. rewrite Hregs.
    by apply blocks_after.
  - destruct (writeMFE_sim bs st Hlen Hg) as (d' & Hw & Hregs).
    exists (with_dev d' st). split; [done|]. cbn [dev with_dev]. rewrite Hregs.
    by apply blocks_after.
Qed.

Lemma block_write_changes_only_its_block_witness :
  let st := init 1 Sim.fresh (fun _ => 0) in
  exists st1, writeDAC (Some (snd <$> DAC)) st = (Ok (RLen 15), st1) /\
              blocks (Sim.simRegs (dev st1))
              = [bytearray 16; snd <$> DAC; bytearray 20; bytearray 512] /\
              Sim.grid_ok (Sim.simRegs (dev st1)) /\
              cells_okb (Sim.simRegs (dev st1)) = true.
Proof.
  exact (proj1 (proj2 (block_write_changes_only_its_block
                         (init 1 Sim.fresh (fun _ => 0)) (snd <$> DAC)
                         ltac:(decide_closed) ltac:(decide_closed) eq_refl))
               eq_refl).
Defined.

(** X13.  On a simulated device [updateRegs] succeeds and leaves the
    GenConf and DAC blocks holding the values of the default tables of
    [__init__], in table order, whatever they held before; the RoTstConf
    and MFE blocks read as before. *)
Theorem updateRegs_restores_default_tables (st : state Sim.device) :
  let g := Sim.simRegs (dev st) in
  Sim.grid_ok g -> cells_okb g = true ->
  exists st1, updateRegs st = (Ok tt, st1) /\
              blocks (Sim.simRegs (dev st1))
              = [snd <$> GenConf; snd <$> DAC; RoTstConf_bytes g; MFE_bytes g] /\
              Sim.grid_ok (Sim.simRegs (dev st1)) /\
              cells_okb (Sim.simRegs (dev st1)) = true.
Proof.
  intros g Hg Hc. subst g. unfold updateRegs.
  assert (HG : forall s : state Sim.device,
             writeGenConf None s = writeGenConf (Some (snd <$> GenConf)) s).
  { intros s. unfold writeGenConf. unfold bind at 1.
    rewrite getBytesFromDict_ok by decide_closed. reflexivity. }
  assert (HD : forall s : state Sim.device,
             writeDAC None s = writeDAC (Some (snd <$> DAC)) s).
  { intros s. unfold writeDAC. unfold bind at 1.
    rewrite getBytesFromDict_ok by decide_closed. reflexivity. }
  assert (HlG : length (snd <$> GenConf) = 16%nat) by reflexivity.
  assert (HlD : length (snd <$> DAC) = 15%nat) by reflexivity.
  destruct (writeGenConf_sim (snd <$> GenConf) st HlG Hg) as (d1 & Hw1 & Hregs1).
  destruct (blocks_after (reg16_points 0x00 0x20 16) (snd <$> GenConf) 0
              (Sim.simRegs (dev st)))
    as (Hb1 & Hg1 & Hc1); [done|done|done|done|done|].
  destruct (writeDAC_sim (snd <$> DAC) (with_dev d1 st) HlD) as (d2 & Hw2 & Hregs2).
  { cbn [dev with_dev]. by rewrite Hregs1. }
  cbn [dev with_dev] in Hregs2. rewrite Hregs1 in Hregs2.
  destruct (blocks_after (reg16_points 0x00 0x40 15) (snd <$> DAC) 1
              (writes (reg16_points 0x00 0x20 16) (snd <$> GenConf) (Sim.simRegs (dev st))))
    as (Hb2 & Hg2 & Hc2); [done|done|done|done|done|].
  exists (with_dev d2 (with_dev d1 st)).
  split.
  - unfold bind. by rewrite HG, Hw1, HD, Hw2.
  - cbn [dev with_dev]. rewrite Hregs2. split; [|done].
    rewrite Hb2, Hb1. reflexivity.
Qed.

Lemma updateRegs_restores_default_tables_witness :
  exists st1, updateRegs (init 1 Sim.fresh (fun _ => 0)) = (Ok tt, st1) /\
              blocks (Sim.simRegs (dev st1))
              = [snd <$> GenConf; snd <$> DAC; bytearray 20; bytearray 512] /\
              Sim.grid_ok (Sim.simRegs (dev st1)) /\
              cells_okb (Sim.simRegs (dev st1)) = true.
Proof.
  exact (updateRegs_restores_default_tables (init 1 Sim.fresh (fun _ => 0))
           ltac:(decide_closed) ltac:(decide_closed)).
Defined.

(** X14.  [writeMon] with fifteen bytes writes them into the DAC block of
    the simulated device: afterwards the DAC block reads as these bytes,
    the other blocks read as before, and the cells at the address of the
    Mon block (row 0x00, columns 0xE0 to 0xEE) are as they were. *)
Theorem writeMon_overwrites_DAC_block (st : state Sim.device) (bs : list Z) :
  let g := Sim.simRegs (dev st) in
  Sim.grid_ok g -> cells_okb g = true ->
  length bs = 15%nat -> forallb is_byte bs = true ->
  exists st1, writeMon (Some bs) st = (Ok (RLen 15), st1) /\
              blocks (Sim.simRegs (dev st1)) = <[1%nat := bs]> (blocks g) /\
              block_bytes (Sim.simRegs (dev st1)) (reg16_points 0x00 0xE0 15)
              = block_bytes g (reg16_points 0x00 0xE0 15).
Proof.
  intros g Hg Hc Hlen Hbs.
  destruct (writeDAC_sim bs st Hlen Hg) as (d' & Hw & Hregs).
  exists (with_dev d' st). split; [exact Hw|]. cbn [dev with_dev]. rewrite Hregs.
  split.
  - by apply blocks_after.
  - apply (other_block _ _ 15); [rewrite Hlen|..]; decide_closed.
Qed.

Lemma writeMon_overwrites_DAC_block_witness :
  let st := init 1 Sim.fresh (fun _ => 0) in
  let bs := replicate 15 0xAA in
  exists st1, writeMon (Some bs) st = (Ok (RLen 15), st1) /\
              blocks (Sim.simRegs (dev st1))
              = [bytearray 16; bs; bytearray 20; bytearray 512] /\
              block_bytes (Sim.simRegs (dev st1)) (reg16_points 0x00 0xE0 15)
              = bytearray 15.
Proof.
  exact (writeMon_overwrites_DAC_block (init 1 Sim.fresh (fun _ => 0)) (replicate 15 0xAA)
           ltac:(decide_closed) ltac:(decide_closed) eq_refl eq_refl).
Defined.

Section PixCtrl.

Lemma rec_write (addr : Z) (args : list Z) (st : state Rec.log) :
  write addr args st
  = (Ok (Z.of_nat (length args)), with_dev (dev st ++ [Rec.TxWrite addr args]) st).
Proof. reflexivity. Qed.

Lemma pixctrl_column (mask : Z) : 0 <= Z.lor 0x80 (Z.land mask 0x1F) < 256.
Proof.
  assert (Hland : 0 <= Z.land mask 0x1F < 32).
  { change 0x1F with (Z.ones 5). rewrite Z.land_ones by lia.
    apply Z.mod_pos_bound. lia. }
  pose proof (Z.add_lor_land 0x80 (Z.land mask 0x1F)) as Hadd.
  assert (0 <= Z.lor 0x80 (Z.land mask 0x1F)) by (apply Z.lor_nonneg; lia).
  assert (0 <= Z.land 0x80 (Z.land mask 0x1F)) by (apply Z.land_nonneg; lia).
  lia.
Qed.

End PixCtrl.

(** X15.  [rwPixCtrl] sends ADD_MSB with 0x40 and ADD_LSB with 0x80 or-ed
    with the low five bits of the mask.  In read mode it then raises
    [AttributeError], since the class has no [pread], and sends no RD; in
    any other mode it sends one WR with the value and returns 1.  The
    [broadcast] flag changes nothing. *)
Theorem rwPixCtrl_read_mode_raises (st : state Rec.log) (mask value : Z) (broadcast : bool) :
  rwPixCtrl mask value broadcast "r" st
  = (Raise AttributeError, with_dev (dev st ++ pixctrl_selectors (chipid st) mask) st) /\
  (forall mode, mode <> "r"%string ->
     rwPixCtrl mask value broadcast mode st
     = (Ok 1, with_dev (dev st ++ pixctrl_selectors (chipid st) mask
                               ++ [Rec.TxWrite (cmdByte (chipid st) 4) [value]]) st)).
Proof.
  assert (Hsel : forall mode,
             rwPixCtrl mask value broadcast mode st
             = (if String.eqb mode "r" then raise AttributeError
                else let* c := cmd "WR" in write c [value] >> ret 1)
                 (with_dev (dev st ++ pixctrl_selectors (chipid st) mask) st)).
  { intros mode. unfold rwPixCtrl.
    unfold bind at 1, cmd at 1. rewrite getCmdByte_ADD_MSB.
    unfold bind at 1. rewrite rec_write.
    unfold bind at 1. rewrite (addrs_run "PixCtrl" (0x00, 0x80)) by reflexivity.
    unfold bind at 1, cmd at 1. rewrite getCmdByte_ADD_LSB.
    unfold bind at 1. rewrite rec_write.
    cbn [dev with_dev chipid snd]. unfold pixctrl_selectors.
    rewrite <- app_assoc. reflexivity. }
  split.
  - by rewrite Hsel.
  - intros mode Hmode%String.eqb_neq. rewrite Hsel, Hmode.
    unfold bind at 1, cmd at 1. rewrite getCmdByte_WR.
    unfold bind at 1. rewrite rec_write. cbn [dev with_dev chipid].
    by rewrite <- app_assoc.
Qed.

Lemma rwPixCtrl_read_mode_raises_witness :
  let st := init 1 ([] : Rec.log) (fun _ => 0) in
  rwPixCtrl 0x03 0xFF true "w" st
  = (Ok 1, with_dev [Rec.TxWrite 0x12 [0x40]; Rec.TxWrite 0x13 [0x83]; Rec.TxWrite 0x14 [0xFF]]
                    st).
Proof.
  exact (proj2 (rwPixCtrl_read_mode_raises (init 1 ([] : Rec.log) (fun _ => 0)) 0x03 0xFF true)
               "w"%string ltac:(discriminate)).
Defined.

(** X16.  On a simulated device a [rwPixCtrl] write stores the one-byte
    payload in row 0x40 at a column between 0x80 and 0x9F, the column
    chosen by the low five bits of the mask, and leaves both selectors
    pointing there. *)
Theorem rwPixCtrl_write_lands_in_row_0x40
        (st : state Sim.device) (mask value : Z) (broadcast : bool) (mode : string) :
  Sim.grid_ok (Sim.simRegs (dev st)) -> mode <> "r"%string ->
  let col := Z.lor 0x80 (Z.land mask 0x1F) in
  rwPixCtrl mask value broadcast mode st
  = (Ok 1, with_dev (Sim.Device (Sim.put 0x40 col [value] (Sim.simRegs (dev st)))
                                (Some 0x40) (Some col)) st) /\
  0x80 <= col < 0xA0 /\
  Sim.cell (Sim.put 0x40 col [value] (Sim.simRegs (dev st))) 0x40 col = Some [value].
Proof.
  intros Hg Hmode%String.eqb_neq col.
  pose proof (pixctrl_column mask) as Hcol. fold col in Hcol.
  assert (Hcol' : 0x80 <= col < 0xA0).
  { assert (Hland : 0 <= Z.land mask 0x1F < 32).
    { change 0x1F with (Z.ones 5). rewrite Z.land_ones by lia.
      apply Z.mod_pos_bound. lia. }
    pose proof (Z.add_lor_land 0x80 (Z.land mask 0x1F)) as Hadd.
    assert (0 <= Z.land 0x80 (Z.land mask 0x1F)) by (apply Z.land_nonneg; lia).
    assert (Hdisj : Z.land 0x80 (Z.land mask 0x1F) = 0).
    { change 0x1F with (Z.ones 5). rewrite Z.land_ones by lia.
      change 0x80 with (2 ^ 7).
      apply Z.bits_inj'. intros n Hn. rewrite Z.land_spec, Z.bits_0.
      rewrite Z.pow2_bits_eqb by lia.
      destruct (Z.eqb_spec 7 n) as [<-|]; [|done]. cbn [andb].
      apply Z.mod_pow2_bits_high. lia. }
    unfold col. lia. }
  split; [|split; [done|by apply cell_put_eq]].
  rewrite <- (with_dev_id st) at 1. unfold rwPixCtrl.
  unfold bind at 1. rewrite sim_cmd, getCmdByte_ADD_MSB.
  unfold bind at 1. rewrite sim_write, writeSim_ADD_MSB. cbn [fst snd].
  unfold bind at 1. rewrite (addrs_run "PixCtrl" (0x00, 0x80)) by reflexivity.
  unfold bind at 1. rewrite sim_cmd, getCmdByte_ADD_LSB.
  unfold bind at 1. rewrite sim_write, writeSim_ADD_LSB. cbn [fst snd].
  rewrite Hmode.
  unfold bind at 1. rewrite sim_cmd, getCmdByte_WR.
  unfold bind at 1. rewrite sim_write, writeSim_WR.
  rewrite (store_cell_in_range _ 0x40 col) by done.
  reflexivity.
Qed.

Lemma rwPixCtrl_write_lands_in_row_0x40_witness :
  let st := init 1 Sim.fresh (fun _ => 0) in
  rwPixCtrl 0x03 0xFF true "w" st
  = (Ok 1, with_dev (Sim.Device (Sim.put 0x40 0x83 [0xFF] (Sim.simRegs Sim.fresh))
                                (Some 0x40) (Some 0x83)) st).
Proof.
  exact (proj1 (rwPixCtrl_write_lands_in_row_0x40 (init 1 Sim.fresh (fun _ => 0))
                  0x03 0xFF true "w"%string ltac:(decide_closed) ltac:(discriminate))).
Defined.

Section SubscriberLines.

Import Subscriber.

Lemma read_msg_line (s : socket) (line : string) (rest : list string) (w0 : string) :
  reader s = line :: rest -> line <> EmptyString ->
  split_space line !! 0%nat = Some w0 ->
  read_msg s
  = (let words := split_space line in
     if String.eqb w0 "start_run" then
       let* w1 := word words 1 in
       let* id := int w1 in
       set_scanId id >> ret (Some line)
     else if String.eqb w0 "stop_run" then ret (Some line)
     else if String.eqb w0 "pos" then
       let* w1 := word words 1 in
       let* x := int w1 in
       set_scan_x x >>
       let* w2 := word words 2 in
       let* y := int w2 in
       set_scan_y y >> ret (Some line)
     else ret (Some line)) (Socket rest (scanId s) (scan_x s) (scan_y s)).
Proof.
  intros Hr Hne Hw0. unfold read_msg. unfold bind at 1, readline. rewrite Hr.
  apply String.eqb_neq in Hne. rewrite Hne.
  unfold bind at 1, word at 1, lift_res.
  by rewrite (getitem_lookup _ 0 _ ltac:(lia) Hw0).
Qed.

Lemma split_space_head (line : string) : exists w0, split_space line !! 0%nat = Some w0.
Proof.
  induction line as [|c line [w0 IH]]; cbn [split_space]; [by eexists|].
  destruct (Ascii.eqb c " "); [by eexists|].
  destruct (split_space line); [done|by eexists].
Qed.

Lemma word_missing (words : list string) (k : nat) (s : socket) :
  (length words <= k)%nat -> word words (Z.of_nat k) s = (Raise IndexError, s).
Proof. intros Hk. unfold word, lift_res. by rewrite getitem_beyond. Qed.

Lemma word_present (words : list string) (k : nat) (w : string) (s : socket) :
  words !! k = Some w -> word words (Z.of_nat k) s = (Ok w, s).
Proof.
  intros Hw. unfold word, lift_res.
  rewrite (getitem_lookup _ (Z.of_nat k) w); [done|lia|by rewrite Nat2Z.id].
Qed.

End SubscriberLines.

(** X17.  [read_msg] on a line of the feed.  The words are separated by
    single spaces and there is always a first one.  After [start_run] a
    number sets the scan id; after [pos] two numbers set x and y (a number
    is what [int] takes: of at most 4300 digits, among others); a line
    with any other first word, [stop_run] among them, changes no field.  In
    each case the line is consumed and returned. *)
Theorem read_msg_takes_well_formed_lines
        (s : Subscriber.socket) (line : string) (rest : list string) :
  Subscriber.reader s = line :: rest -> line <> EmptyString ->
  let words := Subscriber.split_space line in
  let id := Subscriber.scanId s in
  let x := Subscriber.scan_x s in
  let y := Subscriber.scan_y s in
  (forall w1 n,
     words !! 0%nat = Some "start_run"%string -> words !! 1%nat = Some w1 ->
     Subscriber.py_int w1 = Some n ->
     Subscriber.read_msg s = (Ok (Some line), Subscriber.Socket rest (Some n) x y)) /\
  (forall w1 w2 n m,
     words !! 0%nat = Some "pos"%string ->
     words !! 1%nat = Some w1 -> words !! 2%nat = Some w2 ->
     Subscriber.py_int w1 = Some n -> Subscriber.py_int w2 = Some m ->
     Subscriber.read_msg s = (Ok (Some line), Subscriber.Socket rest id (Some n) (Some m))) /\
  (forall w0,
     words !! 0%nat = Some w0 -> w0 <> "start_run"%string -> w0 <> "pos"%string ->
     Subscriber.read_msg s = (Ok (Some line), Subscriber.Socket rest id x y)) /\
  (exists w0, words !! 0%nat = Some w0).
Proof.
  intros Hr Hne words id x y. split; [|split; [|split; [|apply split_space_head]]].
  - intros w1 n Hw0 Hw1 Hn.
    rewrite (read_msg_line s line rest _ Hr Hne Hw0). cbv zeta.
    cbn [String.eqb Ascii.eqb Bool.eqb].
    unfold bind at 1. rewrite (word_present _ 1 w1) by done.
    unfold bind at 1, Subscriber.int. by rewrite Hn.
  - intros w1 w2 n m Hw0 Hw1 Hw2 Hn Hm.
    rewrite (read_msg_line s line rest _ Hr Hne Hw0). cbv zeta.
    cbn [String.eqb Ascii.eqb Bool.eqb].
    unfold bind at 1. rewrite (word_present _ 1 w1) by done.
    unfold bind at 1, Subscriber.int at 1. rewrite Hn.
    unfold ret at 1. unfold bind at 1, Subscriber.set_scan_x, modify.
    unfold bind at 1. rewrite (word_present _ 2 w2) by done.
    unfold bind at 1, Subscriber.int. by rewrite Hm.
  - intros w0 Hw0 Hn1 Hn2.
    rewrite (read_msg_line s line rest _ Hr Hne Hw0). cbv zeta.
    apply String.eqb_neq in Hn1, Hn2. rewrite Hn1, Hn2.
    by destruct (String.eqb w0 "stop_run").
Qed.

Lemma read_msg_takes_well_formed_lines_witness :
  let s := Subscriber.Socket [("pos 30 -40" ++ LF)%string] (Some 42) (Some 10) (Some 20) in
  Subscriber.read_msg s
  = (Ok (Some ("pos 30 -40" ++ LF)%string),
     Subscriber.Socket [] (Some 42) (Some 30) (Some (-40))).
Proof.
  exact (proj1 (proj2 (read_msg_takes_well_formed_lines
                         (Subscriber.Socket [("pos 30 -40" ++ LF)%string]
                                            (Some 42) (Some 10) (Some 20))
                         ("pos 30 -40" ++ LF)%string [] eq_refl ltac:(discriminate)))
               "30"%string ("-40" ++ LF)%string 30 (-40)
               eq_refl eq_refl eq_refl eq_refl eq_refl).
Defined.

(** X18.  A line that is only the word [start_run] or only the word
    [pos] makes [read_msg] raise [IndexError] with the position fields
    unchanged; a [pos] line with one number only (one that [int] takes,
    so of at most 4300 digits) raises [IndexError] after x was already set
    to that number.  The line is consumed. *)
Theorem read_msg_missing_field_raises_IndexError
        (s : Subscriber.socket) (line : string) (rest : list string) :
  Subscriber.reader s = line :: rest -> line <> EmptyString ->
  let words := Subscriber.split_space line in
  let id := Subscriber.scanId s in
  let x := Subscriber.scan_x s in
  let y := Subscriber.scan_y s in
  (words = ["start_run"%string] \/ words = ["pos"%string] ->
   Subscriber.read_msg s = (Raise IndexError, Subscriber.Socket rest id x y)) /\
  (forall w1 n,
     words = ["pos"%string; w1] -> Subscriber.py_int w1 = Some n ->
     Subscriber.read_msg s = (Raise IndexError, Subscriber.Socket rest id (Some n) y)).
Proof.
  intros Hr Hne words id x y. split.
  - intros [Hw|Hw].
    + rewrite (read_msg_line s line rest "start_run" Hr Hne) by (by fold words; rewrite Hw).
      cbv zeta. cbn [String.eqb Ascii.eqb Bool.eqb]. fold words. rewrite Hw.
      unfold bind at 1. by rewrite (word_missing _ 1).
    + rewrite (read_msg_line s line rest "pos" Hr Hne) by (by fold words; rewrite Hw).
      cbv zeta. cbn [String.eqb Ascii.eqb Bool.eqb]. fold words. rewrite Hw.
      unfold bind at 1. by rewrite (word_missing _ 1).
  - intros w1 n Hw Hn.
    rewrite (read_msg_line s line rest "pos" Hr Hne) by (by fold words; rewrite Hw).
    cbv zeta. cbn [String.eqb Ascii.eqb Bool.eqb]. fold words. rewrite Hw.
    unfold bind at 1. rewrite (word_present _ 1 w1) by done.
    unfold bind at 1, Subscriber.int at 1. rewrite Hn.
    unfold ret at 1. unfold bind at 1, Subscriber.set_scan_x, modify.
    unfold bind at 1. by rewrite (word_missing _ 2).
Qed.

Lemma read_msg_missing_field_raises_IndexError_witness :
  let s := Subscriber.Socket ["pos 30"%string; ("pos 1 2" ++ LF)%string]
                             (Some 42) (Some 10) (Some 20) in
  Subscriber.read_msg s
  = (Raise IndexError,
     Subscriber.Socket [("pos 1 2" ++ LF)%string] (Some 42) (Some 30) (Some 20)).
Proof.
  exact (proj2 (read_msg_missing_field_raises_IndexError
                  (Subscriber.Socket ["pos 30"%string; ("pos 1 2" ++ LF)%string]
                                     (Some 42) (Some 10) (Some 20))
                  "pos 30"%string [("pos 1 2" ++ LF)%string] eq_refl ltac:(discriminate))
               "30"%string 30 eq_refl eq_refl).
Defined.

(** X19.  At the end of the feed [read_msg] returns [None] and changes
    nothing, and [__readScanPos] does not stop: after any number of rounds
    it is still in its loop with the socket unchanged. *)
Theorem readScanPos_spins_at_end_of_input (s : Subscriber.socket) (fuel : nat) :
  Subscriber.reader s = [] ->
  Subscriber.read_msg s = (Ok None, s) /\
  Subscriber.readScanPos fuel s = (Running, s).
Proof.
  intros Hr.
  assert (Hmsg : Subscriber.read_msg s = (Ok None, s)).
  { unfold Subscriber.read_msg, bind, Subscriber.readline. by rewrite Hr. }
  split; [done|].
  induction fuel as [|fuel IH]; [done|].
  cbn [Subscriber.readScanPos]. by rewrite Hmsg.
Qed.

Lemma readScanPos_spins_at_end_of_input_witness :
  Subscriber.readScanPos 7 (Subscriber.Socket [] None None None)
  = (Running, Subscriber.Socket [] None None None).
Proof.
  exact (proj2 (readScanPos_spins_at_end_of_input
                  (Subscriber.Socket [] None None None) 7 eq_refl)).
Defined.

Section Ones.

Context {T : Type}.

Lemma popcount_range (x : Z) : 0 <= popcount x <= 8.
Proof.
  unfold popcount.
  assert (H : forall ks : list Z,
             0 <= foldr (fun k acc => (if Z.testbit x k then 1 else 0) + acc) 0 ks
             <= Z.of_nat (length ks)).
  { induction ks as [|k ks IH]; cbn [foldr length]; [lia|].
    destruct (Z.testbit x k); lia. }
  specialize (H (range 8)). change (length (range 8)) with 8%nat in H. lia.
Qed.

Lemma count_ones_from (l : list Z) (acc : Z) :
  acc <= foldl (fun a b => a + popcount b) acc l <= acc + 8 * Z.of_nat (length l).
Proof.
  revert acc. induction l as [|b l IH]; intros acc; cbn [foldl length]; [lia|].
  pose proof (popcount_range b). specialize (IH (acc + popcount b)). lia.
Qed.

(** Python's indexing of the table with a negative byte value. *)
Lemma bitcounts_wrap (b : Z) :
  -256 <= b < 256 -> getitem bitcounts b = Ok (popcount (b mod 256)).
Proof.
  intros Hb. destruct (decide (0 <= b)) as [Hpos|Hneg].
  - rewrite Z.mod_small by lia. apply bitcounts_lookup. apply is_byte_range. lia.
  - unfold getitem, index.
    assert (Hlen : length bitcounts = 256%nat) by reflexivity. rewrite Hlen.
    assert (((0 <=? b) && (b <? Z.of_nat 256)) = false) as ->
        by (apply andb_false_intro1; apply Z.leb_gt; lia).
    assert (((- Z.of_nat 256 <=? b) && (b <? 0)) = true) as ->
        by (apply andb_true_intro; split; [apply Z.leb_le|apply Z.ltb_lt]; lia).
    replace (b mod 256) with (b + 256)
      by (symmetry; rewrite <- (Z.mod_add b 1 256) by lia; apply Z.mod_small; lia).
    unfold bitcounts, range. rewrite !list_lookup_fmap.
    rewrite lookup_seq_lt by lia. cbn [fmap option_fmap option_map Nat.add].
    rewrite Z2Nat.id by lia. reflexivity.
Qed.

Lemma bitcounts_outside (b : Z) :
  b < -256 \/ 256 <= b -> getitem bitcounts b = Raise IndexError.
Proof.
  intros Hb. unfold getitem, index.
  assert (Hlen : length bitcounts = 256%nat) by reflexivity. rewrite Hlen.
  assert (((0 <=? b) && (b <? Z.of_nat 256)) = false) as ->.
  { apply andb_false_iff. destruct Hb; [left; apply Z.leb_gt|right; apply Z.ltb_ge]; lia. }
  assert (((- Z.of_nat 256 <=? b) && (b <? 0)) = false) as ->; [|done].
  apply andb_false_iff. destruct Hb; [left; apply Z.leb_gt|right; apply Z.ltb_ge]; lia.
Qed.

Lemma onesInBytes_wrap_from (l : list Z) (acc : Z) (st : state T) :
  Forall (fun b => -256 <= b < 256) l ->
  for_each l (fun byte counter =>
                let* n := @lift_res (state T) _ (getitem bitcounts byte) in ret (counter + n))
           acc st
  = (Ok (foldl (fun a b => a + popcount b) acc ((fun b => b mod 256) <$> l)), st).
Proof.
  revert acc. induction l as [|b l IH]; intros acc Hl; [done|].
  apply Forall_cons in Hl as [Hb Hl].
  cbn [for_each foldl fmap list_fmap]. unfold bind at 1, lift_res at 1, bind at 1.
  rewrite (bitcounts_wrap b Hb). cbn. by apply IH.
Qed.

Lemma onesInBytes_stops_from (l : list Z) (b : Z) (rest : list Z) (acc : Z) (st : state T) :
  Forall (fun b => -256 <= b < 256) l -> b < -256 \/ 256 <= b ->
  for_each (l ++ b :: rest)
           (fun byte counter =>
              let* n := @lift_res (state T) _ (getitem bitcounts byte) in ret (counter + n))
           acc st
  = (Raise IndexError, st).
Proof.
  revert acc. induction l as [|a l IH]; intros acc Hl Hb.
  - cbn [app for_each]. unfold bind at 1, lift_res at 1, bind at 1.
    by rewrite (bitcounts_outside b Hb).
  - apply Forall_cons in Hl as [Ha Hl].
    cbn [app for_each]. unfold bind at 1, lift_res at 1, bind at 1.
    rewrite (bitcounts_wrap a Ha). cbn. by apply IH.
Qed.

End Ones.

(** X20.  [onesInBytes] on bytes returns the number of their 1-bits,
    between 0 and eight times the length.  A value from -256 to -1 is
    counted as the byte 256 higher, by the negative indexing of the table;
    the first value outside -256..255 raises [IndexError]. *)
Theorem onesInBytes_counts_set_bits {T : Type} (buf : list Z) (st : state T) :
  (Forall (fun b => -256 <= b < 256) buf ->
   onesInBytes buf st = (Ok (count_ones ((fun b => b mod 256) <$> buf)), st) /\
   0 <= count_ones ((fun b => b mod 256) <$> buf) <= 8 * Z.of_nat (length buf)) /\
  (forallb is_byte buf = true -> onesInBytes buf st = (Ok (count_ones buf), st)) /\
  (forall pre b post,
     buf = pre ++ b :: post -> Forall (fun b => -256 <= b < 256) pre ->
     b < -256 \/ 256 <= b ->
     onesInBytes buf st = (Raise IndexError, st)).
Proof.
  split; [|split].
  - intros Hbuf. split; [by apply onesInBytes_wrap_from|].
    pose proof (count_ones_from ((fun b => b mod 256) <$> buf) 0) as H.
    rewrite length_fmap in H. unfold count_ones. lia.
  - apply onesInBytes_bytes.
  - intros pre b post -> Hpre Hb. by apply onesInBytes_stops_from.
Qed.

Lemma onesInBytes_counts_set_bits_witness :
  let st := init 1 ([] : Rec.log) (fun _ => 0) in
  onesInBytes [0xFF; 0x0F; -1] st = (Ok 20, st) /\
  onesInBytes [0x01; 256; 0x03] st = (Raise IndexError, st).
Proof.
  split.
  - exact (proj1 (proj1 (onesInBytes_counts_set_bits [0xFF; 0x0F; -1]
                           (init 1 ([] : Rec.log) (fun _ => 0)))
                        ltac:(decide_closed))).
  - exact (proj2 (proj2 (onesInBytes_counts_set_bits [0x01; 256; 0x03]
                           (init 1 ([] : Rec.log) (fun _ => 0))))
                 [0x01] 256 [0x03] eq_refl ltac:(decide_closed) ltac:(lia)).
Defined.

(** X21.  [read] with read corruption off returns what the transport
    returned and takes no random draw.  An exception of the transport
    passes through [read] whether corruption is on or off.  With corruption
    on, a transport result that is a sequence passes through when the first
    draw does not trigger, and ends in [TypeError] after the second draw
    when it does. *)
Theorem read_passes_transport_result
        {T : Type} {tr : Transport T} (st : state T) (addr : Z) (args : list pyarg) :
  let r := chipread (chipid st) addr args (dev st) in
  (simReadFlip st = false -> read addr args st = (r.1, with_dev r.2 st)) /\
  (forall e, r.1 = Raise e -> read addr args st = (Raise e, with_dev r.2 st)) /\
  (forall l, r.1 = Ok (VSeq l) -> simReadFlip st = true ->
     read addr args st
     = if entropy st (draws st) mod 1000 =? 0
       then (Raise TypeError, with_draws (S (S (draws st))) (with_dev r.2 st))
       else (Ok (VSeq l), with_draws (S (draws st)) (with_dev r.2 st))).
Proof.
  intros r. subst r. unfold read, bind, on_dev, gets, randint.
  destruct (chipread (chipid st) addr args (dev st)) as [[v|e] d'] eqn:Hrd; cbn [fst snd].
  - split; [|split].
    + intros Hflip. cbn. by rewrite Hflip.
    + intros e [=].
    + intros l [= ->] Hflip. cbn. rewrite Hflip.
      change (0 + entropy (with_dev d' st) (draws (with_dev d' st)) `mod` (999 - 0 + 1))
        with (entropy st (draws st) `mod` 1000).
      by destruct (entropy st (draws st) `mod` 1000 =? 0).
  - split; [done|]. split; [by intros e' [= ->]|]. intros l [=].
Qed.

Lemma read_passes_transport_result_witness :
  let st := init 1 Sim.fresh (fun _ => 0) in
  read 0x15 [] st = (Raise AttributeError, st).
Proof.
  exact (proj1 (read_passes_transport_result (init 1 Sim.fresh (fun _ => 0)) 0x15 [])
               eq_refl).
Defined.

(** X22.  [runBitFlipSearch] without corrective functions, over a prepared
    sequence of reads (the reference, [n] reads equal to it, then a read
    that differs): it is still searching after up to [n] rounds, and with
    more rounds it returns the pair of the reference and the differing
    read, has set [bitFlipFound], has stored the [simReadFlip] argument,
    has printed the old and the new record, and has left the later reads
    unread. *)
Theorem runBitFlipSearch_returns_both_reads
        (st : state (list (list Z))) (ref obs : list Z) (pre rest : list (list Z))
        (i : nat) (flip : bool) :
  dev st = ref :: pre ++ obs :: rest ->
  Forall (fun r => r = ref) pre ->
  forallb is_byte ref = true -> forallb is_byte obs = true ->
  first_diff ref obs 0 = Some i ->
  (forall k, (k <= length pre)%nat ->
     (runBitFlipSearch k next_block None flip st).1 = Searching) /\
  (forall extra,
     exists st', runBitFlipSearch (S (length pre) + extra) next_block None flip st
                 = (Found [ref; obs], st') /\
                 bitFlipFound st' = true /\ bitFlipResult st' = [ref; obs] /\
                 simReadFlip st' = flip /\ dev st' = rest /\
                 rep_bytes <$> stdout st' = (rep_bytes <$> stdout st) ++ [ref; obs]).
Proof.
  intros Hd Hpre Href Hobs Hdiff.
  set (st0 := with_simReadFlip flip st).
  assert (Hd0 : dev st0 = ref :: pre ++ obs :: rest) by exact Hd.
  assert (Hstart : forall fuel,
            checkBitFlipLoop fuel next_block None st0
            = loop fuel next_block None (Locals ref 0)
                   (with_lastRead ref (with_dev (pre ++ obs :: rest) st0))).
  { intros fuel. unfold checkBitFlipLoop.
    by rewrite (next_block_cons st0 ref (pre ++ obs :: rest) Hd0). }
  split.
  - intros k Hk. unfold runBitFlipSearch. fold st0. rewrite Hstart.
    replace k with (length (take k pre) + 0)%nat at 1
      by (rewrite length_take; lia).
    rewrite (loop_equal_reads None ref (take k pre) 0 _ (drop k pre ++ obs :: rest) 0).
    + reflexivity.
    + cbn [dev with_dev with_lastRead]. by rewrite app_assoc, take_drop.
    + by apply Forall_take.
    + done.
    + done.
  - intros extra. unfold runBitFlipSearch. fold st0. rewrite Hstart.
    replace (S (length pre) + extra)%nat with (length pre + S extra)%nat by lia.
    rewrite (loop_equal_reads None ref pre 0 _ (obs :: rest) (S extra)); [|done..].
    cbn [loop].
    rewrite (loop_body_mismatch next_block None _ _ obs
               (with_dev rest (with_lastRead ref (with_dev (pre ++ obs :: rest) st0))) i);
      [|reflexivity|done..].
    eexists. split; [reflexivity|].
    cbn. rewrite fmap_app. by repeat split.
Qed.

Lemma runBitFlipSearch_returns_both_reads_witness :
  let st := init 1 [[1; 2; 3]; [1; 2; 3]; [1; 6; 3]; [1; 2; 3]] (fun _ => 0) in
  exists st', runBitFlipSearch 5 next_block None false st = (Found [[1; 2; 3]; [1; 6; 3]], st') /\
              dev st' = [[1; 2; 3]].
Proof.
  destruct (proj2 (runBitFlipSearch_returns_both_reads
                     (init 1 [[1; 2; 3]; [1; 2; 3]; [1; 6; 3]; [1; 2; 3]] (fun _ => 0))
                     [1; 2; 3] [1; 6; 3] [[1; 2; 3]] [[1; 2; 3]] 1%nat false eq_refl
                     ltac:(by repeat constructor) eq_refl eq_refl eq_refl) 3%nat)
    as (st' & Hrun & _ & _ & _ & Hdev & _).
  exists st'. by split.
Defined.
